(** * Debug-Arena content generators: record segmentation, field
      extraction and literal escaping

    A shallow embedding of the text-processing code of the generator
    scripts ([parse_questions.py], [parser2.py], [generate_puzzles.py],
    [generate_questions_l2.py], [generate_questions_c_l3.py]) and the
    properties of it that the specification states.

    Python [str] values are sequences of Unicode code points: a character
    is a code point ([N]) and a string is a list of them.  Dictionaries
    keyed by the fixed role names are finite maps.  What a script prints
    or writes is a trace of events, and how it stops is an outcome. *)

From Stdlib Require Import NArith ZArith Lia Ascii String.
From stdpp Require Import gmap strings list fin_maps pretty sorting.

Local Open Scope N_scope.
Local Open Scope nat_scope.

Abbreviation char := N (only parsing).
Abbreviation str := (list N) (only parsing).

(** ** Python string primitives *)

Module Py.

(** An ASCII literal of the source, as a list of code points. *)
Definition lit (s : string) : str :=
  map N_of_ascii (list_ascii_of_string s).

Definition LF : char := 10%N.
Definition BACKSLASH : char := 92%N.
Definition DQUOTE : char := 34%N.
Definition SPACE : char := 32%N.
Definition COLON : char := 58%N.
Definition EM_DASH : char := 8212%N.
Definition EN_DASH : char := 8211%N.

(** [str.isspace] on one code point: CPython's whitespace set (the
    ASCII table [_Py_ascii_whitespace] and [_PyUnicode_IsWhitespace]). *)
Definition isspace (c : char) : bool :=
  ((9 <=? c) && (c <=? 13) || (28 <=? c) && (c <=? 32)
   || (c =? 133) || (c =? 160) || (c =? 5760)
   || (8192 <=? c) && (c <=? 8202)
   || (c =? 8232) || (c =? 8233) || (c =? 8239) || (c =? 8287)
   || (c =? 12288))%N.

Fixpoint lstrip (s : str) : str :=
  match s with
  | c :: s' => if isspace c then lstrip s' else s
  | [] => []
  end.

(** [s.rstrip()]: the shortest prefix after which only whitespace
    follows. *)
Fixpoint rstrip (s : str) : str :=
  match s with
  | [] => []
  | c :: s' =>
      match rstrip s' with
      | [] => if isspace c then [] else [c]
      | r => c :: r
      end
  end.

Definition strip (s : str) : str := rstrip (lstrip s).

(** A line of white space only: [not line.strip()]. *)
Definition is_blank (line : str) : bool := forallb isspace line.

(** [s.startswith(p)] *)
Fixpoint startswith (s p : str) {struct p} : bool :=
  match p with
  | [] => true
  | x :: p' =>
      match s with
      | [] => false
      | y :: s' => (x =? y)%N && startswith s' p'
      end
  end.

(** [p in s] *)
Fixpoint contains (s p : str) : bool :=
  startswith s p ||
  match s with
  | [] => false
  | _ :: s' => contains s' p
  end.

(** [s.find(p)]: the offset of the first occurrence of [p], if any;
    also the start of [re.search] for a pattern that is a literal. *)
Fixpoint find_sub (s p : str) : option nat :=
  if startswith s p then Some 0
  else match s with
       | [] => None
       | _ :: s' => S <$> find_sub s' p
       end.

(** [s.replace(old, new)]: the non-overlapping occurrences of [old],
    found left to right, are replaced.  [skip] counts the characters of
    an occurrence that are still to be passed over. *)
Fixpoint replace_from (old new : str) (skip : nat) (s : str) : str :=
  match s with
  | [] => []
  | c :: s' =>
      match skip with
      | S k => replace_from old new k s'
      | O =>
          if startswith s old
          then new ++ replace_from old new (length old - 1) s'
          else c :: replace_from old new 0 s'
      end
  end.

Definition replace (s old new : str) : str :=
  match old with
  | [] => new ++ flat_map (fun c => c :: new) s
  | _ => replace_from old new 0 s
  end.

(** [sep.join(parts)] *)
Fixpoint join (sep : str) (parts : list str) : str :=
  match parts with
  | [] => []
  | [p] => p
  | p :: rest => p ++ sep ++ join sep rest
  end.

(** [s.split(c)] for a one-character separator: always at least one
    piece. *)
Fixpoint split (c : char) (s : str) : list str :=
  match s with
  | [] => [[]]
  | x :: s' =>
      match split c s' with
      | p :: ps => if (x =? c)%N then [] :: p :: ps else (x :: p) :: ps
      | [] => [[x]]
      end
  end.

(** The characters up to the next line feed, counted, and the text from
    that line feed on. *)
Fixpoint skip_line (s : str) : nat * list N :=
  match s with
  | [] => (0, [])
  | c :: s' =>
      if (c =? LF)%N then (0, s)
      else let '(n, r) := skip_line s' in (S n, r)
  end.

(** [l[a:b]] for indices that are not negative. *)
Definition slice {A} (l : list A) (a b : nat) : list A :=
  take (b - a) (drop a l).

(** An index or slice bound that may be negative: Python counts a
    negative one from the end. *)
Definition norm_index (len : nat) (i : Z) : Z :=
  if (i <? 0)%Z then (i + Z.of_nat len)%Z else i.

(** [l[i]]: [None] stands for [IndexError]. *)
Definition index {A} (l : list A) (i : Z) : option A :=
  let j := norm_index (length l) i in
  if (j <? 0)%Z then None else l !! Z.to_nat j.

(** [l[a:b]] with bounds that may be negative; bounds are clamped, never
    an error. *)
Definition zslice {A} (l : list A) (a b : Z) : list A :=
  let clamp i := Z.to_nat (Z.max 0 (norm_index (length l) i)) in
  slice l (clamp a) (clamp b).

(** [str(n)] for a natural number. *)
Definition str_of_nat (n : nat) : str := lit (pretty n).

End Py.

Import Py.

(** ** What a run does *)

Inductive event :=
| Print (s : list N)
| WriteFile (path : string) (data : list N).

Inductive outcome :=
| Finished
| Exited (code : nat)
| Raised (exception : string).

(** The value of a block of code that may raise: [Err] carries the text
    of the exception. *)
Inductive result (A : Type) :=
| Ok (a : A)
| Err (msg : list N).
Arguments Ok {A} a.
Arguments Err {A} msg.

(** ** Escaping into a Swift string literal *)

(** [escape_swift_string] of [parse_questions.py], [parser2.py] and the
    [generate_questions*] scripts:
    [s.replace('\\', '\\\\').replace('"', '\\"').replace('\n', '\\n')]. *)
Definition escape_swift_string (s : str) : str :=
  replace
    (replace
       (replace s [BACKSLASH] [BACKSLASH; BACKSLASH])
       [DQUOTE] [BACKSLASH; DQUOTE])
    [LF] [BACKSLASH; 110%N].

(** [esc] of [generate_puzzles.py], the same three replacements. *)
Definition esc (s : str) : str :=
  replace
    (replace
       (replace s [BACKSLASH] [BACKSLASH; BACKSLASH])
       [DQUOTE] [BACKSLASH; DQUOTE])
    [LF] [BACKSLASH; 110%N].

(** The reading of an escaped literal, left to right: a backslash
    introduces one of the three escapes the generators emit; any other
    character stands for itself.  This is the inverse the specification's
    round-trip property refers to; the scripts themselves never decode. *)
Fixpoint unescape (s : str) : str :=
  match s with
  | [] => []
  | c :: s' =>
      if (c =? BACKSLASH)%N then
        match s' with
        | d :: s'' =>
            if (d =? BACKSLASH)%N then BACKSLASH :: unescape s''
            else if (d =? DQUOTE)%N then DQUOTE :: unescape s''
            else if (d =? 110)%N then LF :: unescape s''
            else c :: unescape s'
        | [] => [c]
        end
      else c :: unescape s'
  end.

(** What the three replacements do to one character. *)
Definition escape_char (c : char) : str :=
  if (c =? BACKSLASH)%N then [BACKSLASH; BACKSLASH]
  else if (c =? DQUOTE)%N then [BACKSLASH; DQUOTE]
  else if (c =? LF)%N then [BACKSLASH; 110%N]
  else [c].

(** ** Field extraction: the line loop of the two parsers *)

(** [headers_map] of [parser2.py] and [parse_questions.py]: section label
    to role name, in the order the dict literal lists them (the order in
    which [for h in headers_map] tries them). *)
Definition headers_map : list (list N * string) :=
  [ (lit "Broken Code", "initialCode"%string);
    (lit "Error", "description"%string);
    (lit "Correct Code", "correctCode"%string);
    (lit "Riddle", "riddle"%string);
    (lit "Hidden Test Cases (Logic-validated)", "hiddenTests"%string);
    (lit "Logic Rule", "conceptExplanation"%string);
    (lit "Regex / Token Rules", "expectedPatterns"%string);
    (lit "Answer", "answer"%string) ].

(** The state of the line loop: the dict [fields], [current_header]
    (kept with its role, [headers_map[current_header]]) and the list
    [current_content]. *)
Record scan_state := ScanState {
  fields : gmap string (list N);
  current_header : option (list N * string);
  current_content : list (list N)
}.

Definition scan_init : scan_state := ScanState ∅ None [].

(** [if current_header:
       fields[headers_map[current_header]] = '\n'.join(current_content).strip()] *)
Definition flush (st : scan_state) : gmap string (list N) :=
  match current_header st with
  | Some (_, role) =>
      <[role := strip (join [LF] (current_content st))]> (fields st)
  | None => fields st
  end.

(** [for h in headers_map: if <test>: ...; break]: the first entry whose
    label passes the script's test [is_hdr] on the stripped line. *)
Definition find_header (is_hdr : str -> str -> bool) (line_stripped : str)
  : option (list N * string) :=
  List.find (fun e => is_hdr line_stripped (fst e)) headers_map.

(** One iteration of [for line in ...]; [keep] is what the script
    appends of a content line. *)
Definition scan_step (is_hdr : str -> str -> bool) (keep : str -> str)
    (st : scan_state) (line : str) : scan_state :=
  let line_stripped := strip line in
  match find_header is_hdr line_stripped with
  | Some h => ScanState (flush st) (Some h) []
  | None =>
      match current_header st with
      | Some _ => ScanState (fields st) (current_header st)
                    (current_content st ++ [keep line])
      | None => st
      end
  end.

(** The loop, then the [if current_header:] after it. *)
Definition scan_fields (is_hdr : str -> str -> bool) (keep : str -> str)
    (lines : list str) : gmap string (list N) :=
  flush (fold_left (scan_step is_hdr keep) lines scan_init).

(** [fields.get(k, '')] *)
Definition get_or_empty (f : gmap string (list N)) (k : string) : str :=
  default [] (f !! k).

(** The dict appended to [questions]. *)
Record question := Question {
  identifier : list N;
  title : list N;
  description : list N;
  initialCode : list N;
  correctCode : list N;
  riddle : list N;
  conceptExplanation : list N;
  expectedPatterns : list N
}.

(** [f'Level 1 – Question {q_identifier[1:]}'] and the [fields.get]
    calls. *)
Definition make_question (q_id : str) (f : gmap string (list N)) : question :=
  Question q_id
    (lit "Level 1 " ++ [EN_DASH] ++ lit " Question " ++ drop 1 q_id)
    (get_or_empty f "description")
    (get_or_empty f "initialCode")
    (get_or_empty f "correctCode")
    (get_or_empty f "riddle")
    (get_or_empty f "conceptExplanation")
    (get_or_empty f "expectedPatterns").

(** The Swift text of one question: the [swift_code.append] calls of the
    [for q in questions] loop. *)
Definition regex_list (regex_raw : str) : list str :=
  match regex_raw with
  | [] => []
  | _ =>
      flat_map
        (fun l => match strip l with
                  | [] => []
                  | ls => [[DQUOTE] ++ escape_swift_string ls ++ [DQUOTE]]
                  end)
        (split LF regex_raw)
  end.

Definition quoted_line (label : string) (value : str) : str :=
  lit "                " ++ lit label ++ lit ": " ++ [DQUOTE] ++ value
  ++ [DQUOTE] ++ lit ",".

Definition swift_question (q : question) : list str :=
  let regex_str := lit "[" ++ join (lit ", ") (regex_list (expectedPatterns q))
                   ++ lit "]" in
  [ lit "            questions.append(Question(";
    quoted_line "title" (title q);
    quoted_line "description" (escape_swift_string (description q));
    quoted_line "initialCode" (escape_swift_string (initialCode q));
    quoted_line "correctCode" (escape_swift_string (correctCode q));
    lit "                difficulty: 1,";
    quoted_line "riddle" (escape_swift_string (riddle q));
    quoted_line "conceptExplanation" (escape_swift_string (conceptExplanation q));
    lit "                language: .swift,";
    lit "                expectedPatterns: " ++ regex_str;
    lit "            ))" ].

Definition swift_code (questions : list question) : list str :=
  [ lit "    private static func generateLevel1Questions(for language: Language) -> [Question] {";
    lit "        var questions: [Question] = []";
    [];
    lit "        if language == .swift {" ]
  ++ flat_map swift_question questions
  ++ [ lit "        }";
       lit "        return questions";
       lit "    }" ].

Definition file_path : str :=
  lit "/Users/student/Downloads/debugg lb copy.swiftpm/questions_raw.txt".

(** ** [parser2.py] *)

Module Parser2.

(** [line_stripped.startswith(h) and len(line_stripped) <= len(h) + 5] *)
Definition is_header (line_stripped h : str) : bool :=
  startswith line_stripped h && (length line_stripped <=? length h + 5).

(** The loop over [body_lines]; a content line is appended as
    [line.rstrip()]. *)
Definition extract_fields (body_lines : list str) : gmap string (list N) :=
  scan_fields is_header rstrip body_lines.

Section Tables.

(** [str.isdigit] and [str.isalpha] on one character: CPython reads them
    from its Unicode database, which is no part of the repository. *)
Variable isdigit : N -> bool.
Variable isalpha : N -> bool.

(** [line.startswith('Q') and len(line) > 1 and line[1].isdigit()] *)
Definition is_question_header (line : str) : bool :=
  startswith line (lit "Q") && (1 <? length line)
  && match line !! 1 with Some c => isdigit c | None => false end.

(** First pass: the indices of the header lines, as [enumerate] meets
    them. *)
Fixpoint q_starts_from (i : nat) (lines : list str) : list nat :=
  match lines with
  | [] => []
  | line :: rest =>
      if is_question_header line then i :: q_starts_from (S i) rest
      else q_starts_from (S i) rest
  end.

Definition q_starts (lines : list str) : list nat := q_starts_from 0 lines.

(** [q_starts[i+1] if i+1 < len(q_starts) else len(lines)] *)
Definition end_idx (lines : list str) (qs : list nat) (i : nat) : nat :=
  match qs !! (i + 1) with
  | Some e => e
  | None => length lines
  end.

(** The pairs [(start_idx, end_idx)] of the second loop, in order. *)
Definition spans (lines : list str) : list (nat * nat) :=
  imap (fun i start_idx => (start_idx, end_idx lines (q_starts lines) i))
    (q_starts lines).

(** [lines[start_idx].strip()] *)
Definition header_line (lines : list str) (start_idx : nat) : str :=
  strip (default [] (lines !! start_idx)).

(** [header_line.split(' ', 2)[0]] *)
Definition q_id (header_line : str) : str :=
  default [] (head (split SPACE header_line)).

(** The [for char_i, char in enumerate(header_line)] loop: the first
    index above [len(q_id)] that holds a letter, 0 when there is none. *)
Fixpoint title_start_from (n char_i : nat) (s : str) : nat :=
  match s with
  | [] => 0
  | c :: s' =>
      if (n <? char_i) && isalpha c then char_i
      else title_start_from n (S char_i) s'
  end.

Definition title_start (header_line : str) : nat :=
  title_start_from (length (q_id header_line)) 0 header_line.

(** [header_line[title_start:] if title_start > 0 else "Unknown"] *)
Definition q_title_suffix (header_line : str) : str :=
  if 0 <? title_start header_line
  then drop (title_start header_line) header_line
  else lit "Unknown".

(** [lines[start_idx+1:end_idx]] *)
Definition body_lines (lines : list str) (start_idx end_idx : nat)
  : list str :=
  slice lines (start_idx + 1) end_idx.

(** One iteration of the second loop. *)
Definition parse_span (lines : list str) (span : nat * nat) : question :=
  make_question (q_id (header_line lines (fst span)))
    (extract_fields (body_lines lines (fst span) (snd span))).

Definition questions (lines : list str) : list question :=
  map (parse_span lines) (spans lines).

(** The script, on the lines [readlines] returned, or on no file. *)
Definition run (file : option (list (list N))) : list event * outcome :=
  let started := [ Print (lit "SCRIPT STARTED");
                   Print (lit "Reading " ++ file_path) ] in
  match file with
  | None => (started ++ [Print (lit "File not found")], Exited 1)
  | Some lines =>
      let counted :=
        started
        ++ [ Print (lit "Read " ++ str_of_nat (length lines) ++ lit " lines");
             Print (lit "Found " ++ str_of_nat (length (q_starts lines))
                    ++ lit " questions") ] in
      match q_starts lines with
      | [] => (counted, Exited 0)
      | _ => (counted ++ [Print (join [LF] (swift_code (questions lines)))],
              Finished)
      end
  end.

End Tables.

End Parser2.

(** ** [parse_questions.py] *)

Module ParseQuestions.

(** [(line_stripped.replace('\\', '') == h or h in line_stripped)
     and line_stripped.startswith(h)] *)
Definition is_header (line_stripped h : str) : bool :=
  (bool_decide (replace line_stripped [BACKSLASH] [] = h)
   || contains line_stripped h)
  && startswith line_stripped h.

(** The loop over [body.split('\n')]; a content line is appended as it
    is. *)
Definition extract_fields (body : str) : gmap string (list N) :=
  scan_fields is_header (fun line => line) (split LF body).

Section Tables.

(** The characters [\d] matches in a [str] pattern: the decimal digits of
    CPython's Unicode database. *)
Variable re_digit : N -> bool.

(** [[A-Za-z]] *)
Definition ascii_letter (c : char) : bool :=
  ((65 <=? c) && (c <=? 90) || (97 <=? c) && (c <=? 122))%N.

(** [.*?([A-Za-z].+)$] on the rest of a line: the lazy [.*?] stops at the
    first letter that still has a character after it, and [.+] runs to
    the end of the line. *)
Fixpoint title_group (s : str) : option (list N) :=
  match s with
  | [] => None
  | c :: s' =>
      if ascii_letter c && negb (bool_decide (s' = [])) then Some s
      else title_group s'
  end.

(** [\d+] and what follows it: greedy, the longest run of digits is
    tried first and given back digit by digit when the rest fails. *)
Fixpoint digits_then_title (s : str) : option (list N * list N) :=
  match s with
  | [] => None
  | c :: s' =>
      if re_digit c then
        match digits_then_title s' with
        | Some (ds, t) => Some (c :: ds, t)
        | None =>
            match title_group s' with
            | Some t => Some ([c], t)
            | None => None
            end
        end
      else None
  end.

(** [^(Q\d+).*?([A-Za-z].+)$] on one line (no line feed inside, which
    [.] does not match): the two groups of the match, if the line
    matches.  With [re.MULTILINE], [^] and [$] hold at the two ends of
    every line, so a match is a whole line. *)
Definition match_line (line : str) : option (list N * list N) :=
  match line with
  | q :: rest =>
      if (q =? 81)%N then
        match digits_then_title rest with
        | Some (ds, t) => Some (q :: ds, t)
        | None => None
        end
      else None
  | [] => None
  end.

Record re_match := ReMatch {
  m_start : nat;
  m_end : nat;
  group1 : list N;
  group2 : list N
}.

(** [re.finditer] over the lines of the text; [off] is the offset of the
    first of [lines] in the text. *)
Fixpoint finditer_lines (off : nat) (lines : list str) : list re_match :=
  match lines with
  | [] => []
  | line :: rest =>
      let later := finditer_lines (off + length line + 1) rest in
      match match_line line with
      | Some (g1, g2) => ReMatch off (off + length line) g1 g2 :: later
      | None => later
      end
  end.

Definition matches (content : str) : list re_match :=
  finditer_lines 0 (split LF content).

(** [matches[i+1].start() if i + 1 < len(matches) else len(content)] *)
Definition span_end (content : str) (ms : list re_match) (i : nat) : nat :=
  match ms !! (i + 1) with
  | Some m => m_start m
  | None => length content
  end.

(** [content[start:end]] with [start = match.end()] *)
Definition body (content : str) (ms : list re_match) (i : nat)
    (m : re_match) : str :=
  slice content (m_end m) (span_end content ms i).

(** [match.group(2).strip()] *)
Definition q_title_suffix (m : re_match) : str := strip (group2 m).

Definition parse_match (content : str) (ms : list re_match) (i : nat)
    (m : re_match) : question :=
  make_question (group1 m) (extract_fields (body content ms i m)).

Definition questions (content : str) : list question :=
  imap (parse_match content (matches content)) (matches content).

(** [parse_questions(file_path)], on the text read, or on no file. *)
Definition run (file : option (list N)) : list event * outcome :=
  match file with
  | None => ([Print (lit "Error: File not found at " ++ file_path)], Finished)
  | Some content =>
      match matches content with
      | [] => ([ Print (lit "No matches found for question pattern.");
                 Print (lit "First 500 chars:");
                 Print (take 500 content) ], Finished)
      | _ => ([Print (join [LF] (swift_code (questions content)))], Finished)
      end
  end.

End Tables.

End ParseQuestions.

(** ** [generate_puzzles.py] *)

Module GenPuzzles.

(** The class [[0-9️⃣🔟]]: the ASCII digits, U+FE0F, U+20E3 and
    U+1F51F. *)
Definition ornament (c : char) : bool :=
  ((48 <=? c) && (c <=? 57) || (c =? 65039) || (c =? 8419)
   || (c =? 128287))%N.

Fixpoint skip_newlines (s : str) : nat * list N :=
  match s with
  | [] => (0, [])
  | c :: s' =>
      if (c =? LF)%N then let '(n, r) := skip_newlines s' in (S n, r)
      else (0, s)
  end.

(** [start_pattern], [(?:[0-9️⃣🔟]+)[^\n]*\n+Question:], tried at the
    head of [s]: the length of the match.  The class and [[^\n]*]
    together take the line up to its line feed, [\n+] takes every line
    feed that follows, and giving characters back never helps, since what
    must come next is a line feed, then a [Q]. *)
Definition match_start (s : str) : option nat :=
  match s with
  | c :: _ =>
      if ornament c then
        let '(n, r) := skip_line s in
        let '(k, r') := skip_newlines r in
        if (0 <? k) && startswith r' (lit "Question:")
        then Some (n + k + 9)
        else None
      else None
  | [] => None
  end.

(** [[m.start() for m in re.finditer(start_pattern, content)]]: after a
    match the search goes on behind it ([skip] characters are passed
    over). *)
Fixpoint starts_from (skip pos : nat) (s : str) : list nat :=
  match s with
  | [] => []
  | _ :: s' =>
      match skip with
      | S k => starts_from k (S pos) s'
      | O =>
          match match_start s with
          | Some n => pos :: starts_from (n - 1) (S pos) s'
          | None => starts_from 0 (S pos) s'
          end
      end
  end.

Definition starts (content : str) : list nat := starts_from 0 0 content.

(** [starts.append(len(content))], then
    [content[starts[i]:starts[i+1]]] for [i] in
    [range(len(starts) - 1)]. *)
Definition puzzle_blocks (content : str) : list (list N) :=
  let bounds := starts content ++ [length content] in
  imap (fun i a => slice content a (default 0 (bounds !! (i + 1))))
    (starts content).

(** [re.search] for a literal pattern: [(m.start(), m.end())]. *)
Definition search (block pat : str) : option (nat * nat) :=
  (fun p => (p, p + length pat)) <$> find_sub block pat.

(** [re.sub(r'^[0-9️⃣🔟]+', '', raw_title)] *)
Fixpoint drop_ornaments (s : str) : str :=
  match s with
  | c :: s' => if ornament c then drop_ornaments s' else s
  | [] => []
  end.

(** The group of the pattern [Question:], white space, then the rest of
    the line in a group: after the label and any white space, line feeds
    included, what is left of that line. *)
Definition question_group (block : str) : option (list N) :=
  (fun p => let after := lstrip (drop (p + 9) block) in
            take (fst (skip_line after)) after)
  <$> find_sub block (lit "Question:").

Definition quoted_field (label : string) (value : str) : str :=
  lit "            " ++ lit label ++ lit ": " ++ [DQUOTE] ++ value
  ++ [DQUOTE] ++ lit "," ++ [LF].

(** The body of the [try]: the text added to [swift_code] for block
    [i].  No statement of it can raise. *)
Definition puzzle_entry (i : nat) (block : str) : str :=
  let lines := split LF block in
  let raw_title := strip (default [] (head lines)) in
  let clean_title := strip (drop_ornaments raw_title) in
  let title := lit "Level " ++ str_of_nat (i + 1) ++ lit ": " ++ clean_title in
  let description :=
    match question_group block with
    | Some g => strip g
    | None => lit "Fix the code."
    end in
  let bc_start := search block ([LF] ++ lit "Broken Code" ++ [LF]) in
  let error_start := search block ([LF] ++ lit "Error" ++ [LF]) in
  let cc_start := search block ([LF] ++ lit "Correct Code" ++ [LF]) in
  let cc_or_end := match cc_start with
                   | Some m => fst m
                   | None => length block
                   end in
  let initial_code :=
    match bc_start with
    | Some m =>
        strip (slice block (snd m)
                 (match error_start with
                  | Some e => fst e
                  | None => cc_or_end
                  end))
    | None => []
    end in
  let error_msg :=
    match error_start with
    | Some e => strip (slice block (snd e) cc_or_end)
    | None => lit "Logic Error / Unexpected Behavior"
    end in
  let riddle_start := search block ([LF] ++ lit "Riddle" ++ [LF]) in
  let correct_code :=
    match cc_start with
    | Some m =>
        strip (slice block (snd m)
                 (match riddle_start with
                  | Some r => fst r
                  | None => length block
                  end))
    | None => []
    end in
  let riddle :=
    match riddle_start with
    | Some r => strip (drop (snd r) block)
    | None => []
    end in
  let story := lit "System Error: " ++ esc error_msg in
  lit "        Puzzle(" ++ [LF]
  ++ quoted_field "title" (esc title)
  ++ quoted_field "description" (esc description)
  ++ quoted_field "initialCode" (esc initial_code)
  ++ quoted_field "correctCode" (esc correct_code)
  ++ lit "            difficulty: 1," ++ [LF]
  ++ lit "            hints: [" ++ [DQUOTE] ++ esc riddle ++ [DQUOTE]
  ++ lit "]," ++ [LF]
  ++ quoted_field "storyFragment" story
  ++ lit "            locked: " ++ (if i =? 0 then lit "false" else lit "true")
  ++ [LF]
  ++ lit "        )," ++ [LF].

(** [for i, block in enumerate(puzzle_blocks): try: ... except Exception
    as e: print(f"Error parsing block {i}: {e}")].  The statements of the
    [try] are [split], [strip], [re.sub], [re.search], slices, [esc] and
    the additions to [swift_code], on texts only, and [lines[0]] after a
    [split], which always has a first piece: none of them can raise, so
    the [except] branch is never taken and every block adds its
    entry. *)
Fixpoint try_blocks (i : nat) (blocks : list str) (swift_code : str)
  : list N :=
  match blocks with
  | [] => swift_code
  | block :: rest =>
      try_blocks (S i) rest (swift_code ++ puzzle_entry i block)
  end.

(** [parse_puzzles(filename)] on the text of the file.  After the file
    is written the function reads [matches], a name it never binds, so a
    run that got that far ends in [NameError]. *)
Definition parse_puzzles (content : str) : list event * outcome :=
  match starts content with
  | [] => ([Print (lit "No start patterns found!")], Finished)
  | _ =>
      let blocks := puzzle_blocks content in
      let found := [Print (lit "Found " ++ str_of_nat (length blocks)
                           ++ lit " puzzle blocks.")] in
      let code :=
        try_blocks 0 blocks (lit "static let allPuzzles: [Puzzle] = [" ++ [LF]) in
      (found ++ [ WriteFile "puzzles_swift.txt" (code ++ lit "    ]");
                  Print (lit "Generated code written to puzzles_swift.txt") ],
       Raised "NameError")
  end.

End GenPuzzles.

(** ** [generate_questions_l2.py]: the loop over the units *)

Module GenL2.

(** The five indices, each [-1] before the scan. *)
Record indices := Indices {
  broken_start : Z;
  error_start : Z;
  correct_start : Z;
  riddle_start : Z;
  answer_start : Z
}.

(** One iteration of [for idx, line in enumerate(lines)]: the [if] /
    [elif] chain; a later line with the same label overwrites the
    index. *)
Definition section_step (ix : indices) (idx : nat) (line : str) : indices :=
  let i := Z.of_nat idx in
  if startswith line (lit "Broken Code") then
    Indices i (error_start ix) (correct_start ix) (riddle_start ix)
      (answer_start ix)
  else if startswith line (lit "Error:") || startswith line (lit "Issue:") then
    Indices (broken_start ix) i (correct_start ix) (riddle_start ix)
      (answer_start ix)
  else if startswith line (lit "Correct Code") then
    Indices (broken_start ix) (error_start ix) i (riddle_start ix)
      (answer_start ix)
  else if startswith line (lit "Riddle:") then
    Indices (broken_start ix) (error_start ix) (correct_start ix) i
      (answer_start ix)
  else if startswith line (lit "Answer:") then
    Indices (broken_start ix) (error_start ix) (correct_start ix)
      (riddle_start ix) i
  else ix.

Fixpoint find_sections_from (idx : nat) (lines : list str) (ix : indices)
  : indices :=
  match lines with
  | [] => ix
  | line :: rest => find_sections_from (S idx) rest (section_step ix idx line)
  end.

Definition find_sections (lines : list str) : indices :=
  find_sections_from 0 lines (Indices (-1) (-1) (-1) (-1) (-1)).

(** [lines[k].split(':', 1)[1].strip()]: [IndexError] when the line has
    no colon (or when there is no line [k]). *)
Definition after_colon (lines : list str) (k : Z) : result (list N) :=
  match index lines k with
  | None => Err (lit "list index out of range")
  | Some line =>
      match find_sub line [COLON] with
      | Some p => Ok (strip (drop (p + 1) line))
      | None => Err (lit "list index out of range")
      end
  end.

(** The five texts of a unit. *)
Record sections := Sections {
  broken : list N;
  error : list N;
  correct : list N;
  riddle : list N;
  answer : list N
}.

Definition extract (unit : str) : result sections :=
  let lines := split LF (strip unit) in
  let ix := find_sections lines in
  let broken :=
    strip (join [LF] (zslice lines (broken_start ix + 1) (error_start ix))) in
  match after_colon lines (error_start ix) with
  | Err e => Err e
  | Ok error =>
      let correct :=
        strip (join [LF]
                 (zslice lines (correct_start ix + 1) (riddle_start ix))) in
      match after_colon lines (riddle_start ix) with
      | Err e => Err e
      | Ok riddle =>
          match after_colon lines (answer_start ix) with
          | Err e => Err e
          | Ok answer => Ok (Sections broken error correct riddle answer)
          end
      end
  end.

Definition quoted_line (label : string) (value : str) : str :=
  lit "            " ++ lit label ++ lit ": " ++ [DQUOTE] ++ value
  ++ [DQUOTE] ++ lit ",".

(** The [print] calls of one iteration. *)
Definition unit_output (i : nat) (s : sections) : list event :=
  [ Print (lit "        questions.append(Question(");
    Print (quoted_line "title"
             (lit "Level 2 " ++ [EN_DASH] ++ lit " Question " ++ str_of_nat i));
    Print (quoted_line "description" (escape_swift_string (error s)));
    Print (quoted_line "initialCode" (escape_swift_string (broken s)));
    Print (quoted_line "correctCode" (escape_swift_string (correct s)));
    Print (lit "            difficulty: 2,");
    Print (quoted_line "riddle" (escape_swift_string (riddle s)));
    Print (quoted_line "conceptExplanation" (escape_swift_string (answer s)));
    Print (lit "            language: .java");
    Print (lit "        ))") ].

(** [for i, unit in enumerate(units, 1)]: nothing catches an exception,
    so the first unit that raises ends the run; the [print] calls after
    the loop are reached only when no unit raised. *)
Fixpoint unit_loop (i : nat) (units : list str) (trace : list event)
  : list event * outcome :=
  match units with
  | [] =>
      (trace ++ [ Print [];
                  Print (lit "        return questions");
                  Print (lit "    }") ],
       Finished)
  | unit :: rest =>
      match extract unit with
      | Ok s => unit_loop (S i) rest (trace ++ unit_output i s)
      | Err _ => (trace, Raised "IndexError")
      end
  end.

(** The script from the [units] on (the pieces [re.split] cut out of
    the text). *)
Definition run (units : list str) : list event * outcome :=
  unit_loop 1 units
    [ Print (lit "    private static func generateJavaLevel2Questions() -> [Question] {");
      Print (lit "        var questions: [Question] = []");
      Print [] ].

End GenL2.

(** ** [generate_questions_c_l3.py]: the loop over the blocks *)

Module GenCL3.

Inductive section := SQuestion | SBroken | SCorrect | SRiddle | SAnswer.

(** The five accumulators and [current_section]. *)
Record acc := Acc {
  question_text : list N;
  broken_code : list N;
  correct_code : list N;
  riddle : list N;
  answer : list N;
  current_section : option section
}.

(** The [if] / [elif] chain on [line_strip]: equality with a label. *)
Definition label_of (line_strip : str) : option section :=
  if bool_decide (line_strip = lit "Question") then Some SQuestion
  else if bool_decide (line_strip = lit "Broken Code") then Some SBroken
  else if bool_decide (line_strip = lit "Correct Code") then Some SCorrect
  else if bool_decide (line_strip = lit "Riddle") then Some SRiddle
  else if bool_decide (line_strip = lit "Answer") then Some SAnswer
  else None.

(** One iteration of [for line in block.split('\n')]. *)
Definition step (a : acc) (line : str) : acc :=
  match strip line with
  | [] => a
  | line_strip =>
      match label_of line_strip with
      | Some s =>
          Acc (question_text a) (broken_code a) (correct_code a) (riddle a)
            (answer a) (Some s)
      | None =>
          match current_section a with
          | Some SQuestion =>
              Acc (question_text a ++ line ++ [LF]) (broken_code a)
                (correct_code a) (riddle a) (answer a) (current_section a)
          | Some SBroken =>
              Acc (question_text a) (broken_code a ++ line ++ [LF])
                (correct_code a) (riddle a) (answer a) (current_section a)
          | Some SCorrect =>
              Acc (question_text a) (broken_code a)
                (correct_code a ++ line ++ [LF]) (riddle a) (answer a)
                (current_section a)
          | Some SRiddle =>
              Acc (question_text a) (broken_code a) (correct_code a)
                (riddle a ++ line ++ [LF]) (answer a) (current_section a)
          | Some SAnswer =>
              Acc (question_text a) (broken_code a) (correct_code a)
                (riddle a) (answer a ++ line ++ [LF]) (current_section a)
          | None => a
          end
      end
  end.

Definition scan (block : str) : acc :=
  fold_left step (split LF block) (Acc [] [] [] [] [] None).

(** The accumulator of a section. *)
Definition accumulated (a : acc) (s : section) : str :=
  match s with
  | SQuestion => question_text a
  | SBroken => broken_code a
  | SCorrect => correct_code a
  | SRiddle => riddle a
  | SAnswer => answer a
  end.

(** The text of a section as the script emits it:
    [question_text.strip()], [broken_code.strip()], ... *)
Definition section_text (a : acc) (s : section) : str :=
  strip (accumulated a s).

(** [title_match = re.search(...)] for an em dash, a space and a group
    holding the rest of the line, and
    [title_match.group(1) if title_match else f"Level 3 – Question {i}"]:
    what follows the first em dash and space of the block, to the end of
    that line. *)
Definition block_title (i : nat) (block : str) : str :=
  match find_sub block [EM_DASH; SPACE] with
  | Some p =>
      let after := drop (p + 2) block in
      take (fst (skip_line after)) after
  | None => lit "Level 3 " ++ [EN_DASH] ++ lit " Question " ++ str_of_nat i
  end.

End GenCL3.

(** ** The specification's wording, for comparison with the code *)

(** Following the specification's words, not the code: a field's text is
    the lines between its label line and the next one, without the blank
    lines at both ends, every other line as it is (its line terminator
    apart), joined line by line. *)
Fixpoint drop_blank (lines : list str) : list str :=
  match lines with
  | l :: rest => if is_blank l then drop_blank rest else lines
  | [] => []
  end.

Definition trim_blank_lines (lines : list str) : list str :=
  reverse (drop_blank (reverse (drop_blank lines))).

(** A line without its line feed. *)
Fixpoint chomp (line : str) : str :=
  match line with
  | [] => []
  | [c] => if (c =? LF)%N then [] else [c]
  | c :: rest => c :: chomp rest
  end.

Definition spec_field_text (content : list str) : str :=
  join [LF] (map chomp (trim_blank_lines content)).

(** Following the specification's words, not the code: the label rule
    with a slack of [slack] characters and the exact match it asks for
    the long-form heading. *)
Definition spec_is_label (slack : nat) (line_stripped h : str) : bool :=
  if bool_decide (h = lit "Hidden Test Cases (Logic-validated)")
  then bool_decide (line_stripped = h)
  else startswith line_stripped h
       && (length line_stripped <=? length h + slack).

(** Following the specification's words, not the code: a list of printed
    texts shows an excerpt of the document start when one of them
    contains a non-empty prefix of the document, that is, at least its
    first character. *)
Definition shows_excerpt (document : str) (trace : list event) : bool :=
  match document with
  | [] => false
  | c :: _ =>
      existsb (fun ev => match ev with
                         | Print s => existsb (N.eqb c) s
                         | WriteFile _ _ => false
                         end) trace
  end.

(** Following the specification's words, not the code: the title is what
    remains of the boundary line after the ordinal token, a separating
    dash or em dash apart. *)
Definition spec_title (header_line : str) : str :=
  let rest := lstrip (drop (length (default [] (head (split SPACE header_line))))
                        header_line) in
  match rest with
  | c :: rest' =>
      if (c =? EM_DASH)%N || (c =? EN_DASH)%N || (c =? 45)%N
      then lstrip rest' else rest
  | [] => []
  end.

(** ** Sample inputs *)

(** A body as [readlines] gives it: an indented first line of code. *)
Definition sample_indented_body : list (list N) :=
  [ lit "Broken Code" ++ [LF];
    lit "    x = 1" ++ [LF];
    lit "y" ++ [LF] ].

Definition sample_body : list (list N) :=
  [ lit "Broken Code" ++ [LF];
    lit "    print(x" ++ [LF];
    [LF];
    lit "  y = 2  " ++ [LF];
    lit "Error" ++ [LF];
    lit "Correct Code:" ++ [LF];
    lit "print(x)" ++ [LF] ].

(** A document of one record in which the field [Error] is opened
    twice, the first time with nothing under it. *)
Definition sample_reopened_document : list (list N) :=
  [ lit "Q1 " ++ [EM_DASH] ++ lit " T" ++ [LF];
    lit "Error" ++ [LF];
    lit "Riddle" ++ [LF];
    lit "Error" ++ [LF];
    lit "x" ++ [LF] ].

Definition long_heading : list N := lit "Hidden Test Cases (Logic-validated)".

Definition long_error_line : list N :=
  lit "Error: the value of x is never set anywhere in this function".

(** A unit of [generate_questions_l2.py] without an [Error:] or
    [Issue:] line, whose last line has no colon. *)
Definition l2_unit_without_error : list N :=
  lit "Title" ++ [LF] ++ lit "Broken Code" ++ [LF] ++ lit "x" ++ [LF]
  ++ lit "Correct Code" ++ [LF] ++ lit "y" ++ [LF]
  ++ lit "Riddle: r" ++ [LF] ++ lit "Answer: a" ++ [LF] ++ lit "see above".

Definition l2_unit_complete : list N :=
  lit "Title" ++ [LF] ++ lit "Broken Code" ++ [LF] ++ lit "x" ++ [LF]
  ++ lit "Error: e" ++ [LF]
  ++ lit "Correct Code" ++ [LF] ++ lit "y" ++ [LF]
  ++ lit "Riddle: r" ++ [LF] ++ lit "Answer: a".

(** ASCII tables, for evaluating the functions that take Python's
    character tables as arguments. *)
Definition ascii_isdigit (c : char) : bool := ((48 <=? c) && (c <=? 57))%N.

Definition ascii_isalpha (c : char) : bool :=
  ((65 <=? c) && (c <=? 90) || (97 <=? c) && (c <=? 122))%N.

(** A boundary line whose title starts with a digit. *)
Definition header_2d_arrays : list N :=
  lit "Q3 " ++ [EM_DASH] ++ lit " 2D Arrays" ++ [LF].

(** A block of [generate_questions_c_l3.py] whose first line has no em
    dash while a later line has one. *)
Definition block_dash_in_body : list N :=
  lit " Pointer Basics" ++ [LF] ++ lit "Question" ++ [LF]
  ++ lit "Why " ++ [EM_DASH] ++ lit " because" ++ [LF].

(** A document without any boundary line, in the two forms the scripts
    read it. *)
Definition no_boundary_lines : list (list N) := [lit "~~~" ++ [LF]].
Definition no_boundary_text : list N := lit "~~~" ++ [LF].

(** The lines of a block of [generate_questions_c_l3.py] with a blank
    line inside the code. *)
Definition block_with_blank_line : list N :=
  lit "Broken Code" ++ [LF] ++ lit "  int x;" ++ [LF] ++ [LF]
  ++ lit "  y;" ++ [LF] ++ lit "Riddle" ++ [LF] ++ lit "r".

(** A document with a preamble line and two records, as lines and as
    one text. *)
Definition sample_document_lines : list (list N) :=
  [ lit "intro" ++ [LF];
    lit "Q1 " ++ [EM_DASH] ++ lit " Print Typo" ++ [LF];
    lit "Broken Code" ++ [LF];
    lit "  print(x" ++ [LF];
    lit "Error" ++ [LF];
    lit "Q2" ++ [LF];
    lit "Riddle" ++ [LF];
    lit "a \ b" ++ [LF] ].

Definition sample_document : list N := concat sample_document_lines.

(** ** Auxiliary definitions for the proofs *)

(** Each element of a list with the one after it, if there is one: what
    a loop sees that reads [l[i]] and [l[i+1] if i+1 < len(l)]. *)
Fixpoint with_next {A} (l : list A) : list (A * option A) :=
  match l with
  | [] => []
  | x :: rest => (x, head rest) :: with_next rest
  end.

(** ** What a reader of a literal sees *)

(** The inside of a string literal read left to right, as the compiler
    of the generated code reads it: a backslash takes the next character
    with it, which has to be one the generators emit behind a backslash;
    outside such a pair neither a double quote (it would close the
    literal) nor a line feed (it would break the line) may stand, and the
    text may not end on a backslash (it would take the closing quote). *)
Fixpoint well_escaped (s : str) : bool :=
  match s with
  | [] => true
  | c :: s' =>
      if (c =? BACKSLASH)%N then
        match s' with
        | d :: s'' =>
            ((d =? BACKSLASH) || (d =? DQUOTE) || (d =? 110))%N
            && well_escaped s''
        | [] => false
        end
      else negb (c =? DQUOTE)%N && negb (c =? LF)%N && well_escaped s'
  end.

(** [s.count('\n')] *)
Definition count_lf (s : str) : nat :=
  length (List.filter (N.eqb LF) s).

(** ** [generate_questions_c_l2.py] and [generate_questions_l3.py]: the
       sections of a unit *)

(** [l[a:]] with a bound that may be negative. *)
Definition zslice_from {A} (l : list A) (a : Z) : list A :=
  drop (Z.to_nat (Z.max 0 (norm_index (length l) a))) l.

Module GenCL2.

(** The five indices, each [-1] before the scan. *)
Record indices := Indices {
  question_start : Z;
  broken_start : Z;
  correct_start : Z;
  riddle_start : Z;
  answer_start : Z
}.

(** One iteration of [for idx, line in enumerate(lines)]: the [if] /
    [elif] chain. *)
Definition section_step (ix : indices) (idx : nat) (line : str) : indices :=
  let i := Z.of_nat idx in
  if startswith line (lit "Question") then
    Indices i (broken_start ix) (correct_start ix) (riddle_start ix)
      (answer_start ix)
  else if startswith line (lit "Broken Code") then
    Indices (question_start ix) i (correct_start ix) (riddle_start ix)
      (answer_start ix)
  else if startswith line (lit "Correct Code") then
    Indices (question_start ix) (broken_start ix) i (riddle_start ix)
      (answer_start ix)
  else if startswith line (lit "Riddle") then
    Indices (question_start ix) (broken_start ix) (correct_start ix) i
      (answer_start ix)
  else if startswith line (lit "Answer") then
    Indices (question_start ix) (broken_start ix) (correct_start ix)
      (riddle_start ix) i
  else ix.

Fixpoint find_sections_from (idx : nat) (lines : list str) (ix : indices)
  : indices :=
  match lines with
  | [] => ix
  | line :: rest => find_sections_from (S idx) rest (section_step ix idx line)
  end.

Definition find_sections (lines : list str) : indices :=
  find_sections_from 0 lines (Indices (-1) (-1) (-1) (-1) (-1)).

(** The five texts of a unit: slices of the lines between the indices,
    joined and stripped; a slice never raises. *)
Record sections := Sections {
  question_text : list N;
  broken : list N;
  correct : list N;
  riddle : list N;
  answer : list N
}.

Definition sections_of (lines : list str) : sections :=
  let ix := find_sections lines in
  Sections
    (strip (join [LF] (zslice lines (question_start ix + 1) (broken_start ix))))
    (strip (join [LF] (zslice lines (broken_start ix + 1) (correct_start ix))))
    (strip (join [LF] (zslice lines (correct_start ix + 1) (riddle_start ix))))
    (strip (join [LF] (zslice lines (riddle_start ix + 1) (answer_start ix))))
    (strip (join [LF] (zslice_from lines (answer_start ix + 1)))).

(** [lines = unit.strip().split('\n')] and the five texts. *)
Definition extract (unit : str) : sections :=
  sections_of (split LF (strip unit)).

End GenCL2.

(** ** Auxiliary definitions for the proofs of the index scans *)

(** [for idx, line in enumerate(lines, idx)] over a state. *)
Fixpoint enumerate_fold {St} (step : St -> nat -> list N -> St) (idx : nat)
    (lines : list (list N)) (st : St) : St :=
  match lines with
  | [] => st
  | line :: rest => enumerate_fold step (S idx) rest (step st idx line)
  end.

(** The tests of the two [elif] chains. *)
Definition starts_error (line : str) : bool :=
  startswith line (lit "Error:") || startswith line (lit "Issue:").

(** A unit of the C level 2 corpus, in the canonical order. *)
Definition c_l2_unit : list N :=
  lit "Title" ++ [LF] ++ lit "Question" ++ [LF] ++ lit "Why?" ++ [LF]
  ++ lit "Broken Code" ++ [LF] ++ lit "  int x" ++ [LF]
  ++ lit "Correct Code" ++ [LF] ++ lit "  int x;" ++ [LF]
  ++ lit "Riddle" ++ [LF] ++ lit "r" ++ [LF]
  ++ lit "Answer" ++ [LF] ++ lit "a1" ++ [LF] ++ lit "a2".

(** The same unit without its [Riddle] label. *)
Definition c_l2_unit_without_riddle : list N :=
  lit "Title" ++ [LF] ++ lit "Question" ++ [LF] ++ lit "Why?" ++ [LF]
  ++ lit "Broken Code" ++ [LF] ++ lit "  int x" ++ [LF]
  ++ lit "Correct Code" ++ [LF] ++ lit "  int x;" ++ [LF]
  ++ lit "Answer" ++ [LF] ++ lit "a1".

(** Two states of the line loop of the parsers that agree on everything
    but the text of one role [k]. *)
Definition agree_off (k : string) (st st' : scan_state) : Prop :=
  current_header st = current_header st'
  /\ (forall r, r <> k -> fields st !! r = fields st' !! r)
  /\ ((forall e, current_header st = Some e -> snd e <> k) ->
      current_content st = current_content st').

(** A line that no test of the [elif] chain of
    [generate_questions_l2.py] accepts. *)
Definition l2_plain (line : str) : bool :=
  negb (startswith line (lit "Broken Code") || starts_error line
        || startswith line (lit "Correct Code")
        || startswith line (lit "Riddle:")
        || startswith line (lit "Answer:")).

(** A line that no test of the [elif] chain of
    [generate_questions_c_l2.py] and [generate_questions_l3.py]
    accepts. *)
Definition cl2_plain (line : str) : bool :=
  negb (startswith line (lit "Question")
        || startswith line (lit "Broken Code")
        || startswith line (lit "Correct Code")
        || startswith line (lit "Riddle")
        || startswith line (lit "Answer")).

(** A unit of [generate_questions_l2.py] without an [Error:] or
    [Issue:] line, whose last line has a colon. *)
Definition l2_unit_error_from_answer : list N :=
  lit "Title" ++ [LF] ++ lit "Broken Code" ++ [LF] ++ lit "x" ++ [LF]
  ++ lit "Correct Code" ++ [LF] ++ lit "y" ++ [LF]
  ++ lit "Riddle: r" ++ [LF] ++ lit "Answer: a".

(** What [generate_questions_l2.py] prints before and after the loop. *)
Definition l2_header : list event :=
  [ Print (lit "    private static func generateJavaLevel2Questions() -> [Question] {");
    Print (lit "        var questions: [Question] = []");
    Print [] ].

Definition l2_footer : list event :=
  [ Print [];
    Print (lit "        return questions");
    Print (lit "    }") ].

(** ** [generate_questions.py]: the loop over the table *)

Module GenQ.

(** An entry of [questions_raw]: a dict from keys to texts. *)
Definition entry := gmap string (list N).

(** [q[key]]: [KeyError] when the entry has no such key. *)
Definition get (q : entry) (key : string) : result (list N) :=
  match q !! key with
  | Some v => Ok v
  | None => Err ([39%N] ++ lit key ++ [39%N])
  end.

(** A line holding [escape_swift_string(q[key])]. *)
Definition field_line (label key : string) (q : entry) : result str :=
  match get q key with
  | Ok v => Ok (GenL2.quoted_line label (escape_swift_string v))
  | Err e => Err e
  end.

(** The arguments of the ten [print] calls of one iteration, in order;
    the title holds the three characters the source file has where the
    other generators have an en dash. *)
Definition entry_prints (i : nat) (q : entry) : list (result str) :=
  [ Ok (lit "        questions.append(Question(");
    Ok (GenL2.quoted_line "title"
          (lit "Level 1 " ++ [226%N; 8364%N; 8220%N] ++ lit " Question "
           ++ str_of_nat i));
    field_line "description" "error" q;
    field_line "initialCode" "broken" q;
    field_line "correctCode" "correct" q;
    Ok (lit "            difficulty: 1,");
    field_line "riddle" "riddle" q;
    field_line "conceptExplanation" "answer" q;
    Ok (lit "            language: .java");
    Ok (lit "        ))") ].

(** The calls are made in order; the first argument that raises ends
    them, with what was printed before it. *)
Fixpoint print_all (ps : list (result str)) : list event * option (list N) :=
  match ps with
  | [] => ([], None)
  | Ok s :: rest =>
      let '(t, e) := print_all rest in (Print s :: t, e)
  | Err e :: _ => ([], Some e)
  end.

Definition header : list event :=
  [ Print (lit "    private static func generateJavaLevel1Questions() -> [Question] {");
    Print (lit "        var questions: [Question] = []");
    Print [] ].

Definition footer : list event :=
  [ Print [];
    Print (lit "        return questions");
    Print (lit "    }") ].

(** [for i, q in enumerate(questions_raw, 1)]: nothing catches an
    exception. *)
Fixpoint entry_loop (i : nat) (table : list entry) (trace : list event)
  : list event * outcome :=
  match table with
  | [] => (trace ++ footer, Finished)
  | q :: rest =>
      match print_all (entry_prints i q) with
      | (t, None) => entry_loop (S i) rest (trace ++ t)
      | (t, Some _) => (trace ++ t, Raised "KeyError")
      end
  end.

(** The script, on a table. *)
Definition run (table : list entry) : list event * outcome :=
  entry_loop 1 table header.

End GenQ.

(** The keys [generate_questions.py] reads. *)
Definition genq_keys : list string :=
  ["error"; "broken"; "correct"; "riddle"; "answer"]%string.

Definition genq_complete (q : GenQ.entry) : bool :=
  forallb (fun k => bool_decide (is_Some (q !! k))) genq_keys.

(** The ten lines of an entry that has the five keys. *)
Definition genq_entry_output (i : nat) (q : GenQ.entry) : list event :=
  [ Print (lit "        questions.append(Question(");
    Print (GenL2.quoted_line "title"
             (lit "Level 1 " ++ [226%N; 8364%N; 8220%N] ++ lit " Question "
              ++ str_of_nat i));
    Print (GenL2.quoted_line "description"
             (escape_swift_string (default [] (q !! "error"%string))));
    Print (GenL2.quoted_line "initialCode"
             (escape_swift_string (default [] (q !! "broken"%string))));
    Print (GenL2.quoted_line "correctCode"
             (escape_swift_string (default [] (q !! "correct"%string))));
    Print (lit "            difficulty: 1,");
    Print (GenL2.quoted_line "riddle"
             (escape_swift_string (default [] (q !! "riddle"%string))));
    Print (GenL2.quoted_line "conceptExplanation"
             (escape_swift_string (default [] (q !! "answer"%string))));
    Print (lit "            language: .java");
    Print (lit "        ))") ].

(** The first entry of the table of [generate_questions.py], and the
    same entry without its [riddle]. *)
Definition genq_entry_1 : GenQ.entry :=
  <["id"%string := lit "Q1"]>
    (<["title"%string := lit "Missing Semicolon"]>
       (<["broken"%string := lit "int a = 10" ++ [LF] ++ lit "System.out.println(a);"]>
          (<["error"%string := lit "Missing semicolon after variable declaration."]>
             (<["correct"%string := lit "int a = 10;" ++ [LF] ++ lit "System.out.println(a);"]>
                (<["riddle"%string := lit "A sentence must end before another begins."]>
                   (<["answer"%string := lit "Add ;"]> ∅)))))).

Definition genq_entry_without_riddle : GenQ.entry :=
  delete "riddle"%string genq_entry_1.

(** *** Properties of the primitives *)

Lemma replace_from_single (c : char) (new s : str) :
  replace_from [c] new 0 s =
  flat_map (fun x => if (c =? x)%N then new else [x]) s.
Proof.
  induction s as [|x s IH]; [reflexivity|].
  simpl. destruct (c =? x)%N; simpl; rewrite IH; reflexivity.
Qed.

Lemma replace_single (c : char) (new s : str) :
  replace s [c] new =
  flat_map (fun x => if (c =? x)%N then new else [x]) s.
Proof. apply replace_from_single. Qed.

Lemma flat_map_flat_map {A B C} (f : A -> list B) (g : B -> list C) l :
  flat_map g (flat_map f l) = flat_map (fun x => flat_map g (f x)) l.
Proof.
  induction l as [|a l IH]; [reflexivity|].
  cbn [flat_map]. rewrite flat_map_app, IH. reflexivity.
Qed.

Lemma escape_swift_string_flat_map s :
  escape_swift_string s = flat_map escape_char s.
Proof.
  unfold escape_swift_string.
  rewrite !replace_single, !flat_map_flat_map.
  apply flat_map_ext. intros c. unfold escape_char, BACKSLASH, DQUOTE, LF.
  destruct (N.eqb_spec 92 c) as [<-|Hb]; [reflexivity|].
  rewrite (proj2 (N.eqb_neq c 92)) by congruence.
  cbn [flat_map app].
  destruct (N.eqb_spec 34 c) as [<-|Hq]; [reflexivity|].
  rewrite (proj2 (N.eqb_neq c 34)) by congruence.
  cbn [flat_map app].
  destruct (N.eqb_spec 10 c) as [<-|Hn]; [reflexivity|].
  rewrite (proj2 (N.eqb_neq c 10)) by congruence.
  reflexivity.
Qed.

Lemma esc_eq s : esc s = escape_swift_string s.
Proof. reflexivity. Qed.

Lemma unescape_escape_char c t :
  unescape (escape_char c ++ t) = c :: unescape t.
Proof.
  unfold escape_char, BACKSLASH, DQUOTE, LF.
  destruct (N.eqb_spec c 92) as [->|Hb]; [reflexivity|].
  destruct (N.eqb_spec c 34) as [->|Hq]; [reflexivity|].
  destruct (N.eqb_spec c 10) as [->|Hn]; [reflexivity|].
  cbn [app unescape]. unfold BACKSLASH.
  rewrite (proj2 (N.eqb_neq c 92)) by congruence. reflexivity.
Qed.

Lemma unescape_flat_map s : unescape (flat_map escape_char s) = s.
Proof.
  induction s as [|c s IH]; [reflexivity|].
  cbn [flat_map]. rewrite unescape_escape_char, IH. reflexivity.
Qed.

(** ** Round trip and pass-through *)

(** C2: the escaping replaces backslashes first, then double quotes, then
    line feeds, and it round-trips: for every field text, reading the
    escaped text back with [unescape] gives the text again, so escaping
    is injective; the specification's example text round-trips. *)
Theorem C2_escape_round_trip :
  (forall s,
      escape_swift_string s =
      replace (replace (replace s [BACKSLASH] [BACKSLASH; BACKSLASH])
                 [DQUOTE] [BACKSLASH; DQUOTE]) [LF] [BACKSLASH; 110%N])
  /\ (forall s, unescape (escape_swift_string s) = s)
  /\ (forall s, unescape (esc s) = s)
  /\ (forall s t, escape_swift_string s = escape_swift_string t -> s = t)
  /\ (let s := lit "say " ++ [DQUOTE] ++ lit "hi" ++ [DQUOTE; LF]
               ++ lit "line2" ++ [BACKSLASH] ++ lit "end" in
      escape_swift_string s =
        lit "say " ++ [BACKSLASH; DQUOTE] ++ lit "hi"
        ++ [BACKSLASH; DQUOTE; BACKSLASH] ++ lit "nline2"
        ++ [BACKSLASH; BACKSLASH] ++ lit "end"
      /\ unescape (escape_swift_string s) = s).
Proof.
  assert (RT : forall s, unescape (escape_swift_string s) = s).
  { intros s. rewrite escape_swift_string_flat_map. apply unescape_flat_map. }
  split; [reflexivity|].
  split; [exact RT|].
  split; [intros s; rewrite esc_eq; apply RT|].
  split.
  - intros s t E. rewrite <- (RT s), <- (RT t), E. reflexivity.
  - split; [vm_compute; reflexivity | apply RT].
Qed.

(** The order matters: with the line feeds replaced first, the backslash
    that replacement inserts is doubled by the next one, and the text
    read back is not the text escaped. *)
Example escape_order_matters :
  unescape (replace (replace [LF] [LF] [BACKSLASH; 110%N])
              [BACKSLASH] [BACKSLASH; BACKSLASH])
  = [BACKSLASH; 110%N].
Proof. reflexivity. Qed.

Lemma escape_char_other c :
  c <> BACKSLASH -> c <> DQUOTE -> c <> LF -> escape_char c = [c].
Proof.
  intros Hb Hq Hn. unfold escape_char.
  rewrite (proj2 (N.eqb_neq _ _) Hb), (proj2 (N.eqb_neq _ _) Hq),
    (proj2 (N.eqb_neq _ _) Hn).
  reflexivity.
Qed.

Lemma escape_swift_string_app s t :
  escape_swift_string (s ++ t) = escape_swift_string s ++ escape_swift_string t.
Proof. rewrite !escape_swift_string_flat_map. apply flat_map_app. Qed.

(** C10: a character other than backslash, double quote and line feed is
    copied as it is, at its place between the escaped text before it and
    the escaped text after it, by [escape_swift_string] and by [esc]; a
    text without those three characters is returned unchanged. *)
Theorem C10_other_characters_unchanged (s1 s2 : str) (c : char) :
  c <> BACKSLASH -> c <> DQUOTE -> c <> LF ->
  escape_swift_string (s1 ++ c :: s2)
    = escape_swift_string s1 ++ c :: escape_swift_string s2
  /\ esc (s1 ++ c :: s2) = esc s1 ++ c :: esc s2
  /\ (Forall (fun x => x <> BACKSLASH /\ x <> DQUOTE /\ x <> LF) s1 ->
      escape_swift_string s1 = s1 /\ esc s1 = s1).
Proof.
  intros Hb Hq Hn.
  assert (E : escape_swift_string (s1 ++ c :: s2)
              = escape_swift_string s1 ++ c :: escape_swift_string s2).
  { rewrite escape_swift_string_app.
    rewrite (escape_swift_string_flat_map (c :: s2)). cbn [flat_map].
    rewrite escape_char_other by assumption.
    rewrite <- escape_swift_string_flat_map. reflexivity. }
  split; [exact E|]. split; [exact E|].
  intros Hall. clear E. change (esc s1) with (escape_swift_string s1).
  cut (escape_swift_string s1 = s1); [intros ->; split; reflexivity|].
  rewrite escape_swift_string_flat_map.
  induction Hall as [|x l (Hx1 & Hx2 & Hx3) _ IH]; [reflexivity|].
  cbn [flat_map]. rewrite IH, escape_char_other by assumption. reflexivity.
Qed.

(** Carriage return, tab and single quote pass through unescaped. *)
Lemma C10_other_characters_unchanged_witness :
  escape_swift_string (lit "a" ++ 9%N :: lit "b")
  = escape_swift_string (lit "a") ++ 9%N :: escape_swift_string (lit "b")
  /\ escape_swift_string [13%N; 9%N; 39%N] = [13%N; 9%N; 39%N]
  /\ esc [13%N; 9%N; 39%N] = [13%N; 9%N; 39%N].
Proof.
  pose proof (C10_other_characters_unchanged (lit "a") (lit "b") 9%N
                ltac:(discriminate) ltac:(discriminate) ltac:(discriminate))
    as (H1 & _ & _).
  pose proof (C10_other_characters_unchanged [13%N; 9%N; 39%N] [] 9%N
                ltac:(discriminate) ltac:(discriminate) ltac:(discriminate))
    as (_ & _ & H3).
  split; [exact H1|].
  apply H3. repeat constructor; discriminate.
Defined.


(** ** Facts on stripping, joining and slicing *)

Lemma lstrip_nil_iff s : lstrip s = [] <-> Forall (fun c => isspace c = true) s.
Proof.
  induction s as [|c s IH]; cbn [lstrip].
  - split; [constructor|reflexivity].
  - destruct (isspace c) eqn:Ec.
    + rewrite IH. split; [intros H; constructor; assumption|].
      intros H. apply Forall_cons in H. tauto.
    + split; [discriminate|]. intros H. apply Forall_cons in H as [H _].
      congruence.
Qed.

Lemma rstrip_nil_iff s : rstrip s = [] <-> Forall (fun c => isspace c = true) s.
Proof.
  induction s as [|c s IH]; cbn [rstrip].
  - split; [constructor|reflexivity].
  - destruct (rstrip s) as [|x r] eqn:Er.
    + destruct (isspace c) eqn:Ec.
      * split; [|reflexivity]. intros _. constructor; [exact Ec|].
        apply IH. reflexivity.
      * split; [discriminate|]. intros H. apply Forall_cons in H as [H _].
        congruence.
    + split; [discriminate|]. intros H. apply Forall_cons in H as [_ H].
      apply IH in H. discriminate.
Qed.

Lemma rstrip_cons c s :
  rstrip (c :: s)
  = if bool_decide (rstrip s = []) then (if isspace c then [] else [c])
    else c :: rstrip s.
Proof. cbn [rstrip]. destruct (rstrip s); reflexivity. Qed.

Lemma lstrip_app a t : lstrip a <> [] -> lstrip (a ++ t) = lstrip a ++ t.
Proof.
  induction a as [|c a IH]; cbn [lstrip app]; [congruence|].
  destruct (isspace c); [exact IH|reflexivity].
Qed.

Lemma rstrip_app u b : rstrip b <> [] -> rstrip (u ++ b) = u ++ rstrip b.
Proof.
  intros Hb. induction u as [|c u IH]; [reflexivity|].
  cbn [app]. rewrite rstrip_cons, IH.
  rewrite bool_decide_eq_false_2; [reflexivity|].
  destruct u; cbn; [exact Hb|discriminate].
Qed.

Lemma rstrip_idemp s : rstrip (rstrip s) = rstrip s.
Proof.
  induction s as [|c s IH]; [reflexivity|].
  rewrite rstrip_cons. case_bool_decide as Hs.
  - destruct (isspace c) eqn:Ec; [reflexivity|]. cbn. rewrite Ec. reflexivity.
  - rewrite rstrip_cons, IH. rewrite bool_decide_eq_false_2 by exact Hs.
    reflexivity.
Qed.

Lemma lstrip_rstrip s : lstrip (rstrip s) = rstrip (lstrip s).
Proof.
  induction s as [|c s IH]; [reflexivity|].
  rewrite rstrip_cons. cbn [lstrip].
  destruct (isspace c) eqn:Ec.
  - case_bool_decide as Hs.
    + cbn. symmetry. apply rstrip_nil_iff.
      apply rstrip_nil_iff in Hs. apply lstrip_nil_iff in Hs. rewrite Hs.
      constructor.
    + cbn [lstrip]. rewrite Ec. exact IH.
  - rewrite rstrip_cons. case_bool_decide; cbn [lstrip]; rewrite Ec; reflexivity.
Qed.

Lemma strip_nil_iff s : strip s = [] <-> Forall (fun c => isspace c = true) s.
Proof.
  unfold strip. rewrite <- lstrip_rstrip, lstrip_nil_iff.
  split.
  - intros H. apply rstrip_nil_iff. destruct (rstrip s) as [|x r] eqn:E;
      [reflexivity|].
    exfalso. assert (Hr : rstrip (x :: r) = []).
    { apply rstrip_nil_iff. exact H. }
    rewrite <- E, rstrip_idemp, E in Hr. discriminate.
  - intros H. apply rstrip_nil_iff in H. rewrite H. constructor.
Qed.

Lemma rstrip_not_nil s : strip s <> [] -> rstrip s <> [].
Proof.
  intros H E. apply H. apply strip_nil_iff. apply rstrip_nil_iff. exact E.
Qed.

Lemma join_cons sep p rest :
  rest <> [] -> join sep (p :: rest) = p ++ sep ++ join sep rest.
Proof. destruct rest; [congruence|reflexivity]. Qed.

Lemma join_snoc sep parts p :
  parts <> [] -> join sep (parts ++ [p]) = join sep parts ++ sep ++ p.
Proof.
  induction parts as [|q parts IH]; [congruence|]. intros _.
  destruct parts as [|q' parts].
  - reflexivity.
  - change ((q :: q' :: parts) ++ [p]) with (q :: (q' :: parts) ++ [p]).
    rewrite join_cons by (cbn; discriminate).
    rewrite IH by discriminate.
    rewrite (join_cons sep q (q' :: parts)) by discriminate.
    rewrite <- !app_assoc. reflexivity.
Qed.

(** Stripping a joined text whose first and last lines are not blank:
    the first line loses its leading white space, the last its trailing
    white space, and everything between stays. *)
Lemma strip_join_lines (first last : list N) (mid : list (list N)) :
  strip first <> [] -> strip last <> [] ->
  strip (join [LF] (map rstrip (first :: mid ++ [last])))
  = join [LF] (strip first :: map rstrip mid ++ [rstrip last]).
Proof.
  intros Hf Hl.
  assert (Hfa : lstrip (rstrip first) <> []).
  { rewrite lstrip_rstrip. exact Hf. }
  pose proof (rstrip_not_nil last Hl) as Hlb.
  cbn [map]. rewrite map_app. cbn [map].
  rewrite !join_cons by (destruct (map rstrip mid); discriminate).
  unfold strip. rewrite <- (lstrip_rstrip first).
  rewrite lstrip_app by exact Hfa.
  assert (HW : exists T, join [LF] (map rstrip mid ++ [rstrip last])
                         = T ++ rstrip last).
  { destruct (map rstrip mid) as [|m ms] eqn:Em.
    - exists []. reflexivity.
    - eexists. rewrite join_snoc by discriminate. rewrite app_assoc.
      reflexivity. }
  destruct HW as [T ->].
  rewrite !app_assoc.
  rewrite rstrip_app by (rewrite rstrip_idemp; exact Hlb).
  rewrite rstrip_idemp. reflexivity.
Qed.

Lemma startswith_app s p : startswith (p ++ s) p = true.
Proof.
  induction p as [|x p IH]; [reflexivity|].
  cbn. rewrite N.eqb_refl. exact IH.
Qed.

Lemma startswith_spec s p : startswith s p = true <-> exists t, s = p ++ t.
Proof.
  split.
  - revert s. induction p as [|x p IH]; intros s H; [exists s; reflexivity|].
    destruct s as [|y s]; [discriminate|]. cbn in H.
    apply andb_true_iff in H as [Hxy H]. apply N.eqb_eq in Hxy as ->.
    destruct (IH s H) as [t ->]. exists t. reflexivity.
  - intros [t ->]. apply startswith_app.
Qed.

(** Two prefixes of one text: one is a prefix of the other. *)
Lemma startswith_two s p q :
  startswith s p = true -> startswith s q = true ->
  startswith p q = true \/ startswith q p = true.
Proof.
  revert s q. induction p as [|x p IH]; intros s q Hp Hq; [right; reflexivity|].
  destruct q as [|y q]; [left; reflexivity|].
  destruct s as [|z s]; [discriminate|]. cbn in Hp, Hq |- *.
  apply andb_true_iff in Hp as [Hx Hp]. apply andb_true_iff in Hq as [Hy Hq].
  apply N.eqb_eq in Hx, Hy. subst.
  rewrite !N.eqb_refl. cbn. exact (IH s q Hp Hq).
Qed.

Lemma startswith_contains s p : startswith s p = true -> contains s p = true.
Proof. intros H. destruct s; cbn [contains]; rewrite H; reflexivity. Qed.

Lemma slice_app_drop {A} (l : list A) (a b : nat) :
  a <= b -> slice l a b ++ drop b l = drop a l.
Proof.
  intros Hab. unfold slice.
  replace (drop b l) with (drop (b - a) (drop a l)).
  - apply take_drop.
  - rewrite drop_drop. f_equal. lia.
Qed.

Lemma slice_split {A} (l : list A) (a b c : nat) :
  a <= b -> b <= c -> slice l a b ++ slice l b c = slice l a c.
Proof.
  intros Hab Hbc. unfold slice.
  replace (drop b l) with (drop (b - a) (drop a l))
    by (rewrite drop_drop; f_equal; lia).
  replace (c - a) with ((b - a) + (c - b)) by lia.
  apply take_take_drop.
Qed.

Lemma slice_cons {A} (l : list A) (a b : nat) x :
  l !! a = Some x -> a < b -> slice l a b = x :: slice l (a + 1) b.
Proof.
  intros Hx Hab. unfold slice.
  rewrite (drop_S l x a Hx). replace (b - a) with (S (b - (a + 1))) by lia.
  cbn [take]. replace (a + 1) with (S a) by lia. reflexivity.
Qed.

(** ** The line loop *)

Section Scan.

Variable is_hdr : list N -> list N -> bool.
Variable keep : list N -> list N.

(** The header entry a line opens, if it is a label line. *)
Let hdr (line : list N) : option (list N * string) :=
  find_header is_hdr (strip line).

Let run_scan (lines : list (list N)) (st : scan_state) : scan_state :=
  fold_left (scan_step is_hdr keep) lines st.

Lemma find_header_Some ls e :
  find_header is_hdr ls = Some e ->
  In e headers_map /\ is_hdr ls (fst e) = true.
Proof. unfold find_header. intros H. apply find_some in H. exact H. Qed.

Lemma find_header_None ls :
  find_header is_hdr ls = None <->
  forall e, In e headers_map -> is_hdr ls (fst e) = false.
Proof.
  unfold find_header. split.
  - intros H e He. exact (find_none _ _ H e He).
  - intros H. destruct (List.find _ headers_map) as [e|] eqn:E; [|reflexivity].
    apply find_some in E as [He Ht]. rewrite (H e He) in Ht. discriminate.
Qed.

(** Distinct entries of [headers_map] have distinct roles. *)
Lemma headers_map_role_inj e1 e2 :
  In e1 headers_map -> In e2 headers_map -> snd e1 = snd e2 -> e1 = e2.
Proof.
  unfold headers_map. cbn [In]. intros H1 H2.
  repeat (destruct H1 as [<-|H1]; [|]); try contradiction;
    repeat (destruct H2 as [<-|H2]; [|]); try contradiction;
    cbn [snd]; intros E; first [reflexivity | discriminate E].
Qed.

Lemma scan_step_header st line e :
  hdr line = Some e ->
  scan_step is_hdr keep st line = ScanState (flush st) (Some e) [].
Proof. unfold hdr, scan_step. intros ->. reflexivity. Qed.

Lemma scan_step_content st line e :
  hdr line = None -> current_header st = Some e ->
  scan_step is_hdr keep st line
  = ScanState (fields st) (Some e) (current_content st ++ [keep line]).
Proof. unfold hdr, scan_step. intros -> ->. reflexivity. Qed.

(** Lines that are no label lines only extend the open field. *)
Lemma run_scan_content content f e cc :
  Forall (fun l => hdr l = None) content ->
  run_scan content (ScanState f (Some e) cc)
  = ScanState f (Some e) (cc ++ map keep content).
Proof.
  intros H. revert cc. induction H as [|l ls Hl _ IH]; intros cc.
  - cbn. rewrite app_nil_r. reflexivity.
  - unfold run_scan in *. cbn [fold_left map].
    rewrite (scan_step_content (ScanState f (Some e) cc) l e Hl eq_refl).
    cbn [fields current_content].
    rewrite IH, <- app_assoc. reflexivity.
Qed.

(** A role that no line of [lines] opens, and that is not open, keeps
    the entry it has. *)
Lemma flush_run_scan_other lines st r :
  Forall (fun l => forall e, hdr l = Some e -> snd e <> r) lines ->
  (forall e, current_header st = Some e -> snd e <> r) ->
  flush (run_scan lines st) !! r = fields st !! r.
Proof.
  intros H. revert st. induction H as [|l ls Hl _ IH]; intros st Hcur.
  - cbn. unfold flush. destruct (current_header st) as [[h role]|]; [|reflexivity].
    apply lookup_insert_ne. exact (Hcur _ eq_refl).
  - unfold run_scan in *. cbn [fold_left].
    destruct (hdr l) as [e|] eqn:El.
    + rewrite (scan_step_header st l e El). rewrite IH.
      * cbn [fields]. unfold flush.
        destruct (current_header st) as [[h role]|]; [|reflexivity].
        apply lookup_insert_ne. exact (Hcur _ eq_refl).
      * cbn [current_header]. intros e' [= <-]. exact (Hl e eq_refl).
    + destruct (current_header st) as [e|] eqn:Ec.
      * rewrite (scan_step_content st l e El Ec). rewrite IH; [reflexivity|].
        cbn [current_header]. intros e' [= <-]. exact (Hcur e eq_refl).
      * assert (Es : scan_step is_hdr keep st l = st).
        { unfold scan_step. fold (hdr l). rewrite El, Ec. reflexivity. }
        rewrite Es. apply IH. rewrite Ec. discriminate.
Qed.

(** A role that is open, or has an entry, has an entry at the end. *)
Lemma flush_run_scan_present lines st r :
  (exists h, current_header st = Some (h, r)) \/ is_Some (fields st !! r) ->
  is_Some (flush (run_scan lines st) !! r).
Proof.
  revert st. induction lines as [|l ls IH]; intros st Hst.
  - cbn. unfold flush. destruct Hst as [[h ->]|Hf].
    + rewrite lookup_insert_eq. eauto.
    + destruct (current_header st) as [[h role]|]; [|exact Hf].
      rewrite lookup_insert. case_decide; eauto.
  - assert (Hflush : is_Some (flush st !! r)).
    { unfold flush. destruct Hst as [[h ->]|Hf].
      - rewrite lookup_insert_eq. eauto.
      - destruct (current_header st) as [[h role]|]; [|exact Hf].
        rewrite lookup_insert. case_decide; eauto. }
    unfold run_scan in *. cbn [fold_left]. apply IH.
    unfold scan_step. fold (hdr l).
    destruct (hdr l) as [e|]; [right; exact Hflush|].
    destruct (current_header st) as [e|] eqn:Ec;
      cbn [current_header fields];
      first [exact Hst | rewrite Ec; exact Hst].
Qed.

Lemma run_scan_app l1 l2 st :
  run_scan (l1 ++ l2) st = run_scan l2 (run_scan l1 st).
Proof. apply fold_left_app. Qed.

(** A span without a label line of a role gives no entry for it. *)
Lemma scan_fields_absent lines r :
  Forall (fun l => forall e, hdr l = Some e -> snd e <> r) lines ->
  scan_fields is_hdr keep lines !! r = None.
Proof.
  intros H. unfold scan_fields.
  change (flush (run_scan lines scan_init) !! r = None).
  rewrite flush_run_scan_other; [reflexivity|exact H|].
  intros e. cbn. discriminate.
Qed.

(** The text of a field: the kept lines between its label line and the
    next label line (or the end), joined and stripped, when no later
    line opens the field again. *)
Lemma scan_fields_field pre hl content rest e :
  hdr hl = Some e ->
  Forall (fun l => hdr l = None) content ->
  (rest = [] \/ exists hl' rest', rest = hl' :: rest' /\ hdr hl' <> None) ->
  Forall (fun l => hdr l <> Some e) rest ->
  scan_fields is_hdr keep (pre ++ hl :: content ++ rest) !! snd e
  = Some (strip (join [LF] (map keep content))).
Proof.
  intros Hhl Hcontent Hrest Hlater. unfold scan_fields.
  change (flush (run_scan (pre ++ hl :: content ++ rest) scan_init) !! e.2
          = Some (strip (join [LF] (map keep content)))).
  rewrite run_scan_app. set (st1 := run_scan pre scan_init).
  change (hl :: content ++ rest) with ([hl] ++ content ++ rest).
  rewrite !run_scan_app.
  change (run_scan [hl] st1) with (scan_step is_hdr keep st1 hl).
  rewrite (scan_step_header st1 hl e Hhl).
  rewrite (run_scan_content content _ e [] Hcontent). cbn [app].
  assert (Hin : In e headers_map) by (apply (find_header_Some _ _ Hhl)).
  assert (Hother : Forall (fun l => forall e', hdr l = Some e' -> snd e' <> snd e) rest).
  { eapply Forall_impl; [exact Hlater|]. cbn. intros l Hl e' He' Hsnd.
    apply Hl. rewrite He'. f_equal.
    apply headers_map_role_inj; [apply (find_header_Some _ _ He')|exact Hin|exact Hsnd]. }
  destruct Hrest as [->|(hl' & rest' & -> & Hhl')].
  - cbn. unfold flush. cbn [current_header current_content fields].
    destruct e as [h role]. apply lookup_insert_eq.
  - destruct (hdr hl') as [e'|] eqn:Ee'; [|contradiction].
    change (hl' :: rest') with ([hl'] ++ rest'). rewrite run_scan_app.
    set (st2 := ScanState (flush st1) (Some e) (map keep content)).
    change (run_scan [hl'] st2) with (scan_step is_hdr keep st2 hl').
    rewrite (scan_step_header st2 hl' e' Ee').
    apply Forall_cons in Hother as [Hne Hother].
    rewrite flush_run_scan_other; [|exact Hother|].
    + cbn [fields]. unfold flush, st2. cbn [current_header current_content fields].
      destruct e as [h role]. apply lookup_insert_eq.
    + cbn [current_header]. intros e'' [= <-]. exact (Hne e' Ee').
Qed.

(** A label line gives its role an entry, whatever follows. *)
Lemma scan_fields_present pre hl rest e :
  hdr hl = Some e ->
  is_Some (scan_fields is_hdr keep (pre ++ hl :: rest) !! snd e).
Proof.
  intros Hhl. unfold scan_fields.
  change (is_Some (flush (run_scan (pre ++ [hl] ++ rest) scan_init) !! e.2)).
  rewrite !run_scan_app.
  change (run_scan [hl] (run_scan pre scan_init))
    with (scan_step is_hdr keep (run_scan pre scan_init) hl).
  rewrite (scan_step_header _ hl e Hhl).
  apply flush_run_scan_present. left. destruct e as [h role]. cbn. eauto.
Qed.

End Scan.

(** ** The block loop of [generate_questions_c_l3.py] *)

Lemma is_blank_strip l : is_blank l = true <-> strip l = [].
Proof.
  unfold is_blank. rewrite strip_nil_iff, forallb_forall, Forall_forall.
  split; intros H x Hx; apply H; apply list_elem_of_In; exact Hx.
Qed.

Lemma cl3_step_blank a line : strip line = [] -> GenCL3.step a line = a.
Proof. unfold GenCL3.step. intros ->. reflexivity. Qed.

Lemma cl3_step_label a line s :
  GenCL3.label_of (strip line) = Some s ->
  GenCL3.step a line
  = GenCL3.Acc (GenCL3.question_text a) (GenCL3.broken_code a)
      (GenCL3.correct_code a) (GenCL3.riddle a) (GenCL3.answer a) (Some s).
Proof.
  unfold GenCL3.step. intros H.
  destruct (strip line) as [|c ls]; [discriminate H|]. rewrite H. reflexivity.
Qed.

Lemma cl3_step_content a line s :
  strip line <> [] -> GenCL3.label_of (strip line) = None ->
  GenCL3.current_section a = Some s ->
  GenCL3.current_section (GenCL3.step a line) = Some s
  /\ GenCL3.accumulated (GenCL3.step a line) s
     = GenCL3.accumulated a s ++ line ++ [LF]
  /\ forall s', s' <> s ->
       GenCL3.accumulated (GenCL3.step a line) s' = GenCL3.accumulated a s'.
Proof.
  unfold GenCL3.step. intros Hne Hl Hc.
  destruct (strip line) as [|c ls]; [congruence|]. rewrite Hl, Hc.
  destruct s; cbn; (split; [reflexivity|split; [reflexivity|]]);
    intros s' Hs'; destruct s'; cbn; congruence.
Qed.

Lemma cl3_step_closed a line :
  strip line <> [] -> GenCL3.label_of (strip line) = None ->
  GenCL3.current_section a = None -> GenCL3.step a line = a.
Proof.
  unfold GenCL3.step. intros Hne Hl Hc.
  destruct (strip line) as [|c ls]; [congruence|]. rewrite Hl, Hc. reflexivity.
Qed.

(** Lines that do not open section [s], read while it is not open, leave
    its accumulator as it is. *)
Lemma cl3_other lines a s :
  Forall (fun l => GenCL3.label_of (strip l) <> Some s) lines ->
  GenCL3.current_section a <> Some s ->
  GenCL3.accumulated (fold_left GenCL3.step lines a) s = GenCL3.accumulated a s
  /\ GenCL3.current_section (fold_left GenCL3.step lines a) <> Some s.
Proof.
  intros H. revert a. induction H as [|l ls Hl _ IH]; intros a Hc; [auto|].
  cbn [fold_left].
  assert (Hstep : GenCL3.accumulated (GenCL3.step a l) s = GenCL3.accumulated a s
                  /\ GenCL3.current_section (GenCL3.step a l) <> Some s).
  { destruct (decide (strip l = [])) as [Eb|Eb];
      [rewrite cl3_step_blank by exact Eb; auto|].
    destruct (GenCL3.label_of (strip l)) as [s'|] eqn:El.
    - rewrite (cl3_step_label a l s' El). cbn [GenCL3.current_section].
      split; [destruct s; reflexivity|congruence].
    - destruct (GenCL3.current_section a) as [s'|] eqn:Ec.
      + destruct (cl3_step_content a l s' Eb El Ec) as (H1 & _ & H3).
        rewrite H1. split; [apply H3|]; congruence.
      + rewrite (cl3_step_closed a l Eb El Ec), Ec. auto. }
  destruct Hstep as [Ha Hc']. destruct (IH _ Hc') as [IH1 IH2].
  rewrite IH1. auto.
Qed.

(** Lines that are no label lines, read while section [s] is open, add
    the lines that are not blank, each with a line feed. *)
Lemma cl3_content content a s :
  Forall (fun l => GenCL3.label_of (strip l) = None) content ->
  GenCL3.current_section a = Some s ->
  GenCL3.current_section (fold_left GenCL3.step content a) = Some s
  /\ GenCL3.accumulated (fold_left GenCL3.step content a) s
     = GenCL3.accumulated a s
       ++ concat (map (fun l => l ++ [LF])
                    (List.filter (fun l => negb (is_blank l)) content)).
Proof.
  intros H. revert a. induction H as [|l ls Hl _ IH]; intros a Hc.
  - cbn. rewrite app_nil_r. auto.
  - cbn [fold_left List.filter].
    destruct (is_blank l) eqn:Eb; cbn [negb].
    + rewrite cl3_step_blank by (apply is_blank_strip; exact Eb). apply IH, Hc.
    + assert (Hne : strip l <> []).
      { intros E. apply is_blank_strip in E. congruence. }
      destruct (cl3_step_content a l s Hne Hl Hc) as (H1 & H2 & _).
      destruct (IH _ H1) as [IH1 IH2]. split; [exact IH1|].
      rewrite IH2, H2. cbn [map concat]. rewrite <- !app_assoc. reflexivity.
Qed.

(** The text of a section that one label line of the block opens: the
    lines up to the next label line that are not blank, each followed by
    a line feed, stripped as one text. *)
Lemma cl3_section_text (pre content rest : list (list N)) (hl : list N)
    (s : GenCL3.section) :
  GenCL3.label_of (strip hl) = Some s ->
  Forall (fun l => GenCL3.label_of (strip l) = None) content ->
  Forall (fun l => GenCL3.label_of (strip l) <> Some s) (pre ++ rest) ->
  (rest = [] \/
   exists hl' rest', rest = hl' :: rest' /\ GenCL3.label_of (strip hl') <> None) ->
  GenCL3.section_text
    (fold_left GenCL3.step (pre ++ hl :: content ++ rest)
       (GenCL3.Acc [] [] [] [] [] None)) s
  = strip (concat (map (fun l => l ++ [LF])
                     (List.filter (fun l => negb (is_blank l)) content))).
Proof.
  intros Hhl Hc Hother Hrest. apply Forall_app in Hother as [Hpre Hafter].
  unfold GenCL3.section_text. f_equal.
  change (hl :: content ++ rest) with ([hl] ++ content ++ rest).
  rewrite !fold_left_app.
  set (a0 := GenCL3.Acc [] [] [] [] [] None).
  destruct (cl3_other pre a0 s Hpre ltac:(cbn; discriminate)) as [E1 _].
  set (a1 := fold_left GenCL3.step pre a0) in *.
  cbn [fold_left]. rewrite (cl3_step_label a1 hl s Hhl).
  set (a2 := GenCL3.Acc _ _ _ _ _ (Some s)).
  assert (E2 : GenCL3.accumulated a2 s = []).
  { transitivity (GenCL3.accumulated a1 s); [destruct s; reflexivity|].
    rewrite E1. destruct s; reflexivity. }
  destruct (cl3_content content a2 s Hc eq_refl) as [C1 C2].
  set (a3 := fold_left GenCL3.step content a2) in *.
  rewrite E2 in C2. cbn [app] in C2.
  destruct Hrest as [->|(hl' & rest' & -> & Hl')]; [exact C2|].
  apply Forall_cons in Hafter as [Hne Hafter'].
  cbn [fold_left].
  destruct (GenCL3.label_of (strip hl')) as [s'|] eqn:El'; [|congruence].
  rewrite (cl3_step_label a3 hl' s' El').
  set (a4 := GenCL3.Acc _ _ _ _ _ (Some s')).
  destruct (cl3_other rest' a4 s Hafter' ltac:(cbn; congruence)) as [E4 _].
  rewrite E4. rewrite <- C2. destruct s; reflexivity.
Qed.

(** ** The label rule *)

(** No label of [headers_map] is the beginning of another one, so a line
    begins with at most one of them. *)
Lemma headers_map_label_unique ls e1 e2 :
  In e1 headers_map -> In e2 headers_map ->
  startswith ls (fst e1) = true -> startswith ls (fst e2) = true -> e1 = e2.
Proof.
  intros H1 H2 S1 S2.
  pose proof (startswith_two _ _ _ S1 S2) as H. clear S1 S2. revert H.
  unfold headers_map in H1, H2. cbn [In] in H1, H2.
  repeat (destruct H1 as [<-|H1]; [|]); try contradiction;
    repeat (destruct H2 as [<-|H2]; [|]); try contradiction;
    first [reflexivity | vm_compute; intros [H|H]; discriminate H].
Qed.

Lemma parser2_find_header_iff ls e :
  find_header Parser2.is_header ls = Some e <->
  In e headers_map /\ startswith ls (fst e) = true
  /\ length ls <= length (fst e) + 5.
Proof.
  unfold Parser2.is_header. split.
  - intros H. apply find_header_Some in H as [Hin H].
    apply andb_true_iff in H as [Hs Hl]. apply Nat.leb_le in Hl. auto.
  - intros (Hin & Hs & Hl).
    destruct (find_header _ ls) as [e'|] eqn:E.
    + apply find_header_Some in E as [Hin' H'].
      apply andb_true_iff in H' as [Hs' _].
      f_equal. exact (headers_map_label_unique ls e' e Hin' Hin Hs' Hs).
    + exfalso. pose proof (proj1 (find_header_None _ ls) E e Hin) as F.
      cbn in F. rewrite Hs in F. apply Nat.leb_le in Hl. rewrite Hl in F.
      discriminate.
Qed.

Lemma parse_questions_is_header ls h :
  ParseQuestions.is_header ls h = startswith ls h.
Proof.
  unfold ParseQuestions.is_header.
  destruct (startswith ls h) eqn:E; [|apply andb_false_r].
  rewrite (startswith_contains _ _ E), orb_true_r. reflexivity.
Qed.

Lemma parse_questions_find_header_iff ls e :
  find_header ParseQuestions.is_header ls = Some e <->
  In e headers_map /\ startswith ls (fst e) = true.
Proof.
  split.
  - intros H. apply find_header_Some in H as [Hin H].
    rewrite parse_questions_is_header in H. auto.
  - intros (Hin & Hs).
    destruct (find_header _ ls) as [e'|] eqn:E.
    + apply find_header_Some in E as [Hin' H'].
      rewrite parse_questions_is_header in H'.
      f_equal. exact (headers_map_label_unique ls e' e Hin' Hin H' Hs).
    + exfalso. pose proof (proj1 (find_header_None _ ls) E e Hin) as F.
      cbn in F. rewrite parse_questions_is_header, Hs in F. discriminate.
Qed.

(** C4, as the code has it: in [parser2.py] a line opens the field of a
    label exactly when its stripped form starts with the label and is at
    most five characters longer, for every label, the long-form heading
    included; in [parse_questions.py] starting with the label is enough,
    whatever the length; in both a line that starts with no label opens
    nothing, wherever else a label occurs in it. *)
Theorem C4_label_rule (line : list N) (e : list N * string) :
  (find_header Parser2.is_header (strip line) = Some e <->
   In e headers_map /\ startswith (strip line) (fst e) = true
   /\ length (strip line) <= length (fst e) + 5)
  /\ (find_header ParseQuestions.is_header (strip line) = Some e <->
      In e headers_map /\ startswith (strip line) (fst e) = true)
  /\ ((forall e', In e' headers_map -> startswith (strip line) (fst e') = false) ->
      find_header Parser2.is_header (strip line) = None
      /\ find_header ParseQuestions.is_header (strip line) = None).
Proof.
  split; [apply parser2_find_header_iff|].
  split; [apply parse_questions_find_header_iff|].
  intros Hno. split; apply find_header_None; intros e' He'.
  - unfold Parser2.is_header. rewrite (Hno e' He'). reflexivity.
  - rewrite parse_questions_is_header. exact (Hno e' He').
Qed.

Lemma C4_label_rule_witness :
  find_header Parser2.is_header (strip (lit "  Correct Code:" ++ [LF]))
  = Some (lit "Correct Code", "correctCode"%string)
  /\ find_header Parser2.is_header
       (strip (lit "Fix the Error in the Broken Code below")) = None.
Proof.
  split.
  - apply (proj2 (proj1 (C4_label_rule (lit "  Correct Code:" ++ [LF])
                             (lit "Correct Code", "correctCode"%string)))).
    split; [do 2 right; left; reflexivity|].
    split; [vm_compute; reflexivity|vm_compute; lia].
  - apply (proj2 (proj2 (C4_label_rule
                             (lit "Fix the Error in the Broken Code below")
                             (lit "Error", "description"%string)))).
    unfold headers_map. cbn [In]. intros e' H.
    repeat (destruct H as [<-|H]; [vm_compute; reflexivity|]). contradiction.
Defined.

(** C4 as the specification words it fails: [parser2.py] takes the
    long-form heading followed by a colon for a label line, where the
    wording asks for an exact match, and [parse_questions.py] takes a
    line of any length that starts with a label. *)
Lemma C4_long_form_not_exact :
  find_header Parser2.is_header (strip (long_heading ++ lit ":" ++ [LF]))
  = Some (long_heading, "hiddenTests"%string)
  /\ (forall slack,
        spec_is_label slack (strip (long_heading ++ lit ":" ++ [LF]))
          long_heading = false)
  /\ find_header ParseQuestions.is_header (strip long_error_line)
     = Some (lit "Error", "description"%string)
  /\ length (strip long_error_line) = length (lit "Error") + 55.
Proof.
  split; [vm_compute; reflexivity|].
  split; [intros slack; vm_compute; reflexivity|].
  split; vm_compute; reflexivity.
Qed.

(** ** Field texts *)

(** C3, as the code has it: in [parser2.py] the text of a field whose
    label no later line of the span repeats is the lines strictly between
    its label line and the next label line (or the end of the span), each
    without its trailing white space, joined by line feeds, and stripped
    of white space at both ends as one text; so when the first and the
    last of those lines are not blank, the first line loses its
    indentation and every line after it keeps its own, blank lines
    between them included.  In [generate_questions_c_l3.py] the text of
    a section that one label line of the block opens is the lines up to
    the next label line that are not blank, each as it is and followed
    by a line feed, stripped of white space at both ends as one text:
    blank lines are dropped. *)
Theorem C3_field_text (pre content rest : list (list N)) (hl : list N)
    (e : list N * string)
    (bpre bcontent brest : list (list N)) (bhl : list N)
    (s : GenCL3.section) :
  (find_header Parser2.is_header (strip hl) = Some e ->
   Forall (fun l => find_header Parser2.is_header (strip l) = None) content ->
   (rest = [] \/
    exists hl' rest', rest = hl' :: rest'
                      /\ find_header Parser2.is_header (strip hl') <> None) ->
   Forall (fun l => find_header Parser2.is_header (strip l) <> Some e) rest ->
   Parser2.extract_fields (pre ++ hl :: content ++ rest) !! snd e
   = Some (strip (join [LF] (map rstrip content)))
   /\ (forall first mid last,
         content = first :: mid ++ [last] ->
         strip first <> [] -> strip last <> [] ->
         Parser2.extract_fields (pre ++ hl :: content ++ rest) !! snd e
         = Some (join [LF] (strip first :: map rstrip mid ++ [rstrip last]))))
  /\ (GenCL3.label_of (strip bhl) = Some s ->
      Forall (fun l => GenCL3.label_of (strip l) = None) bcontent ->
      Forall (fun l => GenCL3.label_of (strip l) <> Some s) (bpre ++ brest) ->
      (brest = [] \/
       exists hl' rest', brest = hl' :: rest'
                         /\ GenCL3.label_of (strip hl') <> None) ->
      GenCL3.section_text
        (fold_left GenCL3.step (bpre ++ bhl :: bcontent ++ brest)
           (GenCL3.Acc [] [] [] [] [] None)) s
      = strip (concat (map (fun l => l ++ [LF])
                         (List.filter (fun l => negb (is_blank l)) bcontent)))).
Proof.
  split.
  - intros Hhl Hc Hrest Hlater.
    pose proof (scan_fields_field Parser2.is_header rstrip pre hl content rest e
                  Hhl Hc Hrest Hlater) as H.
    split; [exact H|].
    intros first mid last -> Hf Hl.
    unfold Parser2.extract_fields. rewrite H. f_equal.
    apply strip_join_lines; assumption.
  - apply cl3_section_text.
Qed.

Lemma C3_field_text_witness :
  Parser2.extract_fields sample_body !! "initialCode"%string
  = Some (lit "print(x" ++ [LF; LF] ++ lit "  y = 2")
  /\ GenCL3.section_text (GenCL3.scan block_with_blank_line) GenCL3.SBroken
     = lit "int x;" ++ [LF] ++ lit "  y;".
Proof.
  pose proof (C3_field_text []
                [lit "    print(x" ++ [LF]; [LF]; lit "  y = 2  " ++ [LF]]
                [lit "Error" ++ [LF]; lit "Correct Code:" ++ [LF];
                 lit "print(x)" ++ [LF]]
                (lit "Broken Code" ++ [LF])
                (lit "Broken Code", "initialCode"%string)
                [] [lit "  int x;"; []; lit "  y;"] [lit "Riddle"; lit "r"]
                (lit "Broken Code") GenCL3.SBroken) as [H1 H2].
  split.
  - destruct H1 as [_ H].
    + vm_compute. reflexivity.
    + repeat constructor.
    + right. eexists _, _. split; [reflexivity|]. vm_compute. discriminate.
    + repeat constructor; vm_compute; discriminate.
    + exact (H (lit "    print(x" ++ [LF]) [[LF]] (lit "  y = 2  " ++ [LF])
               eq_refl ltac:(vm_compute; discriminate)
               ltac:(vm_compute; discriminate)).
  - etransitivity; [|etransitivity; [apply H2|vm_compute; reflexivity]].
    + vm_compute. reflexivity.
    + vm_compute. reflexivity.
    + repeat constructor.
    + repeat constructor; vm_compute; discriminate.
    + right. eexists _, _. split; [reflexivity|]. vm_compute. discriminate.
Defined.

(** C3 as the specification words it fails: in [parser2.py] the
    indentation of the first line of code is not preserved, and in
    [generate_questions_c_l3.py] a blank line inside the code is not
    either. *)
Lemma C3_first_line_indentation_lost :
  Parser2.extract_fields sample_indented_body !! "initialCode"%string
  = Some (lit "x = 1" ++ [LF] ++ lit "y")
  /\ spec_field_text [lit "    x = 1" ++ [LF]; lit "y" ++ [LF]]
     = lit "    x = 1" ++ [LF] ++ lit "y"
  /\ Parser2.extract_fields sample_indented_body !! "initialCode"%string
     <> Some (spec_field_text [lit "    x = 1" ++ [LF]; lit "y" ++ [LF]])
  /\ GenCL3.section_text (GenCL3.scan block_with_blank_line) GenCL3.SBroken
     = lit "int x;" ++ [LF] ++ lit "  y;"
  /\ spec_field_text [lit "  int x;"; []; lit "  y;"]
     = lit "  int x;" ++ [LF; LF] ++ lit "  y;".
Proof. vm_compute. repeat split; discriminate. Qed.

(** ** Missing and empty fields *)

Lemma Forall_not_Some_role (is_hdr : list N -> list N -> bool)
    (lines : list (list N)) (e : list N * string) :
  In e headers_map ->
  Forall (fun l => find_header is_hdr (strip l) <> Some e) lines ->
  Forall (fun l => forall e', find_header is_hdr (strip l) = Some e' ->
                              snd e' <> snd e) lines.
Proof.
  intros Hin H. eapply Forall_impl; [exact H|]. cbn.
  intros l Hl e' He' Hsnd. apply Hl. rewrite He'. f_equal.
  apply headers_map_role_inj;
    [apply (find_header_Some _ _ _ He')|exact Hin|exact Hsnd].
Qed.

(** C5, for the extractors that build the mapping ([parser2.py] and
    [parse_questions.py]): a span in which no line is a label line of a
    field gives a mapping without an entry for that field's role, and the
    question built from it has the empty text there; building the
    mapping is a function of the span, which nothing makes fail. *)
Theorem C5_missing_label_absent (body_lines : list (list N)) (body : list N)
    (e : list N * string) :
  In e headers_map ->
  (Forall (fun l => find_header Parser2.is_header (strip l) <> Some e)
     body_lines ->
   Parser2.extract_fields body_lines !! snd e = None
   /\ get_or_empty (Parser2.extract_fields body_lines) (snd e) = [])
  /\ (Forall (fun l => find_header ParseQuestions.is_header (strip l) <> Some e)
        (split LF body) ->
      ParseQuestions.extract_fields body !! snd e = None
      /\ get_or_empty (ParseQuestions.extract_fields body) (snd e) = []).
Proof.
  intros Hin. split; intros H.
  - assert (E : Parser2.extract_fields body_lines !! e.2 = None).
    { apply scan_fields_absent. apply Forall_not_Some_role; assumption. }
    split; [exact E|]. unfold get_or_empty. rewrite E. reflexivity.
  - assert (E : ParseQuestions.extract_fields body !! e.2 = None).
    { apply scan_fields_absent. apply Forall_not_Some_role; assumption. }
    split; [exact E|]. unfold get_or_empty. rewrite E. reflexivity.
Qed.

Lemma C5_missing_label_absent_witness :
  Parser2.extract_fields sample_indented_body !! "description"%string = None.
Proof.
  apply (proj1 (C5_missing_label_absent sample_indented_body []
                  (lit "Error", "description"%string)
                  ltac:(right; left; reflexivity))).
  repeat constructor; vm_compute; discriminate.
Defined.

(** C6: in [parser2.py] a label line gives its role an entry whatever
    follows; when the next line is a label line too, and no later line of
    the span is a label line of the same field again, the entry is the
    empty text. *)
Theorem C6_empty_field_present (pre rest : list (list N)) (l1 l2 : list N)
    (e e' : list N * string) :
  find_header Parser2.is_header (strip l1) = Some e ->
  find_header Parser2.is_header (strip l2) = Some e' ->
  is_Some (Parser2.extract_fields (pre ++ l1 :: l2 :: rest) !! snd e)
  /\ (Forall (fun l => find_header Parser2.is_header (strip l) <> Some e)
        (l2 :: rest) ->
      Parser2.extract_fields (pre ++ l1 :: l2 :: rest) !! snd e = Some []).
Proof.
  intros H1 H2. split.
  - apply scan_fields_present. exact H1.
  - intros Hlater.
    pose proof (scan_fields_field Parser2.is_header rstrip pre l1 []
                  (l2 :: rest) e H1 ltac:(constructor)) as H.
    cbn [app map join] in H. apply H; [|exact Hlater].
    right. exists l2, rest. split; [reflexivity|]. rewrite H2. discriminate.
Qed.

Lemma C6_empty_field_present_witness :
  Parser2.extract_fields sample_body !! "description"%string = Some [].
Proof.
  apply (proj2 (C6_empty_field_present
                  [lit "Broken Code" ++ [LF]; lit "    print(x" ++ [LF];
                   [LF]; lit "  y = 2  " ++ [LF]]
                  [lit "print(x)" ++ [LF]]
                  (lit "Error" ++ [LF]) (lit "Correct Code:" ++ [LF])
                  (lit "Error", "description"%string)
                  (lit "Correct Code", "correctCode"%string)
                  ltac:(vm_compute; reflexivity)
                  ltac:(vm_compute; reflexivity))).
  repeat constructor; vm_compute; discriminate.
Defined.

(** C6 as the specification words it fails in [parser2.py]: in the
    record below the label line [Error] is followed at once by the label
    line [Riddle], and the field is opened again further down; the later
    text replaces the empty one, so the role [description] holds [x]. *)
Lemma C6_reopened_field_not_empty :
  find_header Parser2.is_header (strip (lit "Error" ++ [LF]))
  = Some (lit "Error", "description"%string)
  /\ find_header Parser2.is_header (strip (lit "Riddle" ++ [LF]))
     = Some (lit "Riddle", "riddle"%string)
  /\ Parser2.extract_fields
       [lit "Error" ++ [LF]; lit "Riddle" ++ [LF]; lit "Error" ++ [LF];
        lit "x" ++ [LF]] !! "description"%string
     = Some (lit "x")
  /\ Parser2.extract_fields
       [lit "Error" ++ [LF]; lit "Riddle" ++ [LF]; lit "Error" ++ [LF];
        lit "x" ++ [LF]] !! "description"%string
     <> Some []
  /\ map description (Parser2.questions ascii_isdigit sample_reopened_document)
     = [lit "x"].
Proof.
  split; [vm_compute; reflexivity|]. split; [vm_compute; reflexivity|].
  assert (E : Parser2.extract_fields
                [lit "Error" ++ [LF]; lit "Riddle" ++ [LF];
                 lit "Error" ++ [LF]; lit "x" ++ [LF]] !! "description"%string
              = Some (lit "x")) by (vm_compute; reflexivity).
  split; [exact E|]. split; [rewrite E; discriminate|].
  vm_compute. reflexivity.
Qed.

(** ** Segmentation *)

Lemma imap_with_next_gen {A B} (g : A -> option A -> B) (pre l : list A) :
  imap (fun i x => g x ((pre ++ l) !! (length pre + i + 1))) l
  = map (fun p => g (fst p) (snd p)) (with_next l).
Proof.
  revert pre. induction l as [|x l IH]; intros pre; [reflexivity|].
  rewrite imap_cons. cbn [with_next map fst snd]. f_equal.
  - f_equal. rewrite lookup_app_r by lia.
    replace (length pre + 0 + 1 - length pre) with 1 by lia.
    destruct l; reflexivity.
  - rewrite <- (IH (pre ++ [x])). apply imap_ext. intros i y _. cbn.
    f_equal. rewrite <- app_assoc. cbn [app]. f_equal.
    rewrite length_app. cbn. lia.
Qed.

Lemma imap_with_next {A B} (g : A -> option A -> B) (l : list A) :
  imap (fun i x => g x (l !! (i + 1))) l
  = map (fun p => g (fst p) (snd p)) (with_next l).
Proof. exact (imap_with_next_gen g [] l). Qed.

Lemma length_with_next {A} (l : list A) : length (with_next l) = length l.
Proof. induction l; cbn; congruence. Qed.

(** Cutting a list at increasing positions loses nothing behind the
    first position. *)
Lemma concat_cuts {A} (l : list A) (ps : list nat) :
  StronglySorted lt ps ->
  Forall (fun p => p <= length l) ps ->
  concat (map (fun pn => slice l (fst pn) (default (length l) (snd pn)))
            (with_next ps))
  = drop (default (length l) (head ps)) l.
Proof.
  induction ps as [|p ps IH]; intros Hs Hb.
  - cbn. rewrite drop_all. reflexivity.
  - apply StronglySorted_cons in Hs as [Hlt Hs].
    apply Forall_cons in Hb as [Hp Hb].
    cbn [with_next map concat fst snd head default from_option id].
    rewrite (IH Hs Hb). apply slice_app_drop.
    destruct ps as [|q ps]; cbn; [exact Hp|].
    apply Forall_cons in Hlt as [Hpq _]. lia.
Qed.

Lemma sorted_adjacent {A} (R : A -> A -> Prop) (l : list A) i x y :
  StronglySorted R l -> l !! i = Some x -> l !! (i + 1) = Some y -> R x y.
Proof.
  intros Hs. revert i x. induction Hs as [|a l Hs IH Ha]; intros i x Hx Hy.
  - rewrite lookup_nil in Hx. discriminate.
  - destruct i as [|i]; cbn in Hx, Hy.
    + injection Hx as <-. rewrite Forall_forall in Ha. apply Ha.
      eapply list_elem_of_lookup_2. exact Hy.
    + exact (IH i x Hx Hy).
Qed.

Section Parser2Segmenter.

Variable isdigit : N -> bool.

Local Abbreviation is_question_header := (Parser2.is_question_header isdigit).
Local Abbreviation q_starts := (Parser2.q_starts isdigit).
Local Abbreviation spans := (Parser2.spans isdigit).

Lemma q_starts_from_spec i lines p :
  p ∈ Parser2.q_starts_from isdigit i lines <->
  exists l, i <= p /\ lines !! (p - i) = Some l /\ is_question_header l = true.
Proof.
  revert i. induction lines as [|line rest IH]; intros i; cbn [Parser2.q_starts_from].
  - split; [intros H; inversion H|]. intros (l & _ & H & _).
    rewrite lookup_nil in H. discriminate.
  - assert (Hrest : p ∈ Parser2.q_starts_from isdigit (S i) rest <->
                    exists l, i < p /\ (line :: rest) !! (p - i) = Some l
                              /\ is_question_header l = true).
    { rewrite IH. split; intros (l & Hp & Hl & Hh); exists l;
        (split; [lia|split; [|exact Hh]]).
      - replace (p - i) with (S (p - S i)) by lia. exact Hl.
      - replace (p - i) with (S (p - S i)) in Hl by lia. exact Hl. }
    destruct (is_question_header line) eqn:Eh.
    + rewrite elem_of_cons, Hrest. split.
      * intros [->|(l & Hp & Hl & Hh)].
        -- exists line. rewrite Nat.sub_diag. auto.
        -- exists l. split; [lia|auto].
      * intros (l & Hp & Hl & Hh).
        destruct (decide (p = i)) as [->|Hne]; [left; reflexivity|].
        right. exists l. split; [lia|auto].
    + rewrite Hrest. split.
      * intros (l & Hp & Hl & Hh). exists l. split; [lia|auto].
      * intros (l & Hp & Hl & Hh).
        destruct (decide (p = i)) as [->|Hne].
        -- rewrite Nat.sub_diag in Hl. cbn in Hl. injection Hl as <-. congruence.
        -- exists l. split; [lia|auto].
Qed.

Lemma q_starts_from_sorted i lines :
  StronglySorted lt (Parser2.q_starts_from isdigit i lines)
  /\ Forall (fun p => i <= p < i + length lines)
       (Parser2.q_starts_from isdigit i lines).
Proof.
  revert i. induction lines as [|line rest IH]; intros i; cbn [Parser2.q_starts_from].
  - split; constructor.
  - destruct (IH (S i)) as [Hs Hb].
    assert (Hb' : Forall (fun p => i <= p < i + length (line :: rest))
                    (Parser2.q_starts_from isdigit (S i) rest)).
    { eapply Forall_impl; [exact Hb|]. cbn. intros; lia. }
    destruct (is_question_header line).
    + split.
      * constructor; [exact Hs|]. eapply Forall_impl; [exact Hb|]. cbn. intros; lia.
      * constructor; [cbn; lia|exact Hb'].
    + split; assumption.
Qed.

Lemma q_starts_from_length i lines :
  length (Parser2.q_starts_from isdigit i lines)
  = length (List.filter is_question_header lines).
Proof.
  revert i. induction lines as [|line rest IH]; intros i; [reflexivity|].
  cbn [Parser2.q_starts_from List.filter].
  destruct (is_question_header line); cbn [length]; rewrite IH; reflexivity.
Qed.

Lemma spans_with_next lines :
  spans lines
  = map (fun pn => (fst pn, default (length lines) (snd pn)))
      (with_next (q_starts lines)).
Proof.
  unfold Parser2.spans.
  rewrite <- (imap_with_next (fun s nx => (s, default (length lines) nx))).
  apply imap_ext. intros i s _. cbn. unfold Parser2.end_idx.
  destruct (q_starts lines !! (i + 1)); reflexivity.
Qed.

(** In [parser2.py], [q_starts] holds exactly the indices of the header
    lines, in increasing order; there is one span per index, from it to
    the next index, the last one to the end of the document; a span is
    its header line followed by its body lines; and the spans put
    together are the document from the first header line on. *)
Lemma parser2_segmentation (lines : list (list N)) :
  (forall p, p ∈ q_starts lines <->
             exists l, lines !! p = Some l /\ is_question_header l = true)
  /\ StronglySorted lt (q_starts lines)
  /\ length (spans lines) = length (List.filter is_question_header lines)
  /\ length (Parser2.questions isdigit lines) = length (spans lines)
  /\ (forall i s e,
        spans lines !! i = Some (s, e) ->
        q_starts lines !! i = Some s
        /\ e = default (length lines) (q_starts lines !! (i + 1))
        /\ s < e <= length lines
        /\ exists header,
            lines !! s = Some header
            /\ is_question_header header = true
            /\ slice lines s e = header :: Parser2.body_lines lines s e)
  /\ concat (map (fun sp => slice lines (fst sp) (snd sp)) (spans lines))
     = drop (default (length lines) (head (q_starts lines))) lines.
Proof.
  destruct (q_starts_from_sorted 0 lines) as [Hs Hb].
  assert (Hmem : forall p, p ∈ q_starts lines <->
             exists l, lines !! p = Some l /\ is_question_header l = true).
  { intros p. unfold Parser2.q_starts. rewrite q_starts_from_spec.
    rewrite Nat.sub_0_r. split.
    - intros (l & _ & H). exists l. exact H.
    - intros (l & H). exists l. split; [lia|exact H]. }
  split; [exact Hmem|]. split; [exact Hs|].
  split.
  { unfold Parser2.spans. rewrite length_imap. apply q_starts_from_length. }
  split; [unfold Parser2.questions; apply length_map|].
  split.
  - intros i s e Hi. unfold Parser2.spans in Hi.
    rewrite list_lookup_imap in Hi.
    destruct (q_starts lines !! i) as [s'|] eqn:Es; [|discriminate].
    cbn in Hi. injection Hi as <- <-.
    split; [reflexivity|].
    assert (Hsl : s' < length lines).
    { rewrite Forall_forall in Hb.
      assert (Hin : s' ∈ Parser2.q_starts_from isdigit 0 lines)
        by (eapply list_elem_of_lookup_2; exact Es).
      apply Hb in Hin. lia. }
    assert (He : Parser2.end_idx lines (q_starts lines) i
                 = default (length lines) (q_starts lines !! (i + 1))).
    { unfold Parser2.end_idx. destruct (q_starts lines !! (i + 1)); reflexivity. }
    rewrite He. split; [reflexivity|].
    assert (Hse : s' < default (length lines) (q_starts lines !! (i + 1))
                  <= length lines).
    { destruct (q_starts lines !! (i + 1)) as [e|] eqn:Ee; cbn.
      - split; [exact (sorted_adjacent lt _ i s' e Hs Es Ee)|].
        rewrite Forall_forall in Hb.
        assert (Hin : e ∈ Parser2.q_starts_from isdigit 0 lines)
          by (eapply list_elem_of_lookup_2; exact Ee).
        apply Hb in Hin. lia.
      - lia. }
    split; [exact Hse|].
    assert (Hin : s' ∈ q_starts lines)
      by (eapply list_elem_of_lookup_2; exact Es).
    apply Hmem in Hin as (header & Hh & Hq).
    exists header. split; [exact Hh|]. split; [exact Hq|].
    unfold Parser2.body_lines. apply slice_cons; [exact Hh|lia].
  - rewrite spans_with_next, map_map. cbn [fst snd].
    apply concat_cuts; [exact Hs|].
    eapply Forall_impl; [exact Hb|]. cbn. intros; lia.
Qed.

End Parser2Segmenter.

Lemma split_not_nil c s : split c s <> [].
Proof.
  destruct s as [|x s]; cbn [split]; [discriminate|].
  destruct (split c s); [discriminate|]. destruct (x =? c)%N; discriminate.
Qed.

Lemma join_split s : join [LF] (split LF s) = s.
Proof.
  induction s as [|x s IH]; [reflexivity|]. cbn [split].
  destruct (split LF s) as [|p ps] eqn:E; [destruct (split_not_nil _ _ E)|].
  destruct (N.eqb_spec x LF) as [->|Hx].
  - rewrite join_cons by discriminate. cbn [app]. rewrite IH. reflexivity.
  - destruct ps as [|q ps].
    + cbn [join] in *. rewrite IH. reflexivity.
    + rewrite join_cons by discriminate. rewrite join_cons in IH by discriminate.
      rewrite <- IH. reflexivity.
Qed.

Lemma length_join_cons line rest :
  rest <> [] ->
  length (join [LF] (line :: rest)) = length line + 1 + length (join [LF] rest).
Proof.
  intros H. rewrite join_cons by exact H. rewrite !length_app. cbn. lia.
Qed.

Section ParseQuestionsSegmenter.

Variable re_digit : N -> bool.

Local Abbreviation match_line := (ParseQuestions.match_line re_digit).
Local Abbreviation matches := (ParseQuestions.matches re_digit).
Local Abbreviation m_start := ParseQuestions.m_start.
Local Abbreviation m_end := ParseQuestions.m_end.

(** The matches found from offset [off] on, in a text whose part from
    [off] on is [lines] joined: each lies in the text, each is a line
    that matches, with its groups, and each ends before the next one
    starts. *)
Lemma finditer_lines_chain (pre : list N) (lines : list (list N)) :
  let content := pre ++ join [LF] lines in
  let ms := ParseQuestions.finditer_lines re_digit (length pre) lines in
  Forall (fun m => length pre <= m_start m /\ m_start m <= m_end m
                   /\ m_end m <= length content
                   /\ match_line (slice content (m_start m) (m_end m))
                      = Some (ParseQuestions.group1 m, ParseQuestions.group2 m))
    ms
  /\ StronglySorted (fun m m' => m_end m < m_start m') ms
  /\ length ms
     = length (List.filter (fun l => bool_decide (is_Some (match_line l))) lines).
Proof.
  revert pre. induction lines as [|line rest IH]; intros pre; cbn zeta.
  - cbn. repeat split; constructor.
  - cbn [ParseQuestions.finditer_lines List.filter].
    destruct rest as [|line' rest].
    + cbn [ParseQuestions.finditer_lines join].
      destruct (match_line line) as [[g1 g2]|] eqn:Em; cbn [bool_decide];
        [|rewrite bool_decide_eq_false_2 by (intros [? ?]; discriminate);
          repeat split; constructor].
      rewrite bool_decide_eq_true_2 by eauto.
      split; [|split; [repeat constructor|reflexivity]].
      constructor; [|constructor]. cbn [ParseQuestions.m_start ParseQuestions.m_end
        ParseQuestions.group1 ParseQuestions.group2].
      rewrite length_app. split; [lia|]. split; [lia|]. split; [lia|].
      unfold slice. rewrite drop_app_length.
      replace (length pre + length line - length pre) with (length line) by lia.
      rewrite take_ge by lia. exact Em.
    + specialize (IH (pre ++ line ++ [LF])). cbn zeta in IH.
      assert (El : length (pre ++ line ++ [LF]) = length pre + length line + 1).
      { rewrite !length_app. cbn. lia. }
      rewrite El in IH.
      assert (Ec : (pre ++ line ++ [LF]) ++ join [LF] (line' :: rest)
                   = pre ++ join [LF] (line :: line' :: rest)).
      { rewrite (join_cons [LF] line) by discriminate.
        rewrite <- !app_assoc. reflexivity. }
      rewrite Ec in IH. destruct IH as (Hb & Hs & Hn).
      set (later := ParseQuestions.finditer_lines re_digit
                      (length pre + length line + 1) (line' :: rest)) in *.
      set (content := pre ++ join [LF] (line :: line' :: rest)) in *.
      assert (Hb' : Forall (fun m => length pre <= m_start m
                     /\ m_start m <= m_end m /\ m_end m <= length content
                     /\ match_line (slice content (m_start m) (m_end m))
                        = Some (ParseQuestions.group1 m, ParseQuestions.group2 m))
                      later).
      { eapply Forall_impl; [exact Hb|]. cbn. intros m (H1 & H2 & H3 & H4).
        repeat split; [lia|assumption..]. }
      destruct (match_line line) as [[g1 g2]|] eqn:Em.
      * rewrite bool_decide_eq_true_2 by eauto. cbn [length].
        split; [|split; [|rewrite Hn; reflexivity]].
        -- constructor; [|exact Hb'].
           cbn [ParseQuestions.m_start ParseQuestions.m_end
                  ParseQuestions.group1 ParseQuestions.group2].
           split; [lia|]. split; [lia|]. split.
           ++ unfold content. rewrite length_app, length_join_cons by discriminate.
              lia.
           ++ unfold slice, content. rewrite drop_app_length.
              replace (length pre + length line - length pre)
                with (length line) by lia.
              rewrite join_cons by discriminate. rewrite take_app_length.
              exact Em.
        -- constructor; [exact Hs|]. eapply Forall_impl; [exact Hb|]. cbn.
           intros m (H1 & _). lia.
      * rewrite bool_decide_eq_false_2 by (intros [? ?]; discriminate).
        split; [exact Hb'|]. split; [exact Hs|exact Hn].
Qed.

Lemma matches_chain (content : list N) :
  Forall (fun m => m_start m <= m_end m /\ m_end m <= length content
                   /\ match_line (slice content (m_start m) (m_end m))
                      = Some (ParseQuestions.group1 m, ParseQuestions.group2 m))
    (matches content)
  /\ StronglySorted (fun m m' => m_end m < m_start m') (matches content)
  /\ length (matches content)
     = length (List.filter (fun l => bool_decide (is_Some (match_line l)))
                 (split LF content)).
Proof.
  pose proof (finditer_lines_chain [] (split LF content)) as H.
  cbn zeta in H. cbn [app length] in H. rewrite join_split in H.
  destruct H as (Hb & Hs & Hn). split; [|split; assumption].
  eapply Forall_impl; [exact Hb|]. cbn. tauto.
Qed.

Lemma record_texts_concat (content : list N) (ms : list ParseQuestions.re_match) :
  Forall (fun m => m_start m <= m_end m /\ m_end m <= length content) ms ->
  StronglySorted (fun m m' => m_end m < m_start m') ms ->
  concat (map (fun pn =>
                 slice content (m_start (fst pn)) (m_end (fst pn))
                 ++ slice content (m_end (fst pn))
                      (default (length content) (m_start <$> snd pn)))
            (with_next ms))
  = drop (default (length content) (m_start <$> head ms)) content.
Proof.
  induction ms as [|m ms IH]; intros Hb Hs.
  - cbn. rewrite drop_all. reflexivity.
  - apply StronglySorted_cons in Hs as [Hlt Hs].
    apply Forall_cons in Hb as [[Hm1 Hm2] Hb].
    cbn [with_next map concat fst snd head fmap option_fmap option_map
           default from_option id].
    rewrite (IH Hb Hs).
    assert (Hnext : m_end m <= default (length content) (m_start <$> head ms)).
    { destruct ms as [|m' ms]; cbn; [exact Hm2|].
      apply Forall_cons in Hlt as [Hlt _]. lia. }
    rewrite slice_split by assumption.
    apply slice_app_drop. lia.
Qed.

(** In [parse_questions.py] there is one question per match, one match per
    line that matches the pattern, in document order; the body of a
    match runs from the end of its header line to the start of the next
    match (to the end of the text for the last); header line and body
    together are the text from the start of the match to the start of
    the next, and all of them put together are the text from the first
    match on. *)
Lemma parse_questions_segmentation (content : list N) :
  length (ParseQuestions.questions re_digit content) = length (matches content)
  /\ length (matches content)
     = length (List.filter (fun l => bool_decide (is_Some (match_line l)))
                 (split LF content))
  /\ StronglySorted (fun m m' => m_end m < m_start m') (matches content)
  /\ (forall i m,
        matches content !! i = Some m ->
        m_start m <= m_end m
        /\ m_end m <= ParseQuestions.span_end content (matches content) i
        /\ ParseQuestions.span_end content (matches content) i <= length content
        /\ match_line (slice content (m_start m) (m_end m))
           = Some (ParseQuestions.group1 m, ParseQuestions.group2 m)
        /\ slice content (m_start m) (m_end m)
           ++ ParseQuestions.body content (matches content) i m
           = slice content (m_start m)
               (ParseQuestions.span_end content (matches content) i))
  /\ concat (imap (fun i m =>
                     slice content (m_start m) (m_end m)
                     ++ ParseQuestions.body content (matches content) i m)
               (matches content))
     = drop (default (length content) (m_start <$> head (matches content)))
         content.
Proof.
  destruct (matches_chain content) as (Hb & Hs & Hn).
  split; [unfold ParseQuestions.questions; apply length_imap|].
  split; [exact Hn|]. split; [exact Hs|].
  rewrite Forall_forall in Hb.
  split.
  - intros i m Hi.
    assert (Hin : m ∈ matches content)
      by (eapply list_elem_of_lookup_2; exact Hi).
    destruct (Hb m Hin) as (H1 & H2 & H3).
    assert (He : m_end m <= ParseQuestions.span_end content (matches content) i
                 <= length content).
    { unfold ParseQuestions.span_end.
      destruct (matches content !! (i + 1)) as [m'|] eqn:Em'; [|lia].
      pose proof (sorted_adjacent _ _ i m m' Hs Hi Em') as Hlt. cbn in Hlt.
      assert (Hin' : m' ∈ matches content)
        by (eapply list_elem_of_lookup_2; exact Em').
      destruct (Hb m' Hin') as (H1' & H2' & _). lia. }
    split; [exact H1|]. split; [apply He|]. split; [apply He|].
    split; [exact H3|].
    unfold ParseQuestions.body. apply slice_split; [exact H1|apply He].
  - rewrite <- (record_texts_concat content (matches content)).
    + rewrite <- (imap_with_next
                    (fun m nx => slice content (m_start m) (m_end m)
                                 ++ slice content (m_end m)
                                      (default (length content) (m_start <$> nx)))).
      f_equal. apply imap_ext. intros i m _. cbn. f_equal.
      unfold ParseQuestions.body, ParseQuestions.span_end.
      destruct (matches content !! (i + 1)); reflexivity.
    + apply Forall_forall. intros m Hin. destruct (Hb m Hin) as (H1 & H2 & _).
      split; assumption.
    + exact Hs.
Qed.

End ParseQuestionsSegmenter.

(** C1: both segmenters find every boundary, in document order, and
    produce one span per boundary, running from it up to the next one
    (the last to the end of the document); N boundary lines give N spans
    and N records, and the spans put together are the document from the
    first boundary on, what precedes it being left out.  In [parser2.py]
    a span is the header line and its body lines; in
    [parse_questions.py] it is the matched header line and the body that
    starts at the end of the match. *)
Theorem C1_segmentation (isdigit re_digit : N -> bool)
    (lines : list (list N)) (content : list N) :
  ((forall p, p ∈ Parser2.q_starts isdigit lines <->
              exists l, lines !! p = Some l
                        /\ Parser2.is_question_header isdigit l = true)
   /\ StronglySorted lt (Parser2.q_starts isdigit lines)
   /\ length (Parser2.spans isdigit lines)
      = length (List.filter (Parser2.is_question_header isdigit) lines)
   /\ length (Parser2.questions isdigit lines)
      = length (Parser2.spans isdigit lines)
   /\ (forall i s e,
         Parser2.spans isdigit lines !! i = Some (s, e) ->
         Parser2.q_starts isdigit lines !! i = Some s
         /\ e = default (length lines) (Parser2.q_starts isdigit lines !! (i + 1))
         /\ s < e <= length lines
         /\ exists header,
             lines !! s = Some header
             /\ Parser2.is_question_header isdigit header = true
             /\ slice lines s e = header :: Parser2.body_lines lines s e)
   /\ concat (map (fun sp => slice lines (fst sp) (snd sp))
                (Parser2.spans isdigit lines))
      = drop (default (length lines) (head (Parser2.q_starts isdigit lines)))
          lines)
  /\ (length (ParseQuestions.questions re_digit content)
      = length (ParseQuestions.matches re_digit content)
      /\ length (ParseQuestions.matches re_digit content)
         = length (List.filter
                     (fun l => bool_decide
                                 (is_Some (ParseQuestions.match_line re_digit l)))
                     (split LF content))
      /\ StronglySorted
           (fun m m' => ParseQuestions.m_end m < ParseQuestions.m_start m')
           (ParseQuestions.matches re_digit content)
      /\ (forall i m,
            ParseQuestions.matches re_digit content !! i = Some m ->
            ParseQuestions.m_start m <= ParseQuestions.m_end m
            /\ ParseQuestions.m_end m
               <= ParseQuestions.span_end content
                    (ParseQuestions.matches re_digit content) i
            /\ ParseQuestions.span_end content
                 (ParseQuestions.matches re_digit content) i <= length content
            /\ ParseQuestions.match_line re_digit
                 (slice content (ParseQuestions.m_start m) (ParseQuestions.m_end m))
               = Some (ParseQuestions.group1 m, ParseQuestions.group2 m)
            /\ slice content (ParseQuestions.m_start m) (ParseQuestions.m_end m)
               ++ ParseQuestions.body content
                    (ParseQuestions.matches re_digit content) i m
               = slice content (ParseQuestions.m_start m)
                   (ParseQuestions.span_end content
                      (ParseQuestions.matches re_digit content) i))
      /\ concat (imap (fun i m =>
                         slice content (ParseQuestions.m_start m)
                           (ParseQuestions.m_end m)
                         ++ ParseQuestions.body content
                              (ParseQuestions.matches re_digit content) i m)
                   (ParseQuestions.matches re_digit content))
         = drop (default (length content)
                   (ParseQuestions.m_start
                      <$> head (ParseQuestions.matches re_digit content)))
             content).
Proof.
  split.
  - apply parser2_segmentation.
  - apply parse_questions_segmentation.
Qed.

(** ** Titles *)

Lemma split_head c s :
  exists q ps, split c s = q :: ps /\ (c ∉ q)
               /\ ((ps = [] /\ s = q) \/ exists r, s = q ++ c :: r).
Proof.
  induction s as [|x s (q & ps & E & Hq & Hs)].
  - exists [], []. split; [reflexivity|]. split; [apply not_elem_of_nil|].
    left. auto.
  - cbn [split]. rewrite E. destruct (N.eqb_spec x c) as [->|Hx].
    + exists [], (q :: ps). split; [reflexivity|].
      split; [apply not_elem_of_nil|]. right. exists s. reflexivity.
    + exists (x :: q), ps. split; [reflexivity|].
      split; [apply not_elem_of_cons; split; [congruence|exact Hq]|].
      destruct Hs as [[-> ->]|[r ->]]; [left; auto|right; exists r; reflexivity].
Qed.

(** [q_id] is the beginning of the line, up to its first space. *)
Lemma q_id_prefix header_line :
  exists rest, header_line = Parser2.q_id header_line ++ rest
               /\ (rest = [] \/ exists r, rest = SPACE :: r)
               /\ (SPACE ∉ Parser2.q_id header_line).
Proof.
  unfold Parser2.q_id.
  destruct (split_head SPACE header_line) as (q & ps & E & Hq & Hs).
  rewrite E. cbn. destruct Hs as [[_ ->]|[r ->]].
  - exists []. rewrite app_nil_r. auto.
  - exists (SPACE :: r). split; [reflexivity|]. split; [right; eauto|exact Hq].
Qed.

Lemma find_sub_Some s p k :
  find_sub s p = Some k ->
  s = take k s ++ p ++ drop (k + length p) s.
Proof.
  revert k. induction s as [|x s IH]; intros k; cbn [find_sub].
  - destruct (startswith [] p) eqn:E; [|discriminate].
    intros [= <-]. apply startswith_spec in E as [t E].
    symmetry in E. apply app_eq_nil in E as [-> ->]. reflexivity.
  - destruct (startswith (x :: s) p) eqn:E.
    + intros [= <-]. apply startswith_spec in E as [t E]. rewrite E.
      cbn [take app Nat.add]. rewrite drop_app_length. reflexivity.
    + destruct (find_sub s p) as [k'|] eqn:Ek; [|discriminate].
      cbn. intros [= <-]. cbn [take drop Nat.add app].
      f_equal. exact (IH k' eq_refl).
Qed.

Lemma find_sub_None s p : find_sub s p = None <-> contains s p = false.
Proof.
  induction s as [|x s IH]; cbn [find_sub contains].
  - destruct (startswith [] p); cbn; split; congruence.
  - destruct (startswith (x :: s) p); cbn; [split; congruence|].
    rewrite <- IH. destruct (find_sub s p); cbn; split; congruence.
Qed.

Lemma skip_line_spec s :
  s = take (fst (skip_line s)) s ++ snd (skip_line s)
  /\ (LF ∉ take (fst (skip_line s)) s)
  /\ (snd (skip_line s) = [] \/ exists r, snd (skip_line s) = LF :: r).
Proof.
  induction s as [|c s (IH1 & IH2 & IH3)]; cbn [skip_line].
  - cbn. split; [reflexivity|]. split; [apply not_elem_of_nil|left; reflexivity].
  - destruct (N.eqb_spec c LF) as [->|Hc].
    + cbn. split; [reflexivity|]. split; [apply not_elem_of_nil|right; eauto].
    + destruct (skip_line s) as [n r]. cbn [fst snd take app] in *.
      split; [f_equal; exact IH1|].
      split; [apply not_elem_of_cons; split; [congruence|exact IH2]|exact IH3].
Qed.

Section Titles.

Variable isalpha : N -> bool.

Lemma title_start_from_spec n i s :
  (Parser2.title_start_from isalpha n i s = 0
   /\ forall j c, s !! j = Some c -> n < i + j -> isalpha c = false)
  \/ (exists j c,
        Parser2.title_start_from isalpha n i s = i + j
        /\ n < i + j /\ s !! j = Some c /\ isalpha c = true
        /\ forall k c', k < j -> s !! k = Some c' -> n < i + k ->
                        isalpha c' = false).
Proof.
  revert i. induction s as [|c s IH]; intros i; cbn [Parser2.title_start_from].
  - left. split; [reflexivity|]. intros j c H. rewrite lookup_nil in H.
    discriminate.
  - destruct ((n <? i) && isalpha c) eqn:E.
    + apply andb_true_iff in E as [Hn Ha]. apply Nat.ltb_lt in Hn.
      right. exists 0, c. rewrite Nat.add_0_r.
      repeat split; [exact Hn|exact Ha|]. intros k c' Hk. lia.
    + assert (Hc : n < i -> isalpha c = false).
      { intros Hn. apply Nat.ltb_lt in Hn. rewrite Hn in E. exact E. }
      destruct (IH (S i)) as [[E0 Hall]|(j & c0 & Ej & Hn & Hj & Ha & Hbefore)].
      * left. split; [exact E0|]. intros [|j] c' Hj Hn; cbn in Hj.
        -- injection Hj as <-. apply Hc. lia.
        -- apply (Hall j c' Hj). lia.
      * right. exists (S j), c0. split; [rewrite Ej; lia|].
        split; [lia|]. split; [exact Hj|]. split; [exact Ha|].
        intros [|k] c' Hk Hl Hnk; cbn in Hl.
        -- injection Hl as <-. apply Hc. lia.
        -- apply (Hbefore k c'); [lia|exact Hl|lia].
Qed.

(** In [parser2.py] the title of a boundary line starts at the first
    letter found behind the ordinal token and the character after it;
    without such a letter it is the placeholder. *)
Lemma parser2_title (header_line : list N) :
  (Parser2.q_title_suffix isalpha header_line = lit "Unknown"
   /\ forall j c, length (Parser2.q_id header_line) < j ->
                  header_line !! j = Some c -> isalpha c = false)
  \/ (exists sep c t,
        header_line = Parser2.q_id header_line ++ sep ++ c :: t
        /\ sep <> []
        /\ Forall (fun x => isalpha x = false) (tail sep)
        /\ isalpha c = true
        /\ Parser2.q_title_suffix isalpha header_line = c :: t).
Proof.
  unfold Parser2.q_title_suffix, Parser2.title_start.
  set (n := length (Parser2.q_id header_line)).
  destruct (title_start_from_spec n 0 header_line)
    as [[E0 Hall]|(j & c & Ej & Hn & Hj & Ha & Hbefore)].
  - left. rewrite E0. cbn. split; [reflexivity|].
    intros j c Hlt Hj. apply (Hall j c Hj). lia.
  - right. cbn [Nat.add] in Ej, Hn. rewrite Ej.
    destruct (q_id_prefix header_line) as (rest & Erest & _ & _).
    exists (drop n (take j header_line)), c, (drop (S j) header_line).
    assert (Etake : take j header_line
                    = Parser2.q_id header_line ++ drop n (take j header_line)).
    { rewrite <- (take_drop n (take j header_line)) at 1. f_equal.
      rewrite take_take. replace (n `min` j) with n by lia.
      rewrite Erest at 1. apply take_app_length. }
    split; [|split; [|split; [|split]]].
    + rewrite app_assoc, <- Etake. symmetry. apply take_drop_middle. exact Hj.
    + intros E. apply (f_equal length) in E. rewrite length_drop, length_take in E.
      apply lookup_lt_Some in Hj. cbn in E. lia.
    + apply Forall_lookup. intros k x Hk. rewrite lookup_tail, lookup_drop in Hk.
      apply lookup_take_Some in Hk as [Hk Hlt].
      apply (Hbefore (n + S k) x); [lia|exact Hk|lia].
    + exact Ha.
    + replace (0 <? j) with true by (symmetry; apply Nat.ltb_lt; lia).
      apply drop_S. exact Hj.
Qed.

End Titles.

(** In [generate_questions_c_l3.py] the title is what follows the first
    em dash and space of the block, up to the end of that line; a block
    without them gets the numbered fallback. *)
Lemma c_l3_title (i : nat) (block : list N) :
  (contains block [EM_DASH; SPACE] = false /\
   GenCL3.block_title i block
   = lit "Level 3 " ++ [EN_DASH] ++ lit " Question " ++ str_of_nat i)
  \/ (exists pre t rest,
        block = pre ++ [EM_DASH; SPACE] ++ t ++ rest
        /\ (LF ∉ t) /\ (rest = [] \/ exists r, rest = LF :: r)
        /\ find_sub block [EM_DASH; SPACE] = Some (length pre)
        /\ GenCL3.block_title i block = t).
Proof.
  unfold GenCL3.block_title.
  destruct (find_sub block [EM_DASH; SPACE]) as [p|] eqn:E.
  - right. pose proof (find_sub_Some _ _ _ E) as Hb. cbn [length] in Hb.
    destruct (skip_line_spec (drop (p + 2) block)) as (H1 & H2 & H3).
    assert (Hp : length (take p block) = p).
    { apply length_take_le. apply (f_equal length) in Hb.
      rewrite !length_app, length_take, length_drop in Hb. cbn in Hb. lia. }
    exists (take p block), (take (fst (skip_line (drop (p + 2) block)))
                              (drop (p + 2) block)),
      (snd (skip_line (drop (p + 2) block))).
    split; [rewrite <- H1; exact Hb|]. split; [exact H2|]. split; [exact H3|].
    split; [rewrite Hp; reflexivity|reflexivity].
  - left. split; [apply find_sub_None; exact E|reflexivity].
Qed.

(** C9, as the code has it: in [parser2.py] the ordinal token is the
    beginning of the stripped boundary line up to its first space, and
    the title is the rest of the line from its first letter on, a letter
    right behind the token not counting: what lies between, a separating
    dash or the first characters of a title that are no letters, is
    dropped; without such a letter the title is the placeholder
    [Unknown].  In [generate_questions_c_l3.py] the title is what
    follows the first em dash and space of the block, to the end of that
    line, and the numbered fallback without them.  Both are total: no
    error. *)
Theorem C9_title (isalpha : N -> bool) (line block : list N) (i : nat) :
  (exists rest,
     strip line = Parser2.q_id (strip line) ++ rest
     /\ (rest = [] \/ exists r, rest = SPACE :: r)
     /\ (SPACE ∉ Parser2.q_id (strip line)))
  /\ ((Parser2.q_title_suffix isalpha (strip line) = lit "Unknown"
       /\ forall j c, length (Parser2.q_id (strip line)) < j ->
                      strip line !! j = Some c -> isalpha c = false)
      \/ (exists sep c t,
            strip line = Parser2.q_id (strip line) ++ sep ++ c :: t
            /\ sep <> []
            /\ Forall (fun x => isalpha x = false) (tail sep)
            /\ isalpha c = true
            /\ Parser2.q_title_suffix isalpha (strip line) = c :: t))
  /\ ((contains block [EM_DASH; SPACE] = false /\
       GenCL3.block_title i block
       = lit "Level 3 " ++ [EN_DASH] ++ lit " Question " ++ str_of_nat i)
      \/ (exists pre t rest,
            block = pre ++ [EM_DASH; SPACE] ++ t ++ rest
            /\ (LF ∉ t) /\ (rest = [] \/ exists r, rest = LF :: r)
            /\ find_sub block [EM_DASH; SPACE] = Some (length pre)
            /\ GenCL3.block_title i block = t)).
Proof.
  split; [apply q_id_prefix|]. split; [apply parser2_title|apply c_l3_title].
Qed.

(** C9 as the specification words it fails: the title of the boundary
    line [Q3 — 2D Arrays] comes out without its first character, which
    is no letter (on the characters of this line the ASCII table agrees
    with Python's); and a block whose boundary line has no em dash takes
    its title from a later line that has one. *)
Lemma C9_title_loses_leading_digit :
  Parser2.q_title_suffix ascii_isalpha (strip header_2d_arrays)
  = lit "D Arrays"
  /\ spec_title (strip header_2d_arrays) = lit "2D Arrays"
  /\ Parser2.q_title_suffix ascii_isalpha (strip header_2d_arrays)
     <> spec_title (strip header_2d_arrays)
  /\ GenCL3.block_title 1 block_dash_in_body = lit "because".
Proof. vm_compute. repeat split; discriminate. Qed.

(** ** Runs without boundaries *)

(** C7, as the code has it: when no boundary is found, each script stops
    after its notice and emits no generated code and writes no file;
    [parse_questions.py] prints, after its notice, the first 500
    characters of the document (an excerpt of its start when the document
    is not empty); [parser2.py] prints the line and question counts only
    and exits with status 0; [generate_puzzles.py] prints its notice
    only. *)
Theorem C7_no_boundaries (isdigit re_digit : N -> bool)
    (lines : list (list N)) (content puzzles : list N) :
  (ParseQuestions.matches re_digit content = [] ->
   ParseQuestions.run re_digit (Some content)
   = ([ Print (lit "No matches found for question pattern.");
        Print (lit "First 500 chars:");
        Print (take 500 content) ], Finished)
   /\ (content <> [] ->
       shows_excerpt content
         (fst (ParseQuestions.run re_digit (Some content))) = true))
  /\ (Parser2.q_starts isdigit lines = [] ->
      Parser2.run isdigit (Some lines)
      = ([ Print (lit "SCRIPT STARTED");
           Print (lit "Reading " ++ file_path);
           Print (lit "Read " ++ str_of_nat (length lines) ++ lit " lines");
           Print (lit "Found 0 questions") ], Exited 0))
  /\ (GenPuzzles.starts puzzles = [] ->
      GenPuzzles.parse_puzzles puzzles
      = ([Print (lit "No start patterns found!")], Finished)).
Proof.
  split; [|split].
  - intros E. unfold ParseQuestions.run. rewrite E. split; [reflexivity|].
    intros Hne. destruct content as [|c content]; [congruence|].
    cbn [fst]. unfold shows_excerpt. cbn [existsb].
    apply orb_true_iff; right. apply orb_true_iff; right.
    apply orb_true_iff; left. cbn [take existsb]. rewrite N.eqb_refl.
    reflexivity.
  - intros E. unfold Parser2.run. rewrite E. reflexivity.
  - intros E. unfold GenPuzzles.parse_puzzles. rewrite E. reflexivity.
Qed.

Lemma C7_no_boundaries_witness :
  ParseQuestions.run ascii_isdigit (Some no_boundary_text)
  = ([ Print (lit "No matches found for question pattern.");
       Print (lit "First 500 chars:");
       Print no_boundary_text ], Finished)
  /\ snd (Parser2.run ascii_isdigit (Some no_boundary_lines)) = Exited 0
  /\ GenPuzzles.parse_puzzles no_boundary_text
     = ([Print (lit "No start patterns found!")], Finished).
Proof.
  pose proof (C7_no_boundaries ascii_isdigit ascii_isdigit no_boundary_lines
                no_boundary_text no_boundary_text) as (H1 & H2 & H3).
  split; [exact (proj1 (H1 ltac:(vm_compute; reflexivity)))|].
  split; [rewrite (H2 ltac:(vm_compute; reflexivity)); reflexivity|].
  exact (H3 ltac:(vm_compute; reflexivity)).
Defined.

(** C7 as the specification words it fails: on a non-empty document
    without boundaries, [parser2.py] and [generate_puzzles.py] print
    nothing of the document, not even its first character. *)
Lemma C7_no_excerpt_in_parser2 :
  Parser2.q_starts ascii_isdigit no_boundary_lines = []
  /\ Parser2.run ascii_isdigit (Some no_boundary_lines)
     = ([ Print (lit "SCRIPT STARTED");
          Print (lit "Reading " ++ file_path);
          Print (lit "Read 1 lines");
          Print (lit "Found 0 questions") ], Exited 0)
  /\ shows_excerpt (concat no_boundary_lines)
       (fst (Parser2.run ascii_isdigit (Some no_boundary_lines))) = false
  /\ GenPuzzles.starts no_boundary_text = []
  /\ shows_excerpt no_boundary_text
       (fst (GenPuzzles.parse_puzzles no_boundary_text)) = false.
Proof. vm_compute. repeat split. Qed.

(** ** The block loop of [generate_puzzles.py] *)

(** Every block adds its entry to the generated code. *)
Lemma try_blocks_puzzle_entry i blocks code :
  GenPuzzles.try_blocks i blocks code
  = code ++ concat (imap (fun k block => GenPuzzles.puzzle_entry (i + k) block)
                      blocks).
Proof.
  revert i code. induction blocks as [|b bs IH]; intros i code.
  - cbn. rewrite app_nil_r. reflexivity.
  - cbn [GenPuzzles.try_blocks]. rewrite IH, imap_cons. cbn [concat].
    rewrite Nat.add_0_r, <- app_assoc. do 3 f_equal.
    apply imap_ext. intros k x _. unfold compose.
    replace (S i + k) with (i + S k) by lia. reflexivity.
Qed.

(** ** The sample document, evaluated *)

Example sample_parser2_spans :
  Parser2.q_starts ascii_isdigit sample_document_lines = [1; 5]
  /\ Parser2.spans ascii_isdigit sample_document_lines = [(1, 5); (5, 8)]
  /\ map identifier (Parser2.questions ascii_isdigit sample_document_lines)
     = [lit "Q1"; lit "Q2"]
  /\ map initialCode (Parser2.questions ascii_isdigit sample_document_lines)
     = [lit "print(x"; []]
  /\ map riddle (Parser2.questions ascii_isdigit sample_document_lines)
     = [[]; lit "a \ b"].
Proof. vm_compute. repeat split. Qed.

Example sample_parse_questions_matches :
  map (fun m => (ParseQuestions.m_start m, ParseQuestions.m_end m))
    (ParseQuestions.matches ascii_isdigit sample_document)
  = [(6, 21)]
  /\ map ParseQuestions.group2
       (ParseQuestions.matches ascii_isdigit sample_document)
     = [lit "Print Typo"]
  /\ length (ParseQuestions.questions ascii_isdigit sample_document) = 1.
Proof. vm_compute. repeat split. Qed.

Example sample_titles :
  Parser2.q_title_suffix ascii_isalpha
    (Parser2.header_line sample_document_lines 1) = lit "Print Typo"
  /\ Parser2.q_title_suffix ascii_isalpha
       (Parser2.header_line sample_document_lines 5) = lit "Unknown"
  /\ GenCL3.block_title 4 (lit " Pointer Basics" ++ [LF])
     = lit "Level 3 " ++ [EN_DASH] ++ lit " Question 4".
Proof. vm_compute. repeat split. Qed.

(** * Further properties of the code *)

(** ** Escaped texts as literals *)

Lemma well_escaped_escape_char c t :
  well_escaped (escape_char c ++ t) = well_escaped t.
Proof.
  unfold escape_char, BACKSLASH, DQUOTE, LF.
  destruct (N.eqb_spec c 92) as [->|Hb]; [reflexivity|].
  destruct (N.eqb_spec c 34) as [->|Hq]; [reflexivity|].
  destruct (N.eqb_spec c 10) as [->|Hn]; [reflexivity|].
  cbn [app well_escaped]. unfold BACKSLASH, DQUOTE, LF.
  rewrite (proj2 (N.eqb_neq c 92)), (proj2 (N.eqb_neq c 34)),
    (proj2 (N.eqb_neq c 10)) by congruence.
  reflexivity.
Qed.

Lemma count_lf_app s t : count_lf (s ++ t) = count_lf s + count_lf t.
Proof. unfold count_lf. rewrite List.filter_app, length_app. reflexivity. Qed.

Lemma count_lf_escape_char c : count_lf (escape_char c) = 0.
Proof.
  unfold escape_char, BACKSLASH, DQUOTE, LF.
  destruct (N.eqb_spec c 92) as [->|Hb]; [reflexivity|].
  destruct (N.eqb_spec c 34) as [->|Hq]; [reflexivity|].
  destruct (N.eqb_spec c 10) as [->|Hn]; [reflexivity|].
  unfold count_lf, LF. cbn [List.filter].
  rewrite (proj2 (N.eqb_neq 10 c)) by congruence. reflexivity.
Qed.

Lemma count_lf_escape s : count_lf (escape_swift_string s) = 0.
Proof.
  rewrite escape_swift_string_flat_map.
  induction s as [|c s IH]; [reflexivity|].
  cbn [flat_map]. rewrite count_lf_app, count_lf_escape_char, IH. reflexivity.
Qed.

Lemma count_lf_esc s : count_lf (esc s) = 0.
Proof. exact (count_lf_escape s). Qed.

(** X1: whatever the text, its escaped form can stand between two double
    quotes on one line: read left to right it holds no line feed, no
    double quote outside a backslash pair, no backslash pair other than
    the three the generators emit, and it does not end on a lone
    backslash.  The same for [esc]. *)
Theorem X1_escaped_text_is_literal_safe (s : list N) :
  well_escaped (escape_swift_string s) = true
  /\ well_escaped (esc s) = true
  /\ count_lf (escape_swift_string s) = 0
  /\ count_lf (esc s) = 0.
Proof.
  assert (H : well_escaped (escape_swift_string s) = true).
  { rewrite escape_swift_string_flat_map.
    induction s as [|c s IH]; [reflexivity|].
    cbn [flat_map]. rewrite well_escaped_escape_char. exact IH. }
  split; [exact H|]. split; [exact H|].
  split; [apply count_lf_escape|apply count_lf_esc].
Qed.

(** The raw text itself need not be safe, so the escaping is what makes
    it so. *)
Example raw_text_not_literal_safe :
  well_escaped (lit "a" ++ [DQUOTE]) = false
  /\ well_escaped (lit "a" ++ [BACKSLASH]) = false
  /\ well_escaped (escape_swift_string (lit "a" ++ [DQUOTE; BACKSLASH; LF]))
     = true.
Proof. vm_compute. repeat split. Qed.

(** ** More on the line loop of the two parsers *)

Lemma lstrip_idemp s : lstrip (lstrip s) = lstrip s.
Proof.
  induction s as [|c s IH]; [reflexivity|]. cbn [lstrip].
  destruct (isspace c) eqn:E; [exact IH|]. cbn [lstrip]. rewrite E. reflexivity.
Qed.

Lemma strip_idemp s : strip (strip s) = strip s.
Proof.
  unfold strip. rewrite (lstrip_rstrip (lstrip s)), lstrip_idemp.
  apply rstrip_idemp.
Qed.

Lemma lstrip_head s c : head (lstrip s) = Some c -> isspace c = false.
Proof.
  induction s as [|x s IH]; cbn [lstrip]; [discriminate|].
  destruct (isspace x) eqn:E; [exact IH|]. cbn. congruence.
Qed.

Lemma rstrip_last s c : last (rstrip s) = Some c -> isspace c = false.
Proof.
  induction s as [|x s IH]; [discriminate|]. rewrite rstrip_cons.
  case_bool_decide as Hs.
  - destruct (isspace x) eqn:E; cbn; [discriminate|congruence].
  - destruct (rstrip s) as [|y r] eqn:Er; [congruence|].
    rewrite last_cons_cons. exact IH.
Qed.

Lemma strip_head s c : head (strip s) = Some c -> isspace c = false.
Proof. unfold strip. rewrite <- lstrip_rstrip. apply lstrip_head. Qed.

Lemma strip_last s c : last (strip s) = Some c -> isspace c = false.
Proof. unfold strip. apply rstrip_last. Qed.

Section ScanMore.

Variable is_hdr : list N -> list N -> bool.
Variable keep : list N -> list N.

Local Abbreviation hdr_of := (fun line => find_header is_hdr (strip line)).
Local Abbreviation step := (scan_step is_hdr keep).

(** Every text the loop stores is a stripped text. *)
Lemma flush_stripped st :
  (forall r v, fields st !! r = Some v -> exists x, v = strip x) ->
  forall r v, flush st !! r = Some v -> exists x, v = strip x.
Proof.
  intros H r v. unfold flush. destruct (current_header st) as [[h role]|];
    [|apply H].
  rewrite lookup_insert. case_decide; [|apply H].
  intros [= <-]. eauto.
Qed.

Lemma fold_stripped lines st :
  (forall r v, fields st !! r = Some v -> exists x, v = strip x) ->
  forall r v, flush (fold_left step lines st) !! r = Some v ->
              exists x, v = strip x.
Proof.
  revert st. induction lines as [|l ls IH]; intros st H; [apply flush_stripped, H|].
  cbn [fold_left]. apply IH. unfold scan_step.
  destruct (find_header is_hdr (strip l)) as [e|];
    [cbn [fields]; apply flush_stripped, H|].
  destruct (current_header st); exact H.
Qed.

Lemma scan_fields_stripped lines r v :
  scan_fields is_hdr keep lines !! r = Some v -> exists x, v = strip x.
Proof.
  apply fold_stripped. intros r' v'. cbn. rewrite lookup_empty. discriminate.
Qed.

(** Lines read before any label line leave the loop where it started. *)
Lemma fold_prelude pre :
  Forall (fun l => hdr_of l = None) pre ->
  fold_left step pre scan_init = scan_init.
Proof.
  induction 1 as [|l ls Hl _ IH]; [reflexivity|].
  cbn [fold_left]. unfold scan_step at 2. rewrite Hl. cbn. exact IH.
Qed.

Lemma scan_fields_prelude pre rest :
  Forall (fun l => hdr_of l = None) pre ->
  scan_fields is_hdr keep (pre ++ rest) = scan_fields is_hdr keep rest.
Proof.
  intros H. unfold scan_fields. rewrite fold_left_app, (fold_prelude pre H).
  reflexivity.
Qed.

(** The roles of the mapping are those of the label lines met. *)
Lemma scan_fields_is_Some lines r :
  is_Some (scan_fields is_hdr keep lines !! r) <->
  exists l h, In l lines /\ hdr_of l = Some (h, r).
Proof.
  split.
  - intros Hs.
    assert (Hdec : forall l, {forall e, hdr_of l = Some e -> snd e <> r}
                             + {exists h, hdr_of l = Some (h, r)}).
    { intros l. destruct (find_header is_hdr (strip l)) as [[h role]|].
      - destruct (decide (role = r)) as [->|Hne]; [right; eauto|].
        left. intros e [= <-]. exact Hne.
      - left. discriminate. }
    destruct (Forall_Exists_dec _ _ Hdec lines) as [Hall|Hex].
    + rewrite (scan_fields_absent is_hdr keep lines r Hall) in Hs.
      destruct Hs as [v Hv]. discriminate.
    + apply Exists_exists in Hex as (l' & Hin & h & Hl').
      exists l', h. split; [apply list_elem_of_In; exact Hin|exact Hl'].
  - intros (l & h & Hin & Hl). apply in_split in Hin as (l1 & l2 & ->).
    exact (scan_fields_present is_hdr keep l1 l l2 (h, r) Hl).
Qed.

Lemma flush_agree_off k st st' r :
  agree_off k st st' -> r <> k -> flush st !! r = flush st' !! r.
Proof.
  intros (Hc & Hf & Hcc) Hr. unfold flush. rewrite <- Hc.
  destruct (current_header st) as [[h role]|] eqn:E; [|apply Hf, Hr].
  destruct (decide (role = k)) as [->|Hne].
  - rewrite !lookup_insert_ne by congruence. apply Hf, Hr.
  - rewrite <- Hcc by (intros e [= <-]; exact Hne).
    rewrite !lookup_insert. case_decide; [reflexivity|apply Hf, Hr].
Qed.

Lemma step_agree_off k st st' l :
  agree_off k st st' -> agree_off k (step st l) (step st' l).
Proof.
  intros H. pose proof H as (Hc & Hf & Hcc). unfold scan_step.
  destruct (find_header is_hdr (strip l)) as [e|].
  - split; [reflexivity|]. split; [|reflexivity].
    cbn [fields]. intros r Hr. exact (flush_agree_off k st st' r H Hr).
  - rewrite <- Hc. destruct (current_header st) as [e|] eqn:E; [|exact H].
    split; [reflexivity|]. split; [exact Hf|].
    cbn [current_header current_content]. intros Hk.
    rewrite Hcc; [reflexivity|exact Hk].
Qed.

Lemma fold_agree_off k lines st st' :
  agree_off k st st' ->
  agree_off k (fold_left step lines st) (fold_left step lines st').
Proof.
  revert st st'. induction lines as [|l ls IH]; intros st st' H; [exact H|].
  cbn [fold_left]. apply IH, step_agree_off, H.
Qed.

(** What stands under the label of role [k] matters to the entry of
    [k] only. *)
Lemma scan_fields_section_local pre hl c1 c2 rest e r :
  hdr_of hl = Some e ->
  Forall (fun l => hdr_of l = None) c1 ->
  Forall (fun l => hdr_of l = None) c2 ->
  r <> snd e ->
  scan_fields is_hdr keep (pre ++ hl :: c1 ++ rest) !! r
  = scan_fields is_hdr keep (pre ++ hl :: c2 ++ rest) !! r.
Proof.
  intros Hhl H1 H2 Hr. unfold scan_fields.
  change (hl :: c1 ++ rest) with ([hl] ++ c1 ++ rest).
  change (hl :: c2 ++ rest) with ([hl] ++ c2 ++ rest).
  rewrite !fold_left_app. cbn [fold_left].
  set (st1 := fold_left step pre scan_init).
  rewrite (scan_step_header is_hdr keep st1 hl e Hhl).
  rewrite (run_scan_content is_hdr keep c1 _ e [] H1).
  rewrite (run_scan_content is_hdr keep c2 _ e [] H2).
  apply (flush_agree_off (snd e)); [|exact Hr].
  apply fold_agree_off. split; [reflexivity|]. split; [reflexivity|].
  cbn [current_header]. intros Hk. exfalso. exact (Hk e eq_refl eq_refl).
Qed.

End ScanMore.

(** X2: every text in the mapping the two parsers extract is a stripped
    text: stripping it again changes nothing, and neither its first nor
    its last character is white space. *)
Theorem X2_field_texts_are_stripped (body_lines : list (list N))
    (body : list N) (r : string) (v : list N) :
  Parser2.extract_fields body_lines !! r = Some v
  \/ ParseQuestions.extract_fields body !! r = Some v ->
  strip v = v
  /\ (forall c, head v = Some c -> isspace c = false)
  /\ (forall c, last v = Some c -> isspace c = false).
Proof.
  intros H.
  assert (Hx : exists x, v = strip x).
  { destruct H as [H|H]; exact (scan_fields_stripped _ _ _ _ _ H). }
  destruct Hx as [x ->]. split; [apply strip_idemp|].
  split; intros c; [apply strip_head|apply strip_last].
Qed.

Lemma X2_field_texts_are_stripped_witness :
  strip (lit "print(x" ++ [LF; LF] ++ lit "  y = 2")
  = lit "print(x" ++ [LF; LF] ++ lit "  y = 2".
Proof.
  apply (X2_field_texts_are_stripped sample_body [] "initialCode"%string).
  left. vm_compute. reflexivity.
Defined.

(** X3: the mapping has an entry for a role exactly when some line of
    the span is a label line of that role (so its keys are among the
    eight role names), in [parser2.py] and in [parse_questions.py]. *)
Theorem X3_mapping_roles (body_lines : list (list N)) (body : list N)
    (r : string) :
  (is_Some (Parser2.extract_fields body_lines !! r) <->
   exists l h, In l body_lines
               /\ find_header Parser2.is_header (strip l) = Some (h, r))
  /\ (is_Some (ParseQuestions.extract_fields body !! r) <->
      exists l h, In l (split LF body)
                  /\ find_header ParseQuestions.is_header (strip l) = Some (h, r))
  /\ (is_Some (Parser2.extract_fields body_lines !! r)
      \/ is_Some (ParseQuestions.extract_fields body !! r) ->
      In r (map snd headers_map)).
Proof.
  split; [apply scan_fields_is_Some|]. split; [apply scan_fields_is_Some|].
  intros [H|H]; apply scan_fields_is_Some in H as (l & h & _ & Hl);
    apply find_header_Some in Hl as [Hin _];
    exact (in_map snd headers_map (h, r) Hin).
Qed.

Lemma X3_mapping_roles_witness :
  In "initialCode"%string (map snd headers_map).
Proof.
  apply (X3_mapping_roles sample_body [] "initialCode"%string).
  left. vm_compute. eauto.
Defined.

(** X4: the sections [Answer] and [Hidden Test Cases (Logic-validated)]
    are read but never emitted: the question built from a span, and so
    its generated code, stays the same whatever stands under one of these
    two labels. *)
Theorem X4_answer_text_not_emitted (pre c1 c2 rest : list (list N))
    (hl q_id : list N) (e : list N * string) :
  find_header Parser2.is_header (strip hl) = Some e ->
  snd e = "answer"%string \/ snd e = "hiddenTests"%string ->
  Forall (fun l => find_header Parser2.is_header (strip l) = None) c1 ->
  Forall (fun l => find_header Parser2.is_header (strip l) = None) c2 ->
  make_question q_id (Parser2.extract_fields (pre ++ hl :: c1 ++ rest))
  = make_question q_id (Parser2.extract_fields (pre ++ hl :: c2 ++ rest))
  /\ swift_question
       (make_question q_id (Parser2.extract_fields (pre ++ hl :: c1 ++ rest)))
     = swift_question
         (make_question q_id (Parser2.extract_fields (pre ++ hl :: c2 ++ rest))).
Proof.
  intros Hhl Hrole H1 H2.
  assert (L : forall r, r <> snd e ->
            Parser2.extract_fields (pre ++ hl :: c1 ++ rest) !! r
            = Parser2.extract_fields (pre ++ hl :: c2 ++ rest) !! r).
  { intros r Hr.
    exact (scan_fields_section_local Parser2.is_header rstrip pre hl c1 c2 rest
             e r Hhl H1 H2 Hr). }
  assert (E : make_question q_id (Parser2.extract_fields (pre ++ hl :: c1 ++ rest))
            = make_question q_id (Parser2.extract_fields (pre ++ hl :: c2 ++ rest))).
  { unfold make_question, get_or_empty.
    rewrite !L by (destruct Hrole as [-> | ->]; discriminate). reflexivity. }
  split; [exact E|]. rewrite E. reflexivity.
Qed.

Lemma X4_answer_text_not_emitted_witness :
  make_question (lit "Q1")
    (Parser2.extract_fields
       [lit "Riddle" ++ [LF]; lit "r" ++ [LF]; lit "Answer" ++ [LF];
        lit "forty-two" ++ [LF]])
  = make_question (lit "Q1")
      (Parser2.extract_fields
         [lit "Riddle" ++ [LF]; lit "r" ++ [LF]; lit "Answer" ++ [LF]]).
Proof.
  apply (X4_answer_text_not_emitted
           [lit "Riddle" ++ [LF]; lit "r" ++ [LF]] [lit "forty-two" ++ [LF]] [] []
           (lit "Answer" ++ [LF]) (lit "Q1") (lit "Answer", "answer"%string)).
  - vm_compute. reflexivity.
  - left. reflexivity.
  - repeat constructor.
  - constructor.
Defined.

(** X5: what stands in a span before its first label line is ignored:
    the mapping is that of the lines from the first label line on, and a
    span without any label line gives the empty mapping. *)
Theorem X5_text_before_first_label_ignored (pre rest : list (list N)) :
  Forall (fun l => find_header Parser2.is_header (strip l) = None) pre ->
  Parser2.extract_fields (pre ++ rest) = Parser2.extract_fields rest
  /\ Parser2.extract_fields pre = ∅.
Proof.
  intros H. split.
  - apply scan_fields_prelude. exact H.
  - rewrite <- (app_nil_r pre). unfold Parser2.extract_fields.
    rewrite (scan_fields_prelude Parser2.is_header rstrip pre [] H). reflexivity.
Qed.

Lemma X5_text_before_first_label_ignored_witness :
  Parser2.extract_fields
    [lit "a note" ++ [LF]; lit "Riddle" ++ [LF]; lit "r" ++ [LF]]
  = Parser2.extract_fields [lit "Riddle" ++ [LF]; lit "r" ++ [LF]].
Proof.
  apply (X5_text_before_first_label_ignored [lit "a note" ++ [LF]]
           [lit "Riddle" ++ [LF]; lit "r" ++ [LF]]).
  repeat constructor.
Defined.

(** ** The segmentation of [generate_puzzles.py] *)

Lemma contains_app a p b : contains (a ++ p ++ b) p = true.
Proof.
  induction a as [|x a IH].
  - cbn [app]. apply startswith_contains, startswith_app.
  - cbn [app contains]. rewrite IH. apply orb_true_r.
Qed.

Lemma find_sub_is_Some_app a p b : is_Some (find_sub (a ++ p ++ b) p).
Proof.
  destruct (find_sub (a ++ p ++ b) p) eqn:E; [eauto|].
  apply find_sub_None in E. rewrite contains_app in E. discriminate.
Qed.

Lemma skip_line_le s : fst (skip_line s) <= length s.
Proof.
  induction s as [|c s IH]; [reflexivity|]. cbn [skip_line].
  destruct (c =? LF)%N; [cbn; lia|].
  destruct (skip_line s) as [n r]. cbn [fst length] in *. lia.
Qed.

Lemma skip_newlines_spec s :
  s = replicate (fst (GenPuzzles.skip_newlines s)) LF
      ++ snd (GenPuzzles.skip_newlines s).
Proof.
  induction s as [|c s IH]; [reflexivity|]. cbn [GenPuzzles.skip_newlines].
  destruct (N.eqb_spec c LF) as [->|Hc]; [|reflexivity].
  destruct (GenPuzzles.skip_newlines s) as [n r]. cbn [fst snd] in *.
  cbn [replicate app]. f_equal. exact IH.
Qed.

(** A match of the start pattern: it begins with an ornament, ends with
    the label [Question:] and lies within the text. *)
Lemma match_start_spec s n :
  GenPuzzles.match_start s = Some n ->
  (exists c rest, s = c :: rest /\ GenPuzzles.ornament c = true)
  /\ 9 < n <= length s
  /\ exists a, take n s = a ++ lit "Question:".
Proof.
  unfold GenPuzzles.match_start. destruct s as [|c rest]; [discriminate|].
  destruct (GenPuzzles.ornament c) eqn:Eo; [|discriminate].
  pose proof (skip_line_spec (c :: rest)) as (H1 & _ & _).
  destruct (skip_line (c :: rest)) as [n1 r] eqn:E1. cbn [fst snd] in H1.
  pose proof (skip_newlines_spec r) as H2.
  destruct (GenPuzzles.skip_newlines r) as [k r'] eqn:E2. cbn [fst snd] in H2.
  destruct ((0 <? k) && startswith r' (lit "Question:")) eqn:E3; [|discriminate].
  intros [= <-]. apply andb_true_iff in E3 as [Hk Hq].
  apply Nat.ltb_lt in Hk. apply startswith_spec in Hq as [t Ht].
  split; [eauto|].
  assert (Hs : c :: rest
               = (take n1 (c :: rest) ++ replicate k LF) ++ lit "Question:" ++ t).
  { rewrite H1 at 1. rewrite H2 at 1. rewrite Ht. rewrite <- app_assoc.
    reflexivity. }
  assert (Hn1 : length (take n1 (c :: rest)) = n1).
  { apply length_take_le. pose proof (skip_line_le (c :: rest)) as Hle.
    rewrite E1 in Hle. exact Hle. }
  assert (Hlen : length (take n1 (c :: rest) ++ replicate k LF) = n1 + k).
  { rewrite length_app, Hn1, length_replicate. reflexivity. }
  split.
  - apply (f_equal length) in Hs.
    rewrite !length_app, Hn1, length_replicate in Hs.
    change (length (lit "Question:")) with 9 in Hs. lia.
  - exists (take n1 (c :: rest) ++ replicate k LF).
    rewrite Hs at 1. rewrite app_assoc.
    apply take_app_length'. rewrite length_app, Hlen. reflexivity.
Qed.

(** The starts found from position [pos] on, in the text [s] that begins
    there: each is the start of a match that lies within the text and
    ends before the next start. *)
Lemma starts_from_spec s : forall skip pos p,
  In p (GenPuzzles.starts_from skip pos s) ->
  pos + skip <= p
  /\ exists n, GenPuzzles.match_start (drop (p - pos) s) = Some n
               /\ p + n <= pos + length s
               /\ forall q, In q (GenPuzzles.starts_from skip pos s) ->
                            p < q -> p + n <= q.
Proof.
  induction s as [|c s IH]; intros skip pos p; cbn [GenPuzzles.starts_from];
    [intros []|].
  assert (Hshift : forall k, In p (GenPuzzles.starts_from k (S pos) s) ->
            pos + S k <= p
            /\ exists n, GenPuzzles.match_start (drop (p - pos) (c :: s)) = Some n
                         /\ p + n <= pos + length (c :: s)
                         /\ forall q, In q (GenPuzzles.starts_from k (S pos) s) ->
                                      p < q -> p + n <= q).
  { intros k Hin. destruct (IH k (S pos) p Hin) as (Hp & n & Hm & Hn & Hq).
    split; [lia|]. exists n.
    replace (p - pos) with (S (p - S pos)) by lia. cbn [drop length].
    split; [exact Hm|]. split; [lia|exact Hq]. }
  destruct skip as [|k].
  - destruct (GenPuzzles.match_start (c :: s)) as [n|] eqn:Em.
    + intros [<-|Hin].
      * split; [lia|]. exists n. rewrite Nat.sub_diag. cbn [drop].
        split; [exact Em|]. apply match_start_spec in Em as (_ & Hn & _).
        split; [lia|]. intros q [<-|Hq] Hlt; [lia|].
        destruct (IH (n - 1) (S pos) q Hq) as (Hq' & _). lia.
      * destruct (Hshift (n - 1) Hin) as (Hp & m & Hm & Hle & Hq).
        split; [lia|]. exists m. split; [exact Hm|]. split; [exact Hle|].
        intros q [<-|Hq'] Hlt; [lia|]. exact (Hq q Hq' Hlt).
    + intros Hin. destruct (Hshift 0 Hin) as (Hp & m & Hm & Hle & Hq).
      split; [lia|]. exists m. auto.
  - intros Hin. exact (Hshift k Hin).
Qed.

Lemma starts_from_sorted s : forall skip pos,
  StronglySorted lt (GenPuzzles.starts_from skip pos s)
  /\ Forall (fun p => pos <= p < pos + length s)
       (GenPuzzles.starts_from skip pos s).
Proof.
  induction s as [|c s IH]; intros skip pos; cbn [GenPuzzles.starts_from];
    [split; constructor|].
  assert (Hw : forall k,
            Forall (fun p => pos <= p < pos + length (c :: s))
              (GenPuzzles.starts_from k (S pos) s)).
  { intros k. destruct (IH k (S pos)) as [_ Hb].
    eapply Forall_impl; [exact Hb|]. cbn. intros; lia. }
  destruct skip as [|k]; [|split; [apply IH|apply Hw]].
  destruct (GenPuzzles.match_start (c :: s)) as [n|];
    [|split; [apply IH|apply Hw]].
  split.
  - constructor; [apply IH|]. destruct (IH (n - 1) (S pos)) as [_ Hb].
    eapply Forall_impl; [exact Hb|]. cbn. intros; lia.
  - constructor; [cbn; lia|apply Hw].
Qed.

Lemma puzzle_blocks_with_next content :
  GenPuzzles.puzzle_blocks content
  = map (fun pn => slice content (fst pn) (default (length content) (snd pn)))
      (with_next (GenPuzzles.starts content)).
Proof.
  unfold GenPuzzles.puzzle_blocks.
  rewrite <- (imap_with_next
                (fun a nx => slice content a (default (length content) nx))).
  apply imap_ext. intros i a Hi. cbn. f_equal.
  apply lookup_lt_Some in Hi.
  destruct (GenPuzzles.starts content !! (i + 1)) as [q|] eqn:Eq.
  - rewrite lookup_app_l by (apply lookup_lt_Some in Eq; exact Eq).
    rewrite Eq. reflexivity.
  - apply lookup_ge_None in Eq. rewrite lookup_app_r by exact Eq.
    replace (i + 1 - length (GenPuzzles.starts content)) with 0 by lia.
    reflexivity.
Qed.

(** Every position at which the pattern matches, and which no earlier
    match covers, is among the starts. *)
Lemma starts_from_complete s : forall skip pos p n,
  pos + skip <= p ->
  GenPuzzles.match_start (drop (p - pos) s) = Some n ->
  (forall q m, In q (GenPuzzles.starts_from skip pos s) -> q < p ->
               GenPuzzles.match_start (drop (q - pos) s) = Some m ->
               q + m <= p) ->
  In p (GenPuzzles.starts_from skip pos s).
Proof.
  induction s as [|c s IH]; intros skip pos p n Hp Hm Hq.
  { rewrite drop_nil in Hm. discriminate. }
  assert (Hshift : forall k,
            S pos + k <= p ->
            (forall q m, In q (GenPuzzles.starts_from k (S pos) s) -> q < p ->
                         GenPuzzles.match_start (drop (q - pos) (c :: s)) = Some m ->
                         q + m <= p) ->
            In p (GenPuzzles.starts_from k (S pos) s)).
  { intros k Hk Hq'. apply (IH k (S pos) p n Hk).
    - replace (p - pos) with (S (p - S pos)) in Hm by lia. exact Hm.
    - intros q m Hin Hlt Hmq. apply (Hq' q m Hin Hlt).
      destruct (starts_from_sorted s k (S pos)) as [_ Hb].
      pose proof (proj1 (Forall_forall _ _) Hb q
                    (proj2 (list_elem_of_In _ _) Hin)) as Hge.
      cbn beta in Hge.
      replace (q - pos) with (S (q - S pos)) by lia. exact Hmq. }
  cbn [GenPuzzles.starts_from] in Hq |- *. destruct skip as [|k].
  - revert Hq. destruct (GenPuzzles.match_start (c :: s)) as [n0|] eqn:E0;
      intros Hq.
    + destruct (decide (p = pos)) as [->|Hne]; [apply in_eq|].
      apply in_cons. assert (Hn0 : pos + n0 <= p).
      { apply (Hq pos n0); [apply in_eq|lia|].
        rewrite Nat.sub_diag. exact E0. }
      destruct (match_start_spec _ _ E0) as (_ & Hn9 & _).
      apply Hshift; [lia|].
      intros q m Hin. apply Hq. apply in_cons. exact Hin.
    + destruct (decide (p = pos)) as [->|Hne].
      { rewrite Nat.sub_diag in Hm. cbn [drop] in Hm. congruence. }
      apply Hshift; [lia|exact Hq].
  - apply Hshift; [lia|exact Hq].
Qed.

(** The starts are the positions at which the pattern matches and which
    no match that starts earlier covers. *)
Lemma starts_spec content p :
  In p (GenPuzzles.starts content)
  <-> is_Some (GenPuzzles.match_start (drop p content))
      /\ forall q n, In q (GenPuzzles.starts content) -> q < p ->
                     GenPuzzles.match_start (drop q content) = Some n ->
                     q + n <= p.
Proof.
  unfold GenPuzzles.starts. split.
  - intros Hin.
    destruct (starts_from_spec content 0 0 p Hin) as (_ & n & Hm & _).
    rewrite Nat.sub_0_r in Hm. split; [eauto|].
    intros q m Hq Hlt Hmq.
    destruct (starts_from_spec content 0 0 q Hq) as (_ & m' & Hm' & _ & Hnext).
    rewrite Nat.sub_0_r in Hm'. assert (m' = m) by congruence. subst m'.
    exact (Hnext p Hin Hlt).
  - intros [[n Hm] Hq]. apply (starts_from_complete content 0 0 p n).
    + lia.
    + rewrite Nat.sub_0_r. exact Hm.
    + intros q m Hin Hlt Hmq. rewrite Nat.sub_0_r in Hmq.
      exact (Hq q m Hin Hlt Hmq).
Qed.

Lemma skip_line_app a b :
  Forall (fun x => x <> LF) a -> (b = [] \/ exists r, b = LF :: r) ->
  skip_line (a ++ b) = (length a, b).
Proof.
  intros Ha Hb. induction Ha as [|x a Hx _ IH].
  - cbn [app length]. destruct Hb as [->|[r ->]]; [reflexivity|].
    cbn [skip_line]. rewrite N.eqb_refl. reflexivity.
  - cbn [app skip_line length]. rewrite (proj2 (N.eqb_neq x LF) Hx), IH.
    reflexivity.
Qed.

Lemma skip_newlines_replicate k r :
  (forall r', r <> LF :: r') ->
  GenPuzzles.skip_newlines (replicate k LF ++ r) = (k, r).
Proof.
  intros Hr. induction k as [|k IH].
  - cbn [replicate app]. destruct r as [|x r]; [reflexivity|].
    cbn [GenPuzzles.skip_newlines].
    destruct (N.eqb_spec x LF) as [->|_]; [exfalso; exact (Hr r eq_refl)|].
    reflexivity.
  - cbn [replicate app GenPuzzles.skip_newlines]. rewrite N.eqb_refl, IH.
    reflexivity.
Qed.

(** The start pattern at the head of a text: a digit or keycap
    character, the rest of its line, one or more line feeds and the
    label [Question:]; the match ends with the label. *)
Lemma match_start_shape s n :
  GenPuzzles.match_start s = Some n
  <-> exists c line k t,
        s = c :: line ++ replicate k LF ++ lit "Question:" ++ t
        /\ GenPuzzles.ornament c = true
        /\ Forall (fun x => x <> LF) line
        /\ 0 < k /\ n = 1 + length line + k + 9.
Proof.
  split.
  - unfold GenPuzzles.match_start. destruct s as [|c rest]; [discriminate|].
    destruct (GenPuzzles.ornament c) eqn:Eo; [|discriminate].
    assert (Hc : (c =? LF)%N = false).
    { destruct (N.eqb_spec c LF) as [->|]; [discriminate Eo|reflexivity]. }
    cbn [skip_line]. rewrite Hc.
    pose proof (skip_line_spec rest) as (H1 & Hno & _).
    pose proof (skip_line_le rest) as Hle.
    destruct (skip_line rest) as [n1 r] eqn:E1. cbn [fst snd] in H1, Hno, Hle.
    pose proof (skip_newlines_spec r) as H2.
    destruct (GenPuzzles.skip_newlines r) as [k r'] eqn:E2.
    cbn [fst snd] in H2.
    destruct ((0 <? k) && startswith r' (lit "Question:")) eqn:E3;
      [|discriminate].
    intros [= <-]. apply andb_true_iff in E3 as [Hk Hq].
    apply Nat.ltb_lt in Hk. apply startswith_spec in Hq as [t Ht].
    exists c, (take n1 rest), k, t. split; [|split; [exact Eo|split; [|split]]].
    + f_equal. rewrite H1 at 1. rewrite H2 at 1. rewrite Ht. reflexivity.
    + apply Forall_forall. intros x Hx ->. exact (Hno Hx).
    + exact Hk.
    + rewrite length_take_le by exact Hle. lia.
  - intros (c & line & k & t & -> & Ho & Hline & Hk & ->).
    unfold GenPuzzles.match_start. rewrite Ho.
    assert (Hc : c <> LF) by (intros ->; discriminate Ho).
    change (c :: line ++ replicate k LF ++ lit "Question:" ++ t)
      with ((c :: line) ++ replicate k LF ++ lit "Question:" ++ t).
    rewrite (skip_line_app (c :: line)).
    + rewrite skip_newlines_replicate by (intros r'; discriminate).
      rewrite (proj2 (Nat.ltb_lt 0 k) Hk), startswith_app. cbn [andb length].
      f_equal.
    + constructor; assumption.
    + right. destruct k as [|k]; [lia|]. cbn [replicate app]. eauto.
Qed.

(** X6: [generate_puzzles.py] cuts the text at the starts of the matches
    of its start pattern.  The pattern matches at the head of a text
    exactly when the text is a digit or keycap character, the rest of
    its line, one or more line feeds and the label [Question:], and the
    match ends with the label; a position is a start exactly when the
    pattern matches there and no match that starts earlier reaches over
    it (the search goes on behind each match); the starts come in
    increasing order, there is one block per start, the blocks put
    together are the text from the first start on, and every block
    begins with a digit or keycap character and holds the label
    [Question:], so that its description is always read from the block
    and the fallback text is never used. *)
Theorem X6_puzzle_blocks (content : list N) :
  (forall s n,
     GenPuzzles.match_start s = Some n
     <-> exists c line k t,
           s = c :: line ++ replicate k LF ++ lit "Question:" ++ t
           /\ GenPuzzles.ornament c = true
           /\ Forall (fun x => x <> LF) line
           /\ 0 < k /\ n = 1 + length line + k + 9)
  /\ (forall p,
        In p (GenPuzzles.starts content)
        <-> is_Some (GenPuzzles.match_start (drop p content))
            /\ forall q n, In q (GenPuzzles.starts content) -> q < p ->
                           GenPuzzles.match_start (drop q content) = Some n ->
                           q + n <= p)
  /\ StronglySorted lt (GenPuzzles.starts content)
  /\ length (GenPuzzles.puzzle_blocks content)
     = length (GenPuzzles.starts content)
  /\ concat (GenPuzzles.puzzle_blocks content)
     = drop (default (length content) (head (GenPuzzles.starts content)))
         content
  /\ (forall i block,
        GenPuzzles.puzzle_blocks content !! i = Some block ->
        (exists c rest, block = c :: rest /\ GenPuzzles.ornament c = true)
        /\ is_Some (GenPuzzles.question_group block)).
Proof.
  split; [exact match_start_shape|].
  split; [intros p; apply starts_spec|].
  destruct (starts_from_sorted content 0 0) as [Hs Hb].
  split; [exact Hs|].
  split; [unfold GenPuzzles.puzzle_blocks; apply length_imap|].
  split.
  { rewrite puzzle_blocks_with_next. apply concat_cuts; [exact Hs|].
    eapply Forall_impl; [exact Hb|]. cbn. intros; lia. }
  intros i block Hi. unfold GenPuzzles.puzzle_blocks in Hi.
  rewrite list_lookup_imap in Hi.
  destruct (GenPuzzles.starts content !! i) as [p|] eqn:Ep; [|discriminate].
  cbn in Hi. injection Hi as <-.
  assert (Hin : In p (GenPuzzles.starts_from 0 0 content)).
  { apply list_elem_of_In. eapply list_elem_of_lookup_2. exact Ep. }
  destruct (starts_from_spec content 0 0 p Hin) as (_ & n & Hm & Hn & Hq).
  rewrite Nat.sub_0_r in Hm. cbn [Nat.add] in Hn.
  set (e := default 0 ((GenPuzzles.starts content ++ [length content]) !! (i + 1))).
  assert (He : p + n <= e).
  { unfold e. pose proof (lookup_lt_Some _ _ _ Ep) as Hlt.
    destruct (GenPuzzles.starts content !! (i + 1)) as [q|] eqn:Eq.
    - rewrite lookup_app_l by (apply lookup_lt_Some in Eq; exact Eq).
      rewrite Eq. cbn. apply Hq.
      + apply list_elem_of_In. eapply list_elem_of_lookup_2. exact Eq.
      + exact (sorted_adjacent lt _ i p q Hs Ep Eq).
    - apply lookup_ge_None in Eq. rewrite lookup_app_r by exact Eq.
      replace (i + 1 - length (GenPuzzles.starts content)) with 0 by lia.
      cbn. exact Hn. }
  destruct (match_start_spec _ _ Hm) as ((c & rest & Hc & Ho) & Hn9 & a & Ha).
  assert (Hblock : slice content p e
                   = take n (drop p content) ++ drop n (slice content p e)).
  { unfold slice. rewrite <- (take_drop n (take (e - p) (drop p content))) at 1.
    f_equal. rewrite take_take. f_equal. lia. }
  split.
  - exists c. unfold slice. rewrite Hc. replace (e - p) with (S (e - p - 1)) by lia.
    cbn [take]. eauto.
  - unfold GenPuzzles.question_group.
    destruct (find_sub (slice content p e) (lit "Question:")) eqn:Ef; [cbn; eauto|].
    exfalso. rewrite Hblock, Ha, <- app_assoc in Ef.
    destruct (find_sub_is_Some_app a (lit "Question:")
                (drop n (slice content p e))) as [x Hx].
    rewrite Hx in Ef. discriminate.
Qed.

(** ** A run of [generate_puzzles.py] that finds puzzles *)

Lemma count_lf_quoted_field label value :
  count_lf (GenPuzzles.quoted_field label value)
  = count_lf (lit label) + count_lf value + 1.
Proof.
  unfold GenPuzzles.quoted_field. rewrite !count_lf_app.
  change (count_lf (lit "            ")) with 0.
  change (count_lf (lit ": ")) with 0.
  change (count_lf [DQUOTE]) with 0.
  change (count_lf (lit ",")) with 0.
  change (count_lf [LF]) with 1. lia.
Qed.

(** Every block adds exactly ten lines, whatever its text. *)
Lemma count_lf_puzzle_entry i block :
  count_lf (GenPuzzles.puzzle_entry i block) = 10.
Proof.
  unfold GenPuzzles.puzzle_entry. cbv zeta.
  rewrite !count_lf_app, !count_lf_quoted_field, !count_lf_app, !count_lf_esc.
  destruct (i =? 0); reflexivity.
Qed.

Lemma count_lf_concat_entries i blocks :
  count_lf (concat (imap (fun k block => GenPuzzles.puzzle_entry (i + k) block)
                      blocks))
  = 10 * length blocks.
Proof.
  revert i. induction blocks as [|b bs IH]; intros i; [reflexivity|].
  rewrite imap_cons. cbn [concat length].
  rewrite count_lf_app, count_lf_puzzle_entry.
  rewrite (imap_ext _ (fun k block => GenPuzzles.puzzle_entry (S i + k) block));
    [rewrite IH; lia|].
  intros k x _. unfold compose. f_equal. lia.
Qed.

(** X7: a run of [generate_puzzles.py] that finds at least one start
    prints the number of blocks, writes [puzzles_swift.txt] once, prints
    its last notice and then stops with [NameError] (the name [matches]
    it reads next is bound nowhere), so the second write is never
    reached; no block is skipped and no diagnostic is printed; the text
    written is the opening line, one entry of exactly ten lines per
    block, and the closing bracket. *)
Theorem X7_puzzles_run (content : list N) :
  GenPuzzles.starts content <> [] ->
  let blocks := GenPuzzles.puzzle_blocks content in
  let data := lit "static let allPuzzles: [Puzzle] = [" ++ [LF]
              ++ concat (imap GenPuzzles.puzzle_entry blocks)
              ++ lit "    ]" in
  GenPuzzles.parse_puzzles content
  = ([ Print (lit "Found " ++ str_of_nat (length (GenPuzzles.starts content))
              ++ lit " puzzle blocks.");
       WriteFile "puzzles_swift.txt" data;
       Print (lit "Generated code written to puzzles_swift.txt") ],
     Raised "NameError")
  /\ count_lf data = 1 + 10 * length (GenPuzzles.starts content).
Proof.
  intros Hne blocks data.
  assert (Hlen : length blocks = length (GenPuzzles.starts content))
    by (unfold blocks, GenPuzzles.puzzle_blocks; apply length_imap).
  split.
  - unfold GenPuzzles.parse_puzzles.
    destruct (GenPuzzles.starts content) as [|p ps] eqn:E; [congruence|].
    rewrite try_blocks_puzzle_entry. fold blocks. rewrite Hlen.
    cbn [app]. unfold data. rewrite <- !app_assoc. reflexivity.
  - unfold data. rewrite !count_lf_app.
    change (imap GenPuzzles.puzzle_entry blocks)
      with (imap (fun k block => GenPuzzles.puzzle_entry (0 + k) block) blocks).
    rewrite count_lf_concat_entries, Hlen.
    change (count_lf (lit "static let allPuzzles: [Puzzle] = [")) with 0.
    change (count_lf (lit "    ]")) with 0. change (count_lf [LF]) with 1. lia.
Qed.

Lemma X7_puzzles_run_witness :
  snd (GenPuzzles.parse_puzzles
         (lit "1 A" ++ [LF] ++ lit "Question: q" ++ [LF]))
  = Raised "NameError".
Proof.
  pose proof (X7_puzzles_run (lit "1 A" ++ [LF] ++ lit "Question: q" ++ [LF])
                ltac:(vm_compute; discriminate)) as [H _].
  rewrite H. reflexivity.
Defined.

(** ** The boundary pattern of [parse_questions.py] *)

Section BoundaryPattern.

Variable re_digit : N -> bool.

Local Abbreviation ascii_letter := ParseQuestions.ascii_letter.
Local Abbreviation title_group := ParseQuestions.title_group.
Local Abbreviation digits_then_title := (ParseQuestions.digits_then_title re_digit).
Local Abbreviation match_line := (ParseQuestions.match_line re_digit).

Lemma title_group_Some s g :
  title_group s = Some g ->
  exists mid c t, s = mid ++ c :: t /\ g = c :: t
                  /\ Forall (fun x => ascii_letter x = false) mid
                  /\ ascii_letter c = true /\ t <> [].
Proof.
  induction s as [|x s IH]; cbn [ParseQuestions.title_group]; [discriminate|].
  destruct (ascii_letter x && negb (bool_decide (s = []))) eqn:E.
  - intros [= <-]. apply andb_true_iff in E as [Hx Hs].
    apply negb_true_iff, bool_decide_eq_false in Hs.
    exists [], x, s. repeat split; [constructor|exact Hx|exact Hs].
  - intros H. destruct (IH H) as (mid & c & t & -> & -> & Hmid & Hc & Ht).
    exists (x :: mid), c, t. repeat split; [|exact Hc|exact Ht].
    constructor; [|exact Hmid].
    apply andb_false_iff in E as [E|E]; [exact E|].
    apply negb_false_iff, bool_decide_eq_true in E.
    destruct mid; discriminate.
Qed.


Lemma digits_then_title_Some s ds g :
  digits_then_title s = Some (ds, g) ->
  exists rest, s = ds ++ rest /\ ds <> []
               /\ Forall (fun x => re_digit x = true) ds
               /\ title_group rest = Some g.
Proof.
  revert ds g.
  induction s as [|x s IH]; intros ds g; cbn [ParseQuestions.digits_then_title];
    [discriminate|].
  destruct (re_digit x) eqn:Ex; [|discriminate].
  destruct (digits_then_title s) as [[ds' g']|] eqn:E.
  - intros [= <- <-]. destruct (IH ds' g' eq_refl) as (rest & -> & _ & Hd & Hg).
    exists rest. repeat split; [discriminate|constructor; assumption|exact Hg].
  - destruct (title_group s) as [t|] eqn:Et; [|discriminate].
    intros [= <- <-]. exists s. repeat split; [discriminate|repeat constructor; exact Ex|exact Et].
Qed.


Lemma match_line_Some line g1 g2 :
  match_line line = Some (g1, g2) ->
  exists ds mid c t,
    line = 81%N :: ds ++ mid ++ c :: t
    /\ g1 = 81%N :: ds /\ g2 = c :: t
    /\ ds <> [] /\ Forall (fun x => re_digit x = true) ds
    /\ Forall (fun x => ascii_letter x = false) mid
    /\ ascii_letter c = true /\ t <> [].
Proof.
  unfold ParseQuestions.match_line.
  destruct line as [|q rest]; [discriminate|].
  destruct (N.eqb_spec q 81) as [->|]; [|discriminate].
  destruct (digits_then_title rest) as [[ds g]|] eqn:E; [|discriminate].
  intros [= <- <-].
  apply digits_then_title_Some in E as (rest' & -> & Hne & Hd & Hg).
  apply title_group_Some in Hg as (mid & c & t & -> & -> & Hmid & Hc & Ht).
  exists ds, mid, c, t. repeat split; assumption.
Qed.



Variable isdigit : N -> bool.

(** X9: a line that [parse_questions.py] takes for a boundary is a
    question header for [parser2.py] too, with whatever follows it on
    the line (its line feed), as long as every character the pattern's
    [\d] accepts is a digit for [str.isdigit] (as it is in Python). *)
Theorem X9_boundaries_of_both_parsers (line rest : list N) :
  (forall c, re_digit c = true -> isdigit c = true) ->
  is_Some (match_line line) ->
  Parser2.is_question_header isdigit (line ++ rest) = true.
Proof.
  intros Htab [[g1 g2] Hm].
  destruct (match_line_Some line g1 g2 Hm)
    as (ds & mid & c & t & -> & _ & _ & Hne & Hd & _).
  destruct ds as [|d ds]; [congruence|].
  apply Forall_cons in Hd as [Hd _].
  unfold Parser2.is_question_header. cbn.
  rewrite (Htab d Hd). reflexivity.
Qed.

End BoundaryPattern.


Lemma X9_boundaries_of_both_parsers_witness :
  Parser2.is_question_header ascii_isdigit
    (lit "Q1 " ++ [EM_DASH] ++ lit " Print Typo" ++ [LF]) = true.
Proof.
  apply (X9_boundaries_of_both_parsers ascii_isdigit ascii_isdigit
           (lit "Q1 " ++ [EM_DASH] ++ lit " Print Typo") [LF]).
  - intros c H. exact H.
  - vm_compute. eauto.
Defined.

(** The converse fails: a header of [parser2.py] without a title is no
    boundary for [parse_questions.py]. *)
Example header_without_title :
  Parser2.is_question_header ascii_isdigit (lit "Q2" ++ [LF]) = true
  /\ ParseQuestions.match_line ascii_isdigit (lit "Q2") = None.
Proof. vm_compute. split; reflexivity. Qed.

(** ** The index scans of the generators *)

Lemma filter_nil_Forall {A} (t : A -> bool) l :
  List.filter t l = [] -> Forall (fun x => t x = false) l.
Proof.
  induction l as [|x l IH]; cbn; [constructor|].
  destruct (t x) eqn:E; [discriminate|]. intros H. constructor; auto.
Qed.

(** The last element a test accepts, and what stands around it. *)
Lemma last_filter_split {A} (t : A -> bool) l x :
  last (List.filter t l) = Some x ->
  exists a b, l = a ++ x :: b /\ t x = true
              /\ Forall (fun y => t y = false) b.
Proof.
  induction l as [|y l IH]; cbn; [discriminate|].
  destruct (List.filter t l) as [|z f] eqn:Ef.
  - destruct (t y) eqn:E; [|discriminate]. intros [= <-].
    exists [], l. split; [reflexivity|]. split; [exact E|].
    apply filter_nil_Forall, Ef.
  - intros H. assert (Hl : last (z :: f) = Some x).
    { destruct (t y); [rewrite last_cons_cons in H|]; exact H. }
    destruct (IH Hl) as (a & b & -> & Ht & Hb).
    exists (y :: a), b. auto.
Qed.

Section EnumerateFold.

Context {St : Type}.
Variable step : St -> nat -> list N -> St.
Variable get : St -> Z.
Variable t : list N -> bool.
Hypothesis Hhit : forall st i l, t l = true -> get (step st i l) = Z.of_nat i.
Hypothesis Hmiss : forall st i l, t l = false -> get (step st i l) = get st.

Lemma enumerate_fold_miss idx lines st :
  Forall (fun l => t l = false) lines ->
  get (enumerate_fold step idx lines st) = get st.
Proof.
  intros H. revert idx st. induction H as [|l ls Hl _ IH]; intros idx st;
    [reflexivity|].
  cbn [enumerate_fold]. rewrite IH. apply Hmiss, Hl.
Qed.

(** The index kept is that of the last line the test accepts. *)
Lemma enumerate_fold_last idx a l b st :
  t l = true -> Forall (fun l => t l = false) b ->
  get (enumerate_fold step idx (a ++ l :: b) st) = Z.of_nat (idx + length a).
Proof.
  intros Hl Hb. revert idx st. induction a as [|x a IH]; intros idx st.
  - cbn [app enumerate_fold length]. rewrite enumerate_fold_miss by exact Hb.
    rewrite Hhit by exact Hl. f_equal. lia.
  - cbn [app enumerate_fold length]. rewrite IH. f_equal. lia.
Qed.

End EnumerateFold.

(** Slices of a list of lines cut at a label line. *)
Lemma zslice_between {A} (a c r : list A) (x : A) :
  zslice (a ++ x :: c ++ r) (Z.of_nat (length a) + 1)
    (Z.of_nat (length (a ++ x :: c))) = c.
Proof.
  unfold zslice, norm_index, slice.
  destruct (Z.ltb_spec (Z.of_nat (length a) + 1) 0) as [?|_]; [lia|].
  destruct (Z.ltb_spec (Z.of_nat (length (a ++ x :: c))) 0) as [?|_]; [lia|].
  rewrite !Z.max_r by lia. rewrite length_app. cbn [length].
  replace (Z.to_nat (Z.of_nat (length a) + 1)) with (length a + 1) by lia.
  rewrite Nat2Z.id.
  replace (length a + S (length c) - (length a + 1)) with (length c) by lia.
  replace (a ++ x :: c ++ r) with ((a ++ [x]) ++ c ++ r)
    by (rewrite <- app_assoc; reflexivity).
  rewrite drop_app_length' by (rewrite length_app; cbn; lia).
  apply take_app_length.
Qed.

Lemma zslice_from_after {A} (a c : list A) (x : A) :
  zslice_from (a ++ x :: c) (Z.of_nat (length a) + 1) = c.
Proof.
  unfold zslice_from, norm_index.
  destruct (Z.ltb_spec (Z.of_nat (length a) + 1) 0) as [?|_]; [lia|].
  rewrite Z.max_r by lia.
  replace (Z.to_nat (Z.of_nat (length a) + 1)) with (length a + 1) by lia.
  replace (a ++ x :: c) with ((a ++ [x]) ++ c)
    by (rewrite <- app_assoc; reflexivity).
  apply drop_app_length'. rewrite length_app. cbn. lia.
Qed.

(** A start of [-1 + 1] is the start of the list, an end of [-1] leaves
    the last element out. *)
Lemma zslice_from_start {A} (l : list A) (b : nat) :
  zslice l (-1 + 1) (Z.of_nat b) = take b l.
Proof.
  unfold zslice, norm_index, slice. cbn [Z.add Z.ltb Z.compare Z.max Z.to_nat].
  destruct (Z.ltb_spec (Z.of_nat b) 0) as [?|_]; [lia|].
  rewrite Z.max_r by lia. rewrite Nat2Z.id, Nat.sub_0_r. reflexivity.
Qed.

Lemma zslice_to_last {A} (a c : list A) (x : A) :
  zslice (a ++ x :: c) (Z.of_nat (length a) + 1) (-1) = removelast c.
Proof.
  unfold zslice, norm_index, slice.
  destruct (Z.ltb_spec (Z.of_nat (length a) + 1) 0) as [?|_]; [lia|].
  change (-1 <? 0)%Z with true. cbv iota.
  rewrite (Z.max_r 0 (Z.of_nat (length a) + 1)) by lia.
  replace (Z.to_nat (Z.of_nat (length a) + 1)) with (length a + 1) by lia.
  replace (a ++ x :: c) with ((a ++ [x]) ++ c)
    by (rewrite <- app_assoc; reflexivity).
  rewrite drop_app_length' by (rewrite length_app; cbn; lia).
  rewrite !length_app. cbn [length].
  destruct c as [|y c _] using rev_ind.
  - apply take_nil.
  - rewrite removelast_last, length_app. cbn [length].
    replace (Z.to_nat (Z.max 0 (-1 + Z.of_nat (length a + 1 + (length c + 1))))
             - (length a + 1)) with (length c) by lia.
    apply take_app_length.
Qed.

(** ** [generate_questions_l2.py]: the sections of a unit *)

Lemma startswith_clash s p q :
  startswith p q = false -> startswith q p = false ->
  startswith s p = true -> startswith s q = true -> False.
Proof.
  intros Hpq Hqp Hp Hq. destruct (startswith_two s p q Hp Hq); congruence.
Qed.

Ltac clash :=
  match goal with
  | Hp : startswith ?s (lit ?p) = true, Hq : startswith ?s (lit ?q) = true
    |- _ =>
      exfalso;
      exact (startswith_clash s (lit p) (lit q) eq_refl eq_refl Hp Hq)
  end.

(** Case analysis on every test of an [elif] chain. *)
Ltac chain :=
  unfold GenL2.section_step, GenCL2.section_step, l2_plain, cl2_plain;
  unfold starts_error;
  repeat match goal with
         | |- context [startswith ?l (lit ?p)] =>
             destruct (startswith l (lit p)) eqn:?
         end;
  cbn; intros; try congruence; try clash.

Lemma index_at {A} (a b : list A) (x : A) :
  index (a ++ x :: b) (Z.of_nat (length a)) = Some x.
Proof.
  unfold index, norm_index.
  destruct (Z.ltb_spec (Z.of_nat (length a)) 0) as [?|_]; [lia|].
  destruct (Z.ltb_spec (Z.of_nat (length a)) 0) as [?|_]; [lia|].
  rewrite Nat2Z.id. apply list_lookup_middle. reflexivity.
Qed.

(** [lines[-1]]: the last line. *)
Lemma index_last {A} (l : list A) : index l (-1) = last l.
Proof.
  unfold index, norm_index. change (-1 <? 0)%Z with true. cbv iota.
  destruct l as [|x l _] using rev_ind; [reflexivity|].
  rewrite length_app, last_snoc. cbn [length].
  destruct (Z.ltb_spec (-1 + Z.of_nat (length l + 1)) 0) as [?|_]; [lia|].
  replace (Z.to_nat (-1 + Z.of_nat (length l + 1))) with (length l) by lia.
  apply list_lookup_middle. reflexivity.
Qed.

Lemma l2_find_sections_fold idx lines ix :
  GenL2.find_sections_from idx lines ix
  = enumerate_fold GenL2.section_step idx lines ix.
Proof.
  revert idx ix. induction lines as [|l ls IH]; intros idx ix; [reflexivity|].
  cbn. apply IH.
Qed.

Section L2Scan.

Variable get : GenL2.indices -> Z.
Variable t : list N -> bool.
Hypothesis Hhit :
  forall st i l, t l = true -> get (GenL2.section_step st i l) = Z.of_nat i.
Hypothesis Hmiss :
  forall st i l, t l = false -> get (GenL2.section_step st i l) = get st.
Hypothesis Hinit : get (GenL2.Indices (-1) (-1) (-1) (-1) (-1)) = (-1)%Z.

Lemma l2_found a l b :
  t l = true -> Forall (fun l => t l = false) b ->
  get (GenL2.find_sections (a ++ l :: b)) = Z.of_nat (length a).
Proof.
  intros Hl Hb. unfold GenL2.find_sections. rewrite l2_find_sections_fold.
  exact (enumerate_fold_last GenL2.section_step get t Hhit Hmiss 0 a l b _
           Hl Hb).
Qed.

Lemma l2_not_found lines :
  Forall (fun l => t l = false) lines ->
  get (GenL2.find_sections lines) = (-1)%Z.
Proof.
  intros H. unfold GenL2.find_sections. rewrite l2_find_sections_fold.
  rewrite (enumerate_fold_miss GenL2.section_step get t Hmiss 0 lines _ H).
  exact Hinit.
Qed.

End L2Scan.

Local Abbreviation l2_broken_line := (fun l => startswith l (lit "Broken Code")).
Local Abbreviation l2_correct_line := (fun l => startswith l (lit "Correct Code")).
Local Abbreviation l2_riddle_line := (fun l => startswith l (lit "Riddle:")).
Local Abbreviation l2_answer_line := (fun l => startswith l (lit "Answer:")).

Lemma l2_broken_hit st i l :
  l2_broken_line l = true ->
  GenL2.broken_start (GenL2.section_step st i l) = Z.of_nat i.
Proof. intros H. revert H. chain. Qed.

Lemma l2_broken_miss st i l :
  l2_broken_line l = false ->
  GenL2.broken_start (GenL2.section_step st i l) = GenL2.broken_start st.
Proof. intros H. revert H. chain. Qed.

Lemma l2_error_hit st i l :
  starts_error l = true ->
  GenL2.error_start (GenL2.section_step st i l) = Z.of_nat i.
Proof. intros H. revert H. chain. Qed.

Lemma l2_error_miss st i l :
  starts_error l = false ->
  GenL2.error_start (GenL2.section_step st i l) = GenL2.error_start st.
Proof. intros H. revert H. chain. Qed.

Lemma l2_correct_hit st i l :
  l2_correct_line l = true ->
  GenL2.correct_start (GenL2.section_step st i l) = Z.of_nat i.
Proof. intros H. revert H. chain. Qed.

Lemma l2_correct_miss st i l :
  l2_correct_line l = false ->
  GenL2.correct_start (GenL2.section_step st i l) = GenL2.correct_start st.
Proof. intros H. revert H. chain. Qed.

Lemma l2_riddle_hit st i l :
  l2_riddle_line l = true ->
  GenL2.riddle_start (GenL2.section_step st i l) = Z.of_nat i.
Proof. intros H. revert H. chain. Qed.

Lemma l2_riddle_miss st i l :
  l2_riddle_line l = false ->
  GenL2.riddle_start (GenL2.section_step st i l) = GenL2.riddle_start st.
Proof. intros H. revert H. chain. Qed.

Lemma l2_answer_hit st i l :
  l2_answer_line l = true ->
  GenL2.answer_start (GenL2.section_step st i l) = Z.of_nat i.
Proof. intros H. revert H. chain. Qed.

Lemma l2_answer_miss st i l :
  l2_answer_line l = false ->
  GenL2.answer_start (GenL2.section_step st i l) = GenL2.answer_start st.
Proof. intros H. revert H. chain. Qed.

(** The first occurrence of a character that a prefix does not hold. *)
Lemma find_sub_after_prefix p c t :
  forallb (fun x => negb (c =? x)%N) p = true ->
  find_sub (p ++ c :: t) [c] = Some (length p).
Proof.
  induction p as [|x p IH]; intros H.
  - cbn. rewrite N.eqb_refl. reflexivity.
  - cbn in H. apply andb_true_iff in H as [Hx Hp].
    cbn [app find_sub startswith length]. apply negb_true_iff in Hx.
    rewrite Hx. cbn. rewrite (IH Hp). reflexivity.
Qed.

Lemma after_colon_labelled (label : string) a l b :
  forallb (fun x => negb (COLON =? x)%N) (lit label) = true ->
  startswith l (lit label ++ [COLON]) = true ->
  GenL2.after_colon (a ++ l :: b) (Z.of_nat (length a))
  = Ok (strip (drop (length (lit label) + 1) l)).
Proof.
  intros Hc Hl. unfold GenL2.after_colon. rewrite index_at.
  apply startswith_spec in Hl as [t ->]. rewrite <- app_assoc.
  cbn [app]. rewrite (find_sub_after_prefix _ _ _ Hc). reflexivity.
Qed.

Lemma after_colon_error a l b :
  starts_error l = true ->
  GenL2.after_colon (a ++ l :: b) (Z.of_nat (length a))
  = Ok (strip (drop 6 l)).
Proof.
  unfold starts_error. intros H. apply orb_true_iff in H as [H|H].
  - exact (after_colon_labelled "Error" a l b eq_refl H).
  - exact (after_colon_labelled "Issue" a l b eq_refl H).
Qed.

Lemma l2_plain_spec l :
  l2_plain l = true ->
  l2_broken_line l = false /\ starts_error l = false
  /\ l2_correct_line l = false /\ l2_riddle_line l = false
  /\ l2_answer_line l = false.
Proof. chain; repeat split. Qed.

Lemma Forall_l2_plain (t : list N -> bool) ls :
  (forall l, l2_plain l = true -> t l = false) ->
  Forall (fun l => l2_plain l = true) ls -> Forall (fun l => t l = false) ls.
Proof. intros H HF. exact (Forall_impl _ _ _ HF H). Qed.

(** A label line of one kind fails the test of every other kind. *)
Ltac other_label :=
  cbv beta;
  match goal with
  | |- startswith ?l _ = false =>
      repeat match goal with
             | H : starts_error l = true |- _ => revert H
             | H : startswith l _ = true |- _ => revert H
             end
  | |- starts_error ?l = false =>
      repeat match goal with
             | H : startswith l _ = true |- _ => revert H
             end
  end;
  chain.

(** Splits a goal over a list of lines into its label lines and its
    plain lines. *)
Ltac others :=
  repeat first
    [ apply Forall_nil_2
    | apply Forall_cons_2; [solve [other_label]|]
    | apply Forall_app_2
    | eapply Forall_l2_plain; [|eassumption];
      let l := fresh in let H := fresh in
      intros l H; apply l2_plain_spec in H; tauto ].

Lemma zslice_between_eq {A} (l a c r : list A) (x : A) :
  l = a ++ x :: c ++ r ->
  zslice l (Z.of_nat (length a) + 1) (Z.of_nat (length (a ++ x :: c))) = c.
Proof. intros ->. apply zslice_between. Qed.

Lemma after_colon_labelled_eq (label : string) lines a l b :
  lines = a ++ l :: b ->
  forallb (fun x => negb (COLON =? x)%N) (lit label) = true ->
  startswith l (lit label ++ [COLON]) = true ->
  GenL2.after_colon lines (Z.of_nat (length a))
  = Ok (strip (drop (length (lit label) + 1) l)).
Proof. intros ->. apply after_colon_labelled. Qed.

Lemma after_colon_error_eq lines a l b :
  lines = a ++ l :: b ->
  starts_error l = true ->
  GenL2.after_colon lines (Z.of_nat (length a)) = Ok (strip (drop 6 l)).
Proof. intros ->. apply after_colon_error. Qed.

(** X10: a unit whose label lines come in the order of the corpus: each text
    is cut at the label lines, whatever stands before [Broken Code];
    what stands between the [Error:] line and [Correct Code], and under
    the [Riddle:] and [Answer:] lines, is not read. *)
Theorem X10_l2_unit_in_order (unit : str)
    (pre bs mid cs gap rest : list str) (bL eL cL rL aL : str) :
  split LF (strip unit)
  = pre ++ bL :: bs ++ eL :: mid ++ cL :: cs ++ rL :: gap ++ aL :: rest ->
  startswith bL (lit "Broken Code") = true ->
  starts_error eL = true ->
  startswith cL (lit "Correct Code") = true ->
  startswith rL (lit "Riddle:") = true ->
  startswith aL (lit "Answer:") = true ->
  Forall (fun l => l2_plain l = true) (bs ++ mid ++ cs ++ gap ++ rest) ->
  GenL2.extract unit
  = Ok (GenL2.Sections (strip (join [LF] bs)) (strip (drop 6 eL))
          (strip (join [LF] cs)) (strip (drop 7 rL)) (strip (drop 7 aL))).
Proof.
  intros Hlines HB HE HC HR HA Hplain.
  rewrite !Forall_app in Hplain.
  destruct Hplain as (Hbs & Hmid & Hcs & Hgap & Hrest).
  unfold GenL2.extract. rewrite Hlines. clear Hlines.
  remember (pre ++ bL :: bs ++ eL :: mid ++ cL :: cs ++ rL :: gap
            ++ aL :: rest) as lines eqn:S1.
  assert (S2 : lines = (pre ++ bL :: bs) ++ eL :: mid ++ cL :: cs
                       ++ rL :: gap ++ aL :: rest)
    by (rewrite S1; repeat (rewrite <- app_assoc; cbn [app]); reflexivity).
  assert (S3 : lines = (pre ++ bL :: bs ++ eL :: mid) ++ cL :: cs
                       ++ rL :: gap ++ aL :: rest)
    by (rewrite S1; repeat (rewrite <- app_assoc; cbn [app]); reflexivity).
  assert (S4 : lines = ((pre ++ bL :: bs ++ eL :: mid) ++ cL :: cs)
                       ++ rL :: gap ++ aL :: rest)
    by (rewrite S1; repeat (rewrite <- app_assoc; cbn [app]); reflexivity).
  assert (S5 : lines = (((pre ++ bL :: bs ++ eL :: mid) ++ cL :: cs)
                        ++ rL :: gap) ++ aL :: rest)
    by (rewrite S1; repeat (rewrite <- app_assoc; cbn [app]); reflexivity).
  assert (Eb : GenL2.broken_start (GenL2.find_sections lines)
               = Z.of_nat (length pre)).
  { rewrite S1.
    apply (l2_found _ l2_broken_line l2_broken_hit l2_broken_miss);
      [exact HB|]. others. }
  assert (Ee : GenL2.error_start (GenL2.find_sections lines)
               = Z.of_nat (length (pre ++ bL :: bs))).
  { rewrite S2.
    apply (l2_found _ starts_error l2_error_hit l2_error_miss);
      [exact HE|]. others. }
  assert (Ec : GenL2.correct_start (GenL2.find_sections lines)
               = Z.of_nat (length (pre ++ bL :: bs ++ eL :: mid))).
  { rewrite S3.
    apply (l2_found _ l2_correct_line l2_correct_hit l2_correct_miss);
      [exact HC|]. others. }
  assert (Er : GenL2.riddle_start (GenL2.find_sections lines)
               = Z.of_nat (length ((pre ++ bL :: bs ++ eL :: mid)
                                   ++ cL :: cs))).
  { rewrite S4.
    apply (l2_found _ l2_riddle_line l2_riddle_hit l2_riddle_miss);
      [exact HR|]. others. }
  assert (Ea : GenL2.answer_start (GenL2.find_sections lines)
               = Z.of_nat (length (((pre ++ bL :: bs ++ eL :: mid)
                                    ++ cL :: cs) ++ rL :: gap))).
  { rewrite S5.
    apply (l2_found _ l2_answer_line l2_answer_hit l2_answer_miss);
      [exact HA|]. others. }
  rewrite Eb, Ee, Ec, Er, Ea.
  rewrite (zslice_between_eq lines pre bs _ bL S1).
  rewrite (zslice_between_eq lines _ cs _ cL S3).
  rewrite (after_colon_error_eq lines _ eL _ S2 HE).
  rewrite (after_colon_labelled_eq "Riddle" lines _ rL _ S4 eq_refl HR).
  rewrite (after_colon_labelled_eq "Answer" lines _ aL _ S5 eq_refl HA).
  reflexivity.
Qed.

Lemma X10_l2_unit_in_order_witness :
  GenL2.extract l2_unit_complete
  = Ok (GenL2.Sections (strip (join [LF] [lit "x"]))
          (strip (drop 6 (lit "Error: e")))
          (strip (join [LF] [lit "y"])) (strip (drop 7 (lit "Riddle: r")))
          (strip (drop 7 (lit "Answer: a")))).
Proof.
  apply (X10_l2_unit_in_order l2_unit_complete [lit "Title"] [lit "x"] []
           [lit "y"] [] [] (lit "Broken Code") (lit "Error: e")
           (lit "Correct Code") (lit "Riddle: r") (lit "Answer: a"));
    try (vm_compute; reflexivity).
  repeat constructor.
Defined.

(** [lines[-1].split(':', 1)[1].strip()]. *)
Lemma after_colon_last lines lastl :
  last lines = Some lastl ->
  GenL2.after_colon lines (-1)
  = match find_sub lastl [COLON] with
    | Some p => Ok (strip (drop (p + 1) lastl))
    | None => Err (lit "list index out of range")
    end.
Proof.
  intros H. unfold GenL2.after_colon. rewrite index_last, H. reflexivity.
Qed.

(** With a colon in the last line, the text of a label with a colon is
    always found: after the last line that starts with the label, or,
    when there is none, after the first colon of the last line. *)
Lemma after_colon_found_or_last (get : GenL2.indices -> Z) (t : list N -> bool)
    (label : string) lines lastl p :
  (forall st i l, t l = true ->
     get (GenL2.section_step st i l) = Z.of_nat i) ->
  (forall st i l, t l = false ->
     get (GenL2.section_step st i l) = get st) ->
  get (GenL2.Indices (-1) (-1) (-1) (-1) (-1)) = (-1)%Z ->
  (forall l, t l = true -> startswith l (lit label ++ [COLON]) = true) ->
  forallb (fun x => negb (COLON =? x)%N) (lit label) = true ->
  last lines = Some lastl -> find_sub lastl [COLON] = Some p ->
  exists v, GenL2.after_colon lines (get (GenL2.find_sections lines)) = Ok v.
Proof.
  intros Hhit Hmiss Hinit Ht Hlabel Hlast Hp.
  destruct (last (List.filter t lines)) as [x|] eqn:E.
  - destruct (last_filter_split t lines x E) as (a & b & -> & Hx & Hb).
    rewrite (l2_found get t Hhit Hmiss a x b Hx Hb).
    rewrite (after_colon_labelled label a x b Hlabel (Ht x Hx)). eauto.
  - assert (Hnone : Forall (fun l => t l = false) lines).
    { apply filter_nil_Forall. destruct (List.filter t lines) as [|y f] eqn:Ef;
        [reflexivity|].
      exfalso. revert E. clear. revert y.
      induction f as [|z f IH]; intros y; [discriminate|].
      rewrite last_cons_cons. apply IH. }
    rewrite (l2_not_found get t Hmiss Hinit lines Hnone).
    rewrite (after_colon_last lines lastl Hlast), Hp. eauto.
Qed.

(** X11: a unit without an [Error:] or [Issue:] line: the index stays [-1],
    and the description is read off the last line of the unit, after
    its first colon; the extraction raises when that line has no colon
    and only then: with a colon in the last line it succeeds, whatever
    the other lines are. *)
Theorem X11_l2_unit_without_error_line (unit lastl : str) :
  Forall (fun l => starts_error l = false) (split LF (strip unit)) ->
  last (split LF (strip unit)) = Some lastl ->
  (find_sub lastl [COLON] = None ->
   GenL2.extract unit = Err (lit "list index out of range"))
  /\ (forall s, GenL2.extract unit = Ok s ->
        exists p, find_sub lastl [COLON] = Some p
                  /\ GenL2.error s = strip (drop (p + 1) lastl))
  /\ (forall p, find_sub lastl [COLON] = Some p ->
        exists s, GenL2.extract unit = Ok s
                  /\ GenL2.error s = strip (drop (p + 1) lastl)).
Proof.
  intros Hno Hlast.
  pose proof (l2_not_found _ starts_error l2_error_miss eq_refl _ Hno) as He.
  unfold GenL2.extract. rewrite He, (after_colon_last _ _ Hlast).
  destruct (find_sub lastl [COLON]) as [p|] eqn:Ep.
  - split; [discriminate|].
    destruct (after_colon_found_or_last GenL2.riddle_start l2_riddle_line
                "Riddle" _ lastl p l2_riddle_hit l2_riddle_miss eq_refl
                ltac:(intros l Hl; exact Hl) eq_refl Hlast Ep) as [r Er].
    destruct (after_colon_found_or_last GenL2.answer_start l2_answer_line
                "Answer" _ lastl p l2_answer_hit l2_answer_miss eq_refl
                ltac:(intros l Hl; exact Hl) eq_refl Hlast Ep) as [a Ea].
    rewrite Er, Ea. split.
    + intros s [= <-]. exists p. split; reflexivity.
    + intros p' [= <-]. eexists. split; reflexivity.
  - split; [reflexivity|]. split; discriminate.
Qed.

Lemma X11_l2_unit_without_error_line_witness :
  exists s, GenL2.extract l2_unit_error_from_answer = Ok s
            /\ GenL2.error s = strip (drop (6 + 1) (lit "Answer: a")).
Proof.
  exact (proj2 (proj2 (X11_l2_unit_without_error_line
                         l2_unit_error_from_answer (lit "Answer: a")
                         ltac:(vm_compute; repeat constructor)
                         ltac:(vm_compute; reflexivity)))
           6 ltac:(vm_compute; reflexivity)).
Defined.

(** ** [generate_questions_l2.py]: the run *)

Lemma l2_unit_loop_app units ss tail i trace :
  Forall2 (fun u s => GenL2.extract u = Ok s) units ss ->
  GenL2.unit_loop i (units ++ tail) trace
  = GenL2.unit_loop (i + length units) tail
      (trace ++ concat (imap (fun k s => GenL2.unit_output (i + k) s) ss)).
Proof.
  intros H. revert i trace.
  induction H as [|u s units ss Hu _ IH]; intros i trace.
  - cbn. rewrite Nat.add_0_r, app_nil_r. reflexivity.
  - cbn [app GenL2.unit_loop]. rewrite Hu, IH. cbn [length imap concat].
    rewrite Nat.add_0_r, <- app_assoc. f_equal; [lia|]. f_equal. f_equal.
    f_equal. apply imap_ext. intros k x _. cbn. f_equal. lia.
Qed.

(** X12: the run prints the three opening lines, then ten lines for each
    unit, numbered from 1, and the three closing lines when every unit
    is extracted; the first unit whose extraction raises ends it with
    [IndexError]: what was printed for the units before it stays, the
    units behind it are not read, and the closing lines are missing. *)
Theorem X12_l2_run (units : list str) (ss : list GenL2.sections) :
  Forall2 (fun u s => GenL2.extract u = Ok s) units ss ->
  GenL2.run units
  = (l2_header
     ++ concat (imap (fun k s => GenL2.unit_output (1 + k) s) ss)
     ++ l2_footer, Finished)
  /\ forall u e rest,
       GenL2.extract u = Err e ->
       GenL2.run (units ++ u :: rest)
       = (l2_header
          ++ concat (imap (fun k s => GenL2.unit_output (1 + k) s) ss),
          Raised "IndexError").
Proof.
  intros H. split.
  - unfold GenL2.run. rewrite <- (app_nil_r units) at 1.
    rewrite (l2_unit_loop_app units ss [] 1 _ H). cbn [GenL2.unit_loop].
    rewrite <- app_assoc. reflexivity.
  - intros u e rest Hu. unfold GenL2.run.
    rewrite (l2_unit_loop_app units ss (u :: rest) 1 _ H).
    cbn [GenL2.unit_loop]. rewrite Hu. reflexivity.
Qed.

Lemma X12_l2_run_witness :
  GenL2.run ([l2_unit_complete] ++ l2_unit_without_error :: [l2_unit_complete])
  = (l2_header
     ++ concat
          (imap (fun k s => GenL2.unit_output (1 + k) s)
             [GenL2.Sections (lit "x") (lit "e") (lit "y") (lit "r")
                (lit "a")]),
     Raised "IndexError").
Proof.
  pose proof (X12_l2_run [l2_unit_complete]
                [GenL2.Sections (lit "x") (lit "e") (lit "y") (lit "r")
                   (lit "a")]
                ltac:(repeat constructor; vm_compute; reflexivity)) as [_ H].
  exact (H l2_unit_without_error (lit "list index out of range")
           [l2_unit_complete] ltac:(vm_compute; reflexivity)).
Defined.

(** ** [generate_questions_c_l2.py] and [generate_questions_l3.py]: the
       sections of a unit *)

Lemma cl2_find_sections_fold idx lines ix :
  GenCL2.find_sections_from idx lines ix
  = enumerate_fold GenCL2.section_step idx lines ix.
Proof.
  revert idx ix. induction lines as [|l ls IH]; intros idx ix; [reflexivity|].
  cbn. apply IH.
Qed.

Section CL2Scan.

Variable get : GenCL2.indices -> Z.
Variable t : list N -> bool.
Hypothesis Hhit :
  forall st i l, t l = true -> get (GenCL2.section_step st i l) = Z.of_nat i.
Hypothesis Hmiss :
  forall st i l, t l = false -> get (GenCL2.section_step st i l) = get st.
Hypothesis Hinit : get (GenCL2.Indices (-1) (-1) (-1) (-1) (-1)) = (-1)%Z.

Lemma cl2_found lines a l b :
  lines = a ++ l :: b ->
  t l = true -> Forall (fun l => t l = false) b ->
  get (GenCL2.find_sections lines) = Z.of_nat (length a).
Proof.
  intros -> Hl Hb. unfold GenCL2.find_sections. rewrite cl2_find_sections_fold.
  exact (enumerate_fold_last GenCL2.section_step get t Hhit Hmiss 0 a l b _
           Hl Hb).
Qed.

Lemma cl2_not_found lines :
  Forall (fun l => t l = false) lines ->
  get (GenCL2.find_sections lines) = (-1)%Z.
Proof.
  intros H. unfold GenCL2.find_sections. rewrite cl2_find_sections_fold.
  rewrite (enumerate_fold_miss GenCL2.section_step get t Hmiss 0 lines _ H).
  exact Hinit.
Qed.

End CL2Scan.

Local Abbreviation cl2_question_line := (fun l => startswith l (lit "Question")).
Local Abbreviation cl2_broken_line := (fun l => startswith l (lit "Broken Code")).
Local Abbreviation cl2_correct_line := (fun l => startswith l (lit "Correct Code")).
Local Abbreviation cl2_riddle_line := (fun l => startswith l (lit "Riddle")).
Local Abbreviation cl2_answer_line := (fun l => startswith l (lit "Answer")).

Lemma cl2_question_hit st i l :
  cl2_question_line l = true ->
  GenCL2.question_start (GenCL2.section_step st i l) = Z.of_nat i.
Proof. intros H. revert H. chain. Qed.

Lemma cl2_question_miss st i l :
  cl2_question_line l = false ->
  GenCL2.question_start (GenCL2.section_step st i l) = GenCL2.question_start st.
Proof. intros H. revert H. chain. Qed.

Lemma cl2_broken_hit st i l :
  cl2_broken_line l = true ->
  GenCL2.broken_start (GenCL2.section_step st i l) = Z.of_nat i.
Proof. intros H. revert H. chain. Qed.

Lemma cl2_broken_miss st i l :
  cl2_broken_line l = false ->
  GenCL2.broken_start (GenCL2.section_step st i l) = GenCL2.broken_start st.
Proof. intros H. revert H. chain. Qed.

Lemma cl2_correct_hit st i l :
  cl2_correct_line l = true ->
  GenCL2.correct_start (GenCL2.section_step st i l) = Z.of_nat i.
Proof. intros H. revert H. chain. Qed.

Lemma cl2_correct_miss st i l :
  cl2_correct_line l = false ->
  GenCL2.correct_start (GenCL2.section_step st i l) = GenCL2.correct_start st.
Proof. intros H. revert H. chain. Qed.

Lemma cl2_riddle_hit st i l :
  cl2_riddle_line l = true ->
  GenCL2.riddle_start (GenCL2.section_step st i l) = Z.of_nat i.
Proof. intros H. revert H. chain. Qed.

Lemma cl2_riddle_miss st i l :
  cl2_riddle_line l = false ->
  GenCL2.riddle_start (GenCL2.section_step st i l) = GenCL2.riddle_start st.
Proof. intros H. revert H. chain. Qed.

Lemma cl2_answer_hit st i l :
  cl2_answer_line l = true ->
  GenCL2.answer_start (GenCL2.section_step st i l) = Z.of_nat i.
Proof. intros H. revert H. chain. Qed.

Lemma cl2_answer_miss st i l :
  cl2_answer_line l = false ->
  GenCL2.answer_start (GenCL2.section_step st i l) = GenCL2.answer_start st.
Proof. intros H. revert H. chain. Qed.

Lemma cl2_plain_spec l :
  cl2_plain l = true ->
  cl2_question_line l = false /\ cl2_broken_line l = false
  /\ cl2_correct_line l = false /\ cl2_riddle_line l = false
  /\ cl2_answer_line l = false.
Proof. chain; repeat split. Qed.

Lemma Forall_cl2_plain (t : list N -> bool) ls :
  (forall l, cl2_plain l = true -> t l = false) ->
  Forall (fun l => cl2_plain l = true) ls -> Forall (fun l => t l = false) ls.
Proof. intros H HF. exact (Forall_impl _ _ _ HF H). Qed.

Ltac cl2_others :=
  repeat first
    [ apply Forall_nil_2
    | apply Forall_cons_2; [solve [other_label]|]
    | apply Forall_app_2
    | eapply Forall_cl2_plain; [|eassumption];
      let l := fresh in let H := fresh in
      intros l H; apply cl2_plain_spec in H; tauto
    | assumption ].

Lemma zslice_from_after_eq {A} (l a c : list A) (x : A) :
  l = a ++ x :: c -> zslice_from l (Z.of_nat (length a) + 1) = c.
Proof. intros ->. apply zslice_from_after. Qed.

Lemma zslice_to_last_eq {A} (l a c : list A) (x : A) :
  l = a ++ x :: c ->
  zslice l (Z.of_nat (length a) + 1) (-1) = removelast c.
Proof. intros ->. apply zslice_to_last. Qed.

(** X13: a unit whose label lines come in the order of the corpus: each of
    the five texts is what stands between its label line and the next
    one, joined and stripped; what stands before [Question] (the title)
    is not read. *)
Theorem X13_cl2_unit_in_order (unit : str)
    (pre qs bs cs rs ans : list str) (qL bL cL rL aL : str) :
  split LF (strip unit)
  = pre ++ qL :: qs ++ bL :: bs ++ cL :: cs ++ rL :: rs ++ aL :: ans ->
  startswith qL (lit "Question") = true ->
  startswith bL (lit "Broken Code") = true ->
  startswith cL (lit "Correct Code") = true ->
  startswith rL (lit "Riddle") = true ->
  startswith aL (lit "Answer") = true ->
  Forall (fun l => cl2_plain l = true) (qs ++ bs ++ cs ++ rs ++ ans) ->
  GenCL2.extract unit
  = GenCL2.Sections (strip (join [LF] qs)) (strip (join [LF] bs))
      (strip (join [LF] cs)) (strip (join [LF] rs)) (strip (join [LF] ans)).
Proof.
  intros Hlines HQ HB HC HR HA Hplain.
  rewrite !Forall_app in Hplain.
  destruct Hplain as (Hqs & Hbs & Hcs & Hrs & Hans).
  unfold GenCL2.extract, GenCL2.sections_of. rewrite Hlines. clear Hlines.
  remember (pre ++ qL :: qs ++ bL :: bs ++ cL :: cs ++ rL :: rs
            ++ aL :: ans) as lines eqn:S1.
  assert (S2 : lines = (pre ++ qL :: qs) ++ bL :: bs ++ cL :: cs
                       ++ rL :: rs ++ aL :: ans)
    by (rewrite S1; repeat (rewrite <- app_assoc; cbn [app]); reflexivity).
  assert (S3 : lines = ((pre ++ qL :: qs) ++ bL :: bs) ++ cL :: cs
                       ++ rL :: rs ++ aL :: ans)
    by (rewrite S1; repeat (rewrite <- app_assoc; cbn [app]); reflexivity).
  assert (S4 : lines = (((pre ++ qL :: qs) ++ bL :: bs) ++ cL :: cs)
                       ++ rL :: rs ++ aL :: ans)
    by (rewrite S1; repeat (rewrite <- app_assoc; cbn [app]); reflexivity).
  assert (S5 : lines = ((((pre ++ qL :: qs) ++ bL :: bs) ++ cL :: cs)
                        ++ rL :: rs) ++ aL :: ans)
    by (rewrite S1; repeat (rewrite <- app_assoc; cbn [app]); reflexivity).
  rewrite (cl2_found _ cl2_question_line cl2_question_hit cl2_question_miss
             lines _ _ _ S1 HQ) by cl2_others.
  rewrite (cl2_found _ cl2_broken_line cl2_broken_hit cl2_broken_miss
             lines _ _ _ S2 HB) by cl2_others.
  rewrite (cl2_found _ cl2_correct_line cl2_correct_hit cl2_correct_miss
             lines _ _ _ S3 HC) by cl2_others.
  rewrite (cl2_found _ cl2_riddle_line cl2_riddle_hit cl2_riddle_miss
             lines _ _ _ S4 HR) by cl2_others.
  rewrite (cl2_found _ cl2_answer_line cl2_answer_hit cl2_answer_miss
             lines _ _ _ S5 HA) by cl2_others.
  rewrite (zslice_between_eq lines pre qs _ qL S1).
  rewrite (zslice_between_eq lines _ bs _ bL S2).
  rewrite (zslice_between_eq lines _ cs _ cL S3).
  rewrite (zslice_between_eq lines _ rs _ rL S4).
  rewrite (zslice_from_after_eq lines _ ans aL S5).
  reflexivity.
Qed.

Lemma X13_cl2_unit_in_order_witness :
  GenCL2.extract c_l2_unit
  = GenCL2.Sections (strip (join [LF] [lit "Why?"]))
      (strip (join [LF] [lit "  int x"])) (strip (join [LF] [lit "  int x;"]))
      (strip (join [LF] [lit "r"])) (strip (join [LF] [lit "a1"; lit "a2"])).
Proof.
  apply (X13_cl2_unit_in_order c_l2_unit [lit "Title"] [lit "Why?"]
           [lit "  int x"] [lit "  int x;"] [lit "r"] [lit "a1"; lit "a2"]
           (lit "Question") (lit "Broken Code") (lit "Correct Code")
           (lit "Riddle") (lit "Answer"));
    try (vm_compute; reflexivity).
  repeat constructor.
Defined.

(** X14: a unit without a [Riddle] line: the index stays [-1], so the riddle
    is everything that stands before the [Answer] line, title and label
    lines included, and the corrected code runs from [Correct Code] to
    the line before the last one of the unit, the [Answer] line
    included. *)
Theorem X14_cl2_unit_without_riddle (unit : str)
    (pre qs bs cs ans : list str) (qL bL cL aL : str) :
  split LF (strip unit)
  = pre ++ qL :: qs ++ bL :: bs ++ cL :: cs ++ aL :: ans ->
  startswith qL (lit "Question") = true ->
  startswith bL (lit "Broken Code") = true ->
  startswith cL (lit "Correct Code") = true ->
  startswith aL (lit "Answer") = true ->
  Forall (fun l => startswith l (lit "Riddle") = false) pre ->
  Forall (fun l => cl2_plain l = true) (qs ++ bs ++ cs ++ ans) ->
  GenCL2.extract unit
  = GenCL2.Sections (strip (join [LF] qs)) (strip (join [LF] bs))
      (strip (join [LF] (removelast (cs ++ aL :: ans))))
      (strip (join [LF] (pre ++ qL :: qs ++ bL :: bs ++ cL :: cs)))
      (strip (join [LF] ans)).
Proof.
  intros Hlines HQ HB HC HA Hpre Hplain.
  rewrite !Forall_app in Hplain.
  destruct Hplain as (Hqs & Hbs & Hcs & Hans).
  unfold GenCL2.extract, GenCL2.sections_of. rewrite Hlines. clear Hlines.
  remember (pre ++ qL :: qs ++ bL :: bs ++ cL :: cs ++ aL :: ans)
    as lines eqn:S1.
  assert (S2 : lines = (pre ++ qL :: qs) ++ bL :: bs ++ cL :: cs
                       ++ aL :: ans)
    by (rewrite S1; repeat (rewrite <- app_assoc; cbn [app]); reflexivity).
  assert (S3 : lines = ((pre ++ qL :: qs) ++ bL :: bs) ++ cL :: cs
                       ++ aL :: ans)
    by (rewrite S1; repeat (rewrite <- app_assoc; cbn [app]); reflexivity).
  assert (S5 : lines = (pre ++ qL :: qs ++ bL :: bs ++ cL :: cs)
                       ++ aL :: ans)
    by (rewrite S1; repeat (rewrite <- app_assoc; cbn [app]); reflexivity).
  rewrite (cl2_found _ cl2_question_line cl2_question_hit cl2_question_miss
             lines _ _ _ S1 HQ) by cl2_others.
  rewrite (cl2_found _ cl2_broken_line cl2_broken_hit cl2_broken_miss
             lines _ _ _ S2 HB) by cl2_others.
  rewrite (cl2_found _ cl2_correct_line cl2_correct_hit cl2_correct_miss
             lines _ _ _ S3 HC) by cl2_others.
  rewrite (cl2_not_found _ cl2_riddle_line cl2_riddle_miss eq_refl lines)
    by (rewrite S1; cl2_others).
  rewrite (cl2_found _ cl2_answer_line cl2_answer_hit cl2_answer_miss
             lines _ _ _ S5 HA) by cl2_others.
  rewrite (zslice_between_eq lines pre qs _ qL S1).
  rewrite (zslice_between_eq lines _ bs _ bL S2).
  rewrite (zslice_to_last_eq lines _ (cs ++ aL :: ans) cL S3).
  rewrite zslice_from_start.
  rewrite (zslice_from_after_eq lines _ ans aL S5).
  rewrite S5 at 1. rewrite take_app_length. reflexivity.
Qed.

Lemma X14_cl2_unit_without_riddle_witness :
  GenCL2.extract c_l2_unit_without_riddle
  = GenCL2.Sections (strip (join [LF] [lit "Why?"]))
      (strip (join [LF] [lit "  int x"]))
      (strip (join [LF] (removelast ([lit "  int x;"] ++ lit "Answer"
                                     :: [lit "a1"]))))
      (strip (join [LF] ([lit "Title"] ++ lit "Question" :: [lit "Why?"]
                         ++ lit "Broken Code" :: [lit "  int x"]
                         ++ lit "Correct Code" :: [lit "  int x;"])))
      (strip (join [LF] [lit "a1"])).
Proof.
  apply (X14_cl2_unit_without_riddle c_l2_unit_without_riddle [lit "Title"]
           [lit "Why?"] [lit "  int x"] [lit "  int x;"] [lit "a1"]
           (lit "Question") (lit "Broken Code") (lit "Correct Code")
           (lit "Answer"));
    try (vm_compute; reflexivity).
  - repeat constructor.
  - repeat constructor.
Defined.

(** ** The lines of the generated Swift text *)

Lemma lstrip_suffix s : exists a, s = a ++ lstrip s.
Proof.
  induction s as [|c s [a IH]]; [exists []; reflexivity|].
  cbn [lstrip]. destruct (isspace c).
  - exists (c :: a). cbn. f_equal. exact IH.
  - exists []. reflexivity.
Qed.

Lemma rstrip_prefix s : exists b, s = rstrip s ++ b.
Proof.
  induction s as [|c s [b IH]]; [exists []; reflexivity|].
  rewrite rstrip_cons. case_bool_decide as Hs.
  - destruct (isspace c); [exists (c :: s); reflexivity|].
    exists s. reflexivity.
  - exists b. cbn. f_equal. exact IH.
Qed.

Lemma count_lf_lstrip s : count_lf (lstrip s) <= count_lf s.
Proof.
  destruct (lstrip_suffix s) as [a E]. rewrite E at 2. rewrite count_lf_app.
  lia.
Qed.

Lemma count_lf_rstrip s : count_lf (rstrip s) <= count_lf s.
Proof.
  destruct (rstrip_prefix s) as [b E]. rewrite E at 2. rewrite count_lf_app.
  lia.
Qed.

Lemma count_lf_strip s : count_lf (strip s) <= count_lf s.
Proof.
  unfold strip. pose proof (count_lf_rstrip (lstrip s)).
  pose proof (count_lf_lstrip s). lia.
Qed.

Lemma count_lf_drop n s : count_lf (drop n s) <= count_lf s.
Proof.
  rewrite <- (take_drop n s) at 2. rewrite count_lf_app. lia.
Qed.

(** A line as [readlines] returns it, with no line feed before its last
    character, has none once stripped. *)
Lemma count_lf_strip_line l :
  count_lf (removelast l) = 0 -> count_lf (strip l) = 0.
Proof.
  intros H. unfold strip. rewrite <- lstrip_rstrip.
  pose proof (count_lf_lstrip (rstrip l)) as Hl.
  enough (count_lf (rstrip l) = 0) by lia. clear Hl.
  destruct l as [|c l _] using rev_ind; [reflexivity|].
  rewrite removelast_last in H.
  destruct (isspace c) eqn:Ec.
  - assert (E : rstrip (l ++ [c]) = rstrip l).
    { clear H. induction l as [|x l IH]; cbn [app].
      - cbn. rewrite Ec. reflexivity.
      - rewrite !rstrip_cons, IH. reflexivity. }
    rewrite E. pose proof (count_lf_rstrip l). lia.
  - rewrite rstrip_app by (cbn; rewrite Ec; discriminate).
    cbn [rstrip]. rewrite Ec, count_lf_app, H.
    unfold count_lf. cbn [List.filter].
    destruct (N.eqb_spec LF c) as [<-|_]; [discriminate Ec|reflexivity].
Qed.

Lemma count_lf_split s : Forall (fun l => count_lf l = 0) (split LF s).
Proof.
  induction s as [|x s IH]; [repeat constructor|].
  cbn [split]. pose proof (split_not_nil LF s) as Hne.
  destruct (split LF s) as [|p ps]; [congruence|].
  apply Forall_cons in IH as [Hp Hps].
  destruct (N.eqb_spec x LF) as [->|Hx].
  - repeat constructor; assumption.
  - constructor; [|exact Hps]. unfold count_lf in *. cbn [List.filter].
    destruct (N.eqb_spec LF x) as [<-|_]; [congruence|exact Hp].
Qed.

Lemma count_lf_join_lines parts :
  Forall (fun l => count_lf l = 0) parts ->
  count_lf (join [LF] parts) = length parts - 1.
Proof.
  induction 1 as [|p ps Hp Hps IH]; [reflexivity|].
  destruct ps as [|p' ps]; [cbn; exact Hp|].
  rewrite join_cons by discriminate. rewrite !count_lf_app, Hp, IH.
  cbn [length]. change (count_lf [LF]) with 1. lia.
Qed.

Lemma count_lf_join_sep sep parts :
  count_lf sep = 0 ->
  Forall (fun l => count_lf l = 0) parts ->
  count_lf (join sep parts) = 0.
Proof.
  intros Hsep. induction 1 as [|p ps Hp Hps IH]; [reflexivity|].
  destruct ps as [|p' ps]; [cbn; exact Hp|].
  rewrite join_cons by discriminate. rewrite !count_lf_app, Hp, IH, Hsep.
  reflexivity.
Qed.

Lemma count_lf_regex_list raw :
  Forall (fun l => count_lf l = 0) (regex_list raw).
Proof.
  unfold regex_list. destruct raw as [|c raw]; [constructor|].
  induction (split LF (c :: raw)) as [|l ls IH]; [constructor|].
  cbn [flat_map]. destruct (strip l) as [|x t]; [exact IH|].
  cbn [app]. constructor; [|exact IH].
  change ([DQUOTE] ++ escape_swift_string (x :: t) ++ [DQUOTE])
    with (DQUOTE :: escape_swift_string (x :: t) ++ [DQUOTE]).
  change (DQUOTE :: escape_swift_string (x :: t) ++ [DQUOTE])
    with ([DQUOTE] ++ escape_swift_string (x :: t) ++ [DQUOTE]).
  rewrite !count_lf_app, count_lf_escape. reflexivity.
Qed.

Lemma count_lf_quoted_line (label : string) value :
  count_lf (quoted_line label value) = count_lf (lit label) + count_lf value.
Proof.
  unfold quoted_line. rewrite !count_lf_app.
  change (count_lf (lit "                ")) with 0.
  change (count_lf (lit ": ")) with 0.
  change (count_lf [DQUOTE]) with 0.
  change (count_lf (lit ",")) with 0. lia.
Qed.

(** The eleven lines of a question hold no line feed when its title
    holds none. *)
Lemma swift_question_lines q :
  count_lf (title q) = 0 ->
  Forall (fun l => count_lf l = 0) (swift_question q).
Proof.
  intros Ht. unfold swift_question. cbv zeta.
  repeat (apply Forall_cons_2 || apply Forall_nil_2);
    rewrite ?count_lf_quoted_line, ?count_lf_escape, ?Ht; try reflexivity.
  rewrite !count_lf_app.
  rewrite (count_lf_join_sep (lit ", ") _ eq_refl (count_lf_regex_list _)).
  reflexivity.
Qed.

Lemma swift_code_lines qs :
  Forall (fun q => count_lf (title q) = 0) qs ->
  count_lf (join [LF] (swift_code qs)) = 6 + 11 * length qs.
Proof.
  intros H. rewrite count_lf_join_lines.
  - unfold swift_code. rewrite !length_app. cbn [length].
    enough (length (flat_map swift_question qs) = 11 * length qs) by lia.
    clear H. induction qs as [|q qs IH]; [reflexivity|].
    cbn [flat_map]. rewrite length_app, IH.
    change (length (swift_question q)) with 11. cbn [length]. lia.
  - unfold swift_code. apply Forall_app_2; [repeat constructor|].
    apply Forall_app_2; [|repeat constructor].
    induction H as [|q qs Hq _ IH]; [constructor|].
    cbn [flat_map]. apply Forall_app_2; [|exact IH].
    apply swift_question_lines, Hq.
Qed.

Lemma make_question_title q_id f :
  count_lf q_id = 0 -> count_lf (title (make_question q_id f)) = 0.
Proof.
  intros H. cbn [make_question title]. rewrite !count_lf_app.
  pose proof (count_lf_drop 1 q_id).
  change (count_lf (lit "Level 1 ")) with 0.
  change (count_lf [EN_DASH]) with 0.
  change (count_lf (lit " Question ")) with 0. lia.
Qed.

Lemma count_lf_q_id header_line :
  count_lf header_line = 0 -> count_lf (Parser2.q_id header_line) = 0.
Proof.
  intros H. destruct (q_id_prefix header_line) as (rest & E & _).
  rewrite E, count_lf_app in H. lia.
Qed.

Lemma count_lf_group1 re_digit off lines :
  Forall (fun l => count_lf l = 0) lines ->
  Forall (fun m => count_lf (ParseQuestions.group1 m) = 0)
    (ParseQuestions.finditer_lines re_digit off lines).
Proof.
  intros H. revert off. induction H as [|l ls Hl _ IH]; intros off;
    [constructor|].
  cbn [ParseQuestions.finditer_lines].
  destruct (ParseQuestions.match_line re_digit l) as [[g1 g2]|] eqn:E;
    [|apply IH].
  constructor; [|apply IH]. cbn [ParseQuestions.group1].
  destruct (match_line_Some re_digit l g1 g2 E)
    as (ds & mid & c & t & -> & -> & _).
  change (81%N :: ds ++ mid ++ c :: t) with ((81%N :: ds) ++ mid ++ c :: t)
    in Hl.
  rewrite count_lf_app in Hl. lia.
Qed.

(** X15: the Swift text [parser2.py] prints has seven lines around the
    questions and eleven for each question header found, whatever the
    field texts hold, when the lines read have their line feed at the
    end only (as [readlines] returns them). *)
Theorem X15_parser2_text_lines (isdigit : N -> bool) (lines : list str) :
  Forall (fun l => count_lf (removelast l) = 0) lines ->
  count_lf (join [LF] (swift_code (Parser2.questions isdigit lines)))
  = 6 + 11 * length (Parser2.q_starts isdigit lines).
Proof.
  intros H. rewrite swift_code_lines.
  - unfold Parser2.questions, Parser2.spans.
    rewrite length_map, length_imap. reflexivity.
  - unfold Parser2.questions. apply Forall_map, Forall_forall.
    intros span _. unfold Parser2.parse_span.
    apply make_question_title, count_lf_q_id. unfold Parser2.header_line.
    destruct (lines !! fst span) as [l|] eqn:El; [|reflexivity].
    cbn [default]. apply count_lf_strip_line.
    exact (proj1 (Forall_lookup _ _) H _ _ El).
Qed.

Lemma X15_parser2_text_lines_witness :
  count_lf (join [LF]
              (swift_code (Parser2.questions ascii_isdigit
                             sample_document_lines)))
  = 6 + 11 * length (Parser2.q_starts ascii_isdigit sample_document_lines).
Proof.
  apply (X15_parser2_text_lines ascii_isdigit sample_document_lines).
  vm_compute. repeat constructor.
Defined.

(** X16: the Swift text [parse_questions.py] prints has seven lines around
    the questions and eleven for each match of the boundary pattern,
    whatever the text read holds. *)
Theorem X16_parse_questions_text_lines (re_digit : N -> bool) (content : str) :
  count_lf (join [LF] (swift_code (ParseQuestions.questions re_digit content)))
  = 6 + 11 * length (ParseQuestions.matches re_digit content).
Proof.
  rewrite swift_code_lines.
  - unfold ParseQuestions.questions. rewrite length_imap. reflexivity.
  - unfold ParseQuestions.questions. apply Forall_lookup_2. intros i q.
    rewrite list_lookup_imap.
    destruct (ParseQuestions.matches re_digit content !! i) as [m|] eqn:Em;
      [|discriminate].
    intros [= <-]. unfold ParseQuestions.parse_match.
    apply make_question_title.
    pose proof (count_lf_group1 re_digit 0 (split LF content)
                  (count_lf_split content)) as HF.
    exact (proj1 (Forall_lookup _ _) HF _ _ Em).
Qed.

(** ** [generate_questions.py]: the run over a table *)

Lemma genq_complete_spec q :
  genq_complete q = true
  <-> is_Some (q !! "error"%string) /\ is_Some (q !! "broken"%string)
      /\ is_Some (q !! "correct"%string) /\ is_Some (q !! "riddle"%string)
      /\ is_Some (q !! "answer"%string).
Proof.
  unfold genq_complete, genq_keys. cbn [forallb].
  rewrite !andb_true_iff, !bool_decide_eq_true. tauto.
Qed.

Lemma print_all_complete i q :
  genq_complete q = true ->
  GenQ.print_all (GenQ.entry_prints i q) = (genq_entry_output i q, None).
Proof.
  intros H. apply genq_complete_spec in H
    as ([e He] & [b Hb] & [c Hc] & [r Hr] & [a Ha]).
  unfold GenQ.entry_prints, GenQ.field_line, GenQ.get, genq_entry_output.
  rewrite He, Hb, Hc, Hr, Ha. reflexivity.
Qed.

(** An entry that lacks a key leaves its record open: between two and
    seven of its lines are printed. *)
Lemma print_all_incomplete i q :
  genq_complete q = false ->
  exists n e, 2 <= n <= 7
              /\ GenQ.print_all (GenQ.entry_prints i q)
                 = (take n (genq_entry_output i q), Some e).
Proof.
  intros H.
  assert (Hn : ~ (is_Some (q !! "error"%string)
                  /\ is_Some (q !! "broken"%string)
                  /\ is_Some (q !! "correct"%string)
                  /\ is_Some (q !! "riddle"%string)
                  /\ is_Some (q !! "answer"%string))).
  { intros Hc. apply genq_complete_spec in Hc. congruence. }
  unfold GenQ.entry_prints, GenQ.field_line, GenQ.get, genq_entry_output.
  destruct (q !! "error"%string) as [e|];
    [|exists 2, ([39%N] ++ lit "error" ++ [39%N]); split; [lia|reflexivity]].
  destruct (q !! "broken"%string) as [b|];
    [|exists 3, ([39%N] ++ lit "broken" ++ [39%N]); split; [lia|reflexivity]].
  destruct (q !! "correct"%string) as [c|];
    [|exists 4, ([39%N] ++ lit "correct" ++ [39%N]); split; [lia|reflexivity]].
  destruct (q !! "riddle"%string) as [r|];
    [|exists 6, ([39%N] ++ lit "riddle" ++ [39%N]); split; [lia|reflexivity]].
  destruct (q !! "answer"%string) as [a|];
    [|exists 7, ([39%N] ++ lit "answer" ++ [39%N]); split; [lia|reflexivity]].
  exfalso. apply Hn. repeat split; eauto.
Qed.

Lemma genq_entry_loop_app pre tail i trace :
  Forall (fun q => genq_complete q = true) pre ->
  GenQ.entry_loop i (pre ++ tail) trace
  = GenQ.entry_loop (i + length pre) tail
      (trace ++ concat (imap (fun k q => genq_entry_output (i + k) q) pre)).
Proof.
  intros H. revert i trace.
  induction H as [|q pre Hq _ IH]; intros i trace.
  - cbn. rewrite Nat.add_0_r, app_nil_r. reflexivity.
  - cbn [app GenQ.entry_loop]. rewrite (print_all_complete i q Hq), IH.
    cbn [length imap concat].
    rewrite Nat.add_0_r, <- app_assoc. f_equal; [lia|]. f_equal. f_equal.
    f_equal. apply imap_ext. intros k x _. cbn. f_equal. lia.
Qed.

(** X17: the run over a table whose entries have the five keys prints the
    three opening lines, ten lines for each entry, numbered from 1, and
    the three closing lines; the first entry that lacks one of the keys
    ends it with [KeyError] in the middle of its record: between two and
    seven of its lines are printed, never the line that closes the
    record, and nothing after. *)
Theorem X17_genq_run (pre : list GenQ.entry) :
  Forall (fun q => genq_complete q = true) pre ->
  GenQ.run pre
  = (GenQ.header
     ++ concat (imap (fun k q => genq_entry_output (1 + k) q) pre)
     ++ GenQ.footer, Finished)
  /\ forall u rest,
       genq_complete u = false ->
       exists n, 2 <= n <= 7
         /\ GenQ.run (pre ++ u :: rest)
            = (GenQ.header
               ++ concat (imap (fun k q => genq_entry_output (1 + k) q) pre)
               ++ take n (genq_entry_output (1 + length pre) u),
               Raised "KeyError").
Proof.
  intros H. split.
  - unfold GenQ.run. rewrite <- (app_nil_r pre) at 1.
    rewrite (genq_entry_loop_app pre [] 1 _ H). cbn [GenQ.entry_loop].
    rewrite <- app_assoc. reflexivity.
  - intros u rest Hu. unfold GenQ.run.
    rewrite (genq_entry_loop_app pre (u :: rest) 1 _ H).
    cbn [GenQ.entry_loop].
    destruct (print_all_incomplete (1 + length pre) u Hu)
      as (n & e & Hn & E).
    rewrite E. exists n. split; [exact Hn|]. rewrite <- app_assoc.
    reflexivity.
Qed.

Lemma X17_genq_run_witness :
  exists n, 2 <= n <= 7
    /\ GenQ.run ([genq_entry_1] ++ genq_entry_without_riddle :: [genq_entry_1])
       = (GenQ.header
          ++ concat (imap (fun k q => genq_entry_output (1 + k) q)
                       [genq_entry_1])
          ++ take n (genq_entry_output (1 + length [genq_entry_1])
                       genq_entry_without_riddle),
          Raised "KeyError").
Proof.
  exact (proj2 (X17_genq_run [genq_entry_1]
                  ltac:(repeat constructor))
           genq_entry_without_riddle [genq_entry_1]
           ltac:(vm_compute; reflexivity)).
Defined.

(** X18: only five keys of an entry are read: two tables whose entries agree
    on them give the same run, whatever their [id] and [title] are and
    whatever other keys they have. *)
Theorem X18_genq_keys_read (t1 t2 : list GenQ.entry) :
  Forall2 (fun q1 q2 => Forall (fun k => q1 !! k = q2 !! k) genq_keys) t1 t2 ->
  GenQ.run t1 = GenQ.run t2.
Proof.
  intros H. unfold GenQ.run. generalize GenQ.header, 1.
  induction H as [|q1 q2 t1 t2 Hq _ IH]; intros trace i; [reflexivity|].
  cbn [GenQ.entry_loop].
  assert (E : GenQ.print_all (GenQ.entry_prints i q1)
              = GenQ.print_all (GenQ.entry_prints i q2)).
  { unfold genq_keys in Hq. rewrite !Forall_cons in Hq.
    destruct Hq as (He & Hb & Hc & Hr & Ha & _).
    unfold GenQ.entry_prints, GenQ.field_line, GenQ.get.
    rewrite He, Hb, Hc, Hr, Ha. reflexivity. }
  rewrite E. destruct (GenQ.print_all (GenQ.entry_prints i q2)) as [t [e|]];
    [reflexivity|apply IH].
Qed.

Lemma X18_genq_keys_read_witness :
  GenQ.run [genq_entry_1]
  = GenQ.run [delete "id"%string (<["title"%string := lit "T"]> genq_entry_1)].
Proof.
  apply (X18_genq_keys_read [genq_entry_1]
           [delete "id"%string (<["title"%string := lit "T"]> genq_entry_1)]).
  repeat constructor.
Defined.

(** ** [generate_questions_c_l3.py]: texts are only added to *)

Lemma cl3_step_grows a line s :
  GenCL3.accumulated (GenCL3.step a line) s = GenCL3.accumulated a s
  \/ GenCL3.accumulated (GenCL3.step a line) s
     = GenCL3.accumulated a s ++ line ++ [LF].
Proof.
  unfold GenCL3.step. destruct (strip line) as [|c ls]; [left; reflexivity|].
  destruct (GenCL3.label_of (c :: ls)) as [s'|].
  - left. destruct s; reflexivity.
  - destruct (GenCL3.current_section a) as [[]|]; destruct s; cbn; auto.
Qed.

Lemma cl3_fold_grows lines a s :
  exists ls,
    sublist ls lines
    /\ GenCL3.accumulated (fold_left GenCL3.step lines a) s
       = GenCL3.accumulated a s ++ concat (map (fun l => l ++ [LF]) ls).
Proof.
  revert a. induction lines as [|l lines IH]; intros a.
  - exists []. split; [constructor|]. rewrite app_nil_r. reflexivity.
  - cbn [fold_left]. destruct (IH (GenCL3.step a l)) as (ls & Hs & E).
    destruct (cl3_step_grows a l s) as [E1|E1]; rewrite E, E1.
    + exists ls. split; [apply sublist_cons, Hs|reflexivity].
    + exists (l :: ls). split; [apply sublist_skip, Hs|].
      cbn [map concat]. rewrite <- !app_assoc. reflexivity.
Qed.

(** X19: no line of a block takes back what a section has gathered: after
    more lines, the text gathered for a section is the text gathered
    before them followed by some of the new lines, in their order, each
    with its line feed; so a label met a second time adds to its section
    where the two parsers start the field anew. *)
Theorem X19_cl3_sections_only_grow (lines1 lines2 : list str)
    (s : GenCL3.section) :
  exists ls,
    sublist ls lines2
    /\ GenCL3.accumulated
         (fold_left GenCL3.step (lines1 ++ lines2)
            (GenCL3.Acc [] [] [] [] [] None)) s
       = GenCL3.accumulated
           (fold_left GenCL3.step lines1 (GenCL3.Acc [] [] [] [] [] None)) s
         ++ concat (map (fun l => l ++ [LF]) ls).
Proof. rewrite fold_left_app. apply cl3_fold_grows. Qed.

(** A block in which [Riddle] stands twice gathers the lines under
    both. *)
Example cl3_label_twice :
  GenCL3.section_text
    (GenCL3.scan (lit "Riddle" ++ [LF] ++ lit "one" ++ [LF] ++ lit "Answer"
                  ++ [LF] ++ lit "a" ++ [LF] ++ lit "Riddle" ++ [LF]
                  ++ lit "two"))
    GenCL3.SRiddle
  = lit "one" ++ [LF] ++ lit "two".
Proof. vm_compute. reflexivity. Qed.
